(** * continual-sync: a shallow embedding of the watcher, the configuration
      validator, the validation helper, the watcher command line, the
      section selection of [main] and the sync process.

    The C sources are embedded function by function.

    - Pointers to [struct ds_file_s] and [struct ds_dir_s] are addresses
      into two finite maps, the allocated structures.  [free] deletes the
      address.  A read or write through an address that holds no structure
      is undefined in C; the functions here then do nothing, and the
      theorems that need the structure assume it is there.
    - C strings are [string]s, and [time_t], [off_t], [int] and
      [unsigned long] are [Z]; the sum of a [time_t] and an
      [unsigned long] that the sync loop stores is taken modulo 2^64.
    - Every call into the operating system consults an oracle indexed by
      the number of calls made so far, so that the file system and the
      clock may change between any two calls.
    - A recursion over the directory tree takes [fuel]; a loop whose index
      is moved back after a removal takes a bound on its iterations.
    - Allocation does not fail; [die] is modelled only where a failing
      system call leads to it.
    - A function that reads through a pointer that may be NULL returns an
      [option]; [None] is that read.  So does the queue run, which follows
      the pointers of the queue entries: [None] is a read of a structure
      that has been freed.
    - The sync process keeps the files it reads and writes as a finite map
      from path to lines, and what it does besides (log lines, the sync
      lock, rsync started or killed, marker files touched) as a list of
      effects in order. *)

From Stdlib Require Import ZArith Lia Ascii.
From stdpp Require Import gmap strings list pretty.

Open Scope Z_scope.

(** ** common.c *)

Module Common.

(** [s[i]], where the position just after the last character holds the
    terminating NUL. *)
Definition char_at (s : string) (i : nat) : ascii :=
  default Ascii.zero (String.get i s).

(** [&s[i]]: the string that starts [i] characters into [s]. *)
Fixpoint str_from (i : nat) (s : string) : string :=
  match i, s with
  | O, _ => s
  | S i', String _ rest => str_from i' rest
  | S _, EmptyString => EmptyString
  end.

(** The first [n] characters of [s]: [printf]'s [%.*s], [strncpy]. *)
Fixpoint str_take (n : nat) (s : string) : string :=
  match n, s with
  | S n', String c rest => String c (str_take n' rest)
  | _, _ => EmptyString
  end.

(** The [while] loop of [ds_leafname_pos]: walk back from [leafpos] until a
    slash or the start of the string. *)
Fixpoint leafname_scan (pathname : string) (leafpos : nat) : nat :=
  match leafpos with
  | O => O
  | S p =>
      if Ascii.eqb (char_at pathname leafpos) "/"%char then leafpos
      else leafname_scan pathname p
  end.

Definition ds_leafname_pos (pathname : string) : nat :=
  let leafpos := leafname_scan pathname (String.length pathname) in
  if Ascii.eqb (char_at pathname leafpos) "/"%char then S leafpos else leafpos.

Definition ds_leafname (pathname : string) : string :=
  str_from (ds_leafname_pos pathname) pathname.

(** [strcmp(a, b) == 0] *)
Definition streq (a b : string) : bool := String.eqb a b.

(** A small shell-style matcher ([*], [?] and literal characters), used as
    a concrete [fnmatch] when the theorems are run on examples. *)
Fixpoint glob_chars (fuel : nat) (pat str : list ascii) : bool :=
  match fuel with
  | O => false
  | S fuel' =>
      match pat, str with
      | [], [] => true
      | [], _ :: _ => false
      | p :: pat', _ =>
          if Ascii.eqb p "*"%char then
            glob_chars fuel' pat' str ||
            match str with
            | [] => false
            | _ :: str' => glob_chars fuel' pat str'
            end
          else
            match str with
            | [] => false
            | c :: str' =>
                (Ascii.eqb p "?"%char || Ascii.eqb p c) && glob_chars fuel' pat' str'
            end
      end
  end.

Definition glob_match (pat str : string) : bool :=
  let p := String.list_ascii_of_string pat in
  let s := String.list_ascii_of_string str in
  glob_chars (S (List.length p + List.length s)) p s.

(** Whether the character [c] occurs in [s]. *)
Fixpoint contains_char (c : ascii) (s : string) : bool :=
  match s with
  | EmptyString => false
  | String c' rest => Ascii.eqb c' c || contains_char c rest
  end.

End Common.

(** ** watch.c *)

Module Watch.
Import Common.

(** *** Data model *)

(** Addresses of heap-allocated structures. *)
Definition ptr := nat.

(** [struct ds_file_s]. *)
Record ds_file_s := mk_file {
  f_absolute_path : string;
  f_path : string;
  f_leaf : string;
  f_mtime : Z;
  f_size : Z;
  f_parent : option ptr;
  f_seen_in_rescan : bool
}.

(** [struct ds_dir_s], without the items used only in the top level
    directory: every directory of one tree has the same [topdir], so those
    items are fields of the [watcher] state below. *)
Record ds_dir_s := mk_dir {
  d_absolute_path : string;
  d_path : string;
  d_leaf : string;
  d_wd : Z;
  d_depth : Z;
  d_files : list ptr;
  d_subdirs : list ptr;
  d_parent : option ptr;
  d_topdir : option ptr;
  d_seen_in_rescan : bool;
  d_files_unsorted : bool;
  d_subdirs_unsorted : bool
}.

(** [struct ds_watch_index_s]. *)
Record ds_watch_index_s := mk_watch {
  wi_wd : Z;
  wi_dir : ptr
}.

(** [struct ds_change_queue_s]; [None] is the NULL pointer. *)
Record ds_change_queue_s := mk_change {
  when : Z;
  cq_file : option ptr;
  cq_dir : option ptr
}.

(** What [lstat] reports: the file type bits of [st_mode], the device, the
    modification time and the size. *)
Inductive file_type := S_IFREG | S_IFDIR | S_IFOTHER.

Record stat := mk_stat {
  st_mode : file_type;
  st_dev : Z;
  st_mtime : Z;
  st_size : Z
}.

Definition S_ISREG (m : file_type) : bool :=
  match m with S_IFREG => true | _ => false end.

Definition S_ISDIR (m : file_type) : bool :=
  match m with S_IFDIR => true | _ => false end.

(** [struct tm], the fields the batch file name uses. *)
Record tm := mk_tm {
  tm_year : Z; tm_mon : Z; tm_mday : Z;
  tm_hour : Z; tm_min : Z; tm_sec : Z
}.

(** The operating system, as the watcher sees it.  The first argument of a
    call is the number of system calls made before it. *)
Record system := mk_system {
  sys_fnmatch : string -> string -> bool;
  sys_lstat : nat -> string -> option stat;
  sys_scandir : nat -> string -> option (list string);
  sys_time : nat -> Z;
  sys_inotify_add_watch : nat -> string -> Z;
  sys_localtime : Z -> tm;
  sys_getpid : Z;
  sys_mkstemp : nat -> string -> option string;
  sys_fdopen : nat -> bool;
  sys_rename : nat -> bool
}.

(** The memory of one watcher process: the allocated file and directory
    structures, the top level directory's own items, the files of the output
    directory, and whether [die] has ended the process. *)
Record watcher := mk_watcher {
  files : gmap ptr ds_file_s;
  dirs : gmap ptr ds_dir_s;
  next_ptr : ptr;
  syscalls : nat;
  fd_inotify : Z;
  watch_index : list ds_watch_index_s;
  watch_index_unsorted : bool;
  change_queue : list ds_change_queue_s;
  changed_paths : list string;
  disk : gmap string (list string);
  died : bool
}.

Global Instance file_type_eq_dec : EqDecision file_type.
Proof. solve_decision. Defined.

Global Instance stat_eq_dec : EqDecision stat.
Proof. solve_decision. Defined.

(** Field updates. *)
Definition set_files (v : gmap ptr ds_file_s) (s : watcher) : watcher :=
  mk_watcher v (dirs s) (next_ptr s) (syscalls s) (fd_inotify s)
    (watch_index s) (watch_index_unsorted s) (change_queue s)
    (changed_paths s) (disk s) (died s).

Definition set_dirs (v : gmap ptr ds_dir_s) (s : watcher) : watcher :=
  mk_watcher (files s) v (next_ptr s) (syscalls s) (fd_inotify s)
    (watch_index s) (watch_index_unsorted s) (change_queue s)
    (changed_paths s) (disk s) (died s).

Definition set_next_ptr (v : ptr) (s : watcher) : watcher :=
  mk_watcher (files s) (dirs s) v (syscalls s) (fd_inotify s)
    (watch_index s) (watch_index_unsorted s) (change_queue s)
    (changed_paths s) (disk s) (died s).

(** One more system call has been made. *)
Definition tick (s : watcher) : watcher :=
  mk_watcher (files s) (dirs s) (next_ptr s) (S (syscalls s)) (fd_inotify s)
    (watch_index s) (watch_index_unsorted s) (change_queue s)
    (changed_paths s) (disk s) (died s).

(** Both writers of the watch index also set [watch_index_unsorted]. *)
Definition set_watch_index (v : list ds_watch_index_s) (s : watcher) : watcher :=
  mk_watcher (files s) (dirs s) (next_ptr s) (syscalls s) (fd_inotify s)
    v true (change_queue s) (changed_paths s) (disk s) (died s).

Definition set_change_queue (v : list ds_change_queue_s) (s : watcher) : watcher :=
  mk_watcher (files s) (dirs s) (next_ptr s) (syscalls s) (fd_inotify s)
    (watch_index s) (watch_index_unsorted s) v (changed_paths s) (disk s)
    (died s).

Definition set_changed_paths (v : list string) (s : watcher) : watcher :=
  mk_watcher (files s) (dirs s) (next_ptr s) (syscalls s) (fd_inotify s)
    (watch_index s) (watch_index_unsorted s) (change_queue s) v (disk s)
    (died s).

Definition set_disk (v : gmap string (list string)) (s : watcher) : watcher :=
  mk_watcher (files s) (dirs s) (next_ptr s) (syscalls s) (fd_inotify s)
    (watch_index s) (watch_index_unsorted s) (change_queue s)
    (changed_paths s) v (died s).

(** [die]: the process ends. *)
Definition die (s : watcher) : watcher :=
  mk_watcher (files s) (dirs s) (next_ptr s) (syscalls s) (fd_inotify s)
    (watch_index s) (watch_index_unsorted s) (change_queue s)
    (changed_paths s) (disk s) true.

Definition file_set_stat (mtime size : Z) (f : ds_file_s) : ds_file_s :=
  mk_file (f_absolute_path f) (f_path f) (f_leaf f) mtime size (f_parent f)
    (f_seen_in_rescan f).

Definition file_set_parent (p : option ptr) (f : ds_file_s) : ds_file_s :=
  mk_file (f_absolute_path f) (f_path f) (f_leaf f) (f_mtime f) (f_size f) p
    (f_seen_in_rescan f).

Definition file_set_seen (b : bool) (f : ds_file_s) : ds_file_s :=
  mk_file (f_absolute_path f) (f_path f) (f_leaf f) (f_mtime f) (f_size f)
    (f_parent f) b.

Definition dir_set_wd (wd : Z) (d : ds_dir_s) : ds_dir_s :=
  mk_dir (d_absolute_path d) (d_path d) (d_leaf d) wd (d_depth d) (d_files d)
    (d_subdirs d) (d_parent d) (d_topdir d) (d_seen_in_rescan d)
    (d_files_unsorted d) (d_subdirs_unsorted d).

(** Storing a new [files] array also sets [files_unsorted]. *)
Definition dir_set_files (l : list ptr) (d : ds_dir_s) : ds_dir_s :=
  mk_dir (d_absolute_path d) (d_path d) (d_leaf d) (d_wd d) (d_depth d) l
    (d_subdirs d) (d_parent d) (d_topdir d) (d_seen_in_rescan d)
    true (d_subdirs_unsorted d).

(** Storing a new [subdirs] array also sets [subdirs_unsorted]. *)
Definition dir_set_subdirs (l : list ptr) (d : ds_dir_s) : ds_dir_s :=
  mk_dir (d_absolute_path d) (d_path d) (d_leaf d) (d_wd d) (d_depth d)
    (d_files d) l (d_parent d) (d_topdir d) (d_seen_in_rescan d)
    (d_files_unsorted d) true.

(** [free(dir->files); dir->files = NULL; dir->file_count = 0]. *)
Definition dir_free_files (d : ds_dir_s) : ds_dir_s :=
  mk_dir (d_absolute_path d) (d_path d) (d_leaf d) (d_wd d) (d_depth d) []
    (d_subdirs d) (d_parent d) (d_topdir d) (d_seen_in_rescan d)
    (d_files_unsorted d) (d_subdirs_unsorted d).

Definition dir_free_subdirs (d : ds_dir_s) : ds_dir_s :=
  mk_dir (d_absolute_path d) (d_path d) (d_leaf d) (d_wd d) (d_depth d)
    (d_files d) [] (d_parent d) (d_topdir d) (d_seen_in_rescan d)
    (d_files_unsorted d) (d_subdirs_unsorted d).

Definition dir_set_parent (p : option ptr) (d : ds_dir_s) : ds_dir_s :=
  mk_dir (d_absolute_path d) (d_path d) (d_leaf d) (d_wd d) (d_depth d)
    (d_files d) (d_subdirs d) p (d_topdir d) (d_seen_in_rescan d)
    (d_files_unsorted d) (d_subdirs_unsorted d).

Definition dir_set_seen (b : bool) (d : ds_dir_s) : ds_dir_s :=
  mk_dir (d_absolute_path d) (d_path d) (d_leaf d) (d_wd d) (d_depth d)
    (d_files d) (d_subdirs d) (d_parent d) (d_topdir d) b
    (d_files_unsorted d) (d_subdirs_unsorted d).

(** A write through a pointer: nothing happens when the address holds no
    structure (in C the access would be undefined). *)
Definition upd_file (p : ptr) (g : ds_file_s -> ds_file_s) (s : watcher) : watcher :=
  set_files (alter g p (files s)) s.

Definition upd_dir (p : ptr) (g : ds_dir_s -> ds_dir_s) (s : watcher) : watcher :=
  set_dirs (alter g p (dirs s)) s.

(** *** The functions of watch.c *)

Section Functions.

(** The operating system, and the file-scope variables [watch_dir] sets once
    from its arguments.  [exclude_count] is the length of [excludes]; an
    entry of [excludes] may be NULL. *)
Variable os : system.
Variable max_directory_depth : Z.
Variable excludes : list (option string).

Definition exclude_count : Z := Z.of_nat (length excludes).

(** [ds_watch_index_add]. *)
Definition ds_watch_index_add (dir : ptr) (wd : Z) (s : watcher) : watcher :=
  match dirs s !! dir with
  | None => s
  | Some d =>
      if wd <? 0 then s
      else match d_topdir d with
           | None => s
           | Some _ => set_watch_index (watch_index s ++ [mk_watch wd dir]) s
           end
  end.

(** [ds_watch_index_remove]: the read index and write index loop keeps the
    entries whose [wd] differs. *)
Definition ds_watch_index_remove (wd : Z) (s : watcher) : watcher :=
  set_watch_index
    (List.filter (fun e => negb (wi_wd e =? wd)) (watch_index s)) s.

(** The test inside the loop of [_ds_change_queue_add]: the entry already
    targets the given file or the given directory. *)
Definition already_queued (file dir : option ptr) (e : ds_change_queue_s) : bool :=
  match file with
  | Some f => bool_decide (cq_file e = Some f)
  | None => false
  end ||
  match dir with
  | Some d => bool_decide (cq_dir e = Some d)
  | None => false
  end.

Definition _ds_change_queue_add (when : Z) (file dir : option ptr)
    (s : watcher) : watcher :=
  match file, dir with
  | None, None => s
  | _, _ =>
      if existsb (already_queued file dir) (change_queue s) then s
      else set_change_queue (change_queue s ++ [mk_change when file dir]) s
  end.

Definition ds_change_queue_file_add (file : ptr) (when : Z) (s : watcher) : watcher :=
  match files s !! file with
  | None => s
  | Some f =>
      match f_parent f with
      | None => s
      | Some parent =>
          match dirs s !! parent with
          | None => s
          | Some pd =>
              match d_topdir pd with
              | None => s
              | Some _ =>
                  if when =? 0 then
                    _ds_change_queue_add (sys_time os (syscalls s) + 2)
                      (Some file) None (tick s)
                  else _ds_change_queue_add when (Some file) None s
              end
          end
      end
  end.

Definition clear_file (file : ptr) (e : ds_change_queue_s) : ds_change_queue_s :=
  if bool_decide (cq_file e = Some file) then mk_change (when e) None (cq_dir e)
  else e.

Definition clear_dir (dir : ptr) (e : ds_change_queue_s) : ds_change_queue_s :=
  if bool_decide (cq_dir e = Some dir) then mk_change (when e) (cq_file e) None
  else e.

(** [ds_change_queue_file_remove]: returns at once when the file has no
    parent. *)
Definition ds_change_queue_file_remove (file : ptr) (s : watcher) : watcher :=
  match files s !! file with
  | None => s
  | Some f =>
      match f_parent f with
      | None => s
      | Some parent =>
          match dirs s !! parent with
          | None => s
          | Some pd =>
              match d_topdir pd with
              | None => s
              | Some _ => set_change_queue (clear_file file <$> change_queue s) s
              end
          end
      end
  end.

Definition ds_change_queue_dir_add (dir : ptr) (when : Z) (s : watcher) : watcher :=
  match dirs s !! dir with
  | None => s
  | Some d =>
      match d_topdir d with
      | None => s
      | Some _ =>
          if when =? 0 then
            _ds_change_queue_add (sys_time os (syscalls s)) None (Some dir)
              (tick s)
          else _ds_change_queue_add when None (Some dir) s
      end
  end.

Definition ds_change_queue_dir_remove (dir : ptr) (s : watcher) : watcher :=
  match dirs s !! dir with
  | None => s
  | Some d =>
      match d_topdir d with
      | None => s
      | Some _ => set_change_queue (clear_dir dir <$> change_queue s) s
      end
  end.

(** [strcmp(files[idx]->leaf, name) == 0], reading the leaf through the
    pointer. *)
Definition file_leaf_is (s : watcher) (name : string) (file : ptr) : bool :=
  match files s !! file with
  | Some f => streq (f_leaf f) name
  | None => false
  end.

Definition dir_leaf_is (s : watcher) (name : string) (dir : ptr) : bool :=
  match dirs s !! dir with
  | Some d => streq (d_leaf d) name
  | None => false
  end.

(** The path relative to the top level: [&absolute_path[strlen(top) + 1]],
    where [top] is the top directory's absolute path, or the parent's when
    there is no top directory. *)
Definition relative_path (s : watcher) (d : ds_dir_s) (absolute_path : string) : string :=
  let base :=
    match d_topdir d with
    | Some top =>
        match dirs s !! top with
        | Some td => d_absolute_path td
        | None => d_absolute_path d
        end
    | None => d_absolute_path d
    end in
  str_from (String.length base + 1) absolute_path.

(** [ds_file_add]: the existing file of that leafname, or a new zeroed
    structure appended to the directory's array. *)
Definition ds_file_add (dir : ptr) (name : string) (s : watcher) : option ptr * watcher :=
  match dirs s !! dir with
  | None => (None, s)
  | Some d =>
      match List.find (file_leaf_is s name) (d_files d) with
      | Some file => (Some file, s)
      | None =>
          let file := next_ptr s in
          let absolute_path := d_absolute_path d +:+ "/" +:+ name in
          let f := mk_file absolute_path (relative_path s d absolute_path)
                     (ds_leafname absolute_path) 0 0 (Some dir) false in
          (Some file,
           upd_dir dir (dir_set_files (d_files d ++ [file]))
             (set_files (<[file := f]> (files s))
                (set_next_ptr (S file) s)))
      end
  end.

(** [ds_file_remove]. *)
Definition ds_file_remove (file : ptr) (s : watcher) : watcher :=
  match files s !! file with
  | None => s
  | Some f =>
      let s1 :=
        match f_parent f with
        | Some parent =>
            match dirs s !! parent with
            | Some pd =>
                upd_dir parent
                  (dir_set_files
                     (List.filter (fun g => negb (file_leaf_is s (f_leaf f) g))
                        (d_files pd))) s
            | None => s
            end
        | None => s
        end in
      let s2 := ds_change_queue_file_remove file s1 in
      set_files (delete file (files s2)) s2
  end.

(** [ds_file_checkchanged]: -1 when the file is gone or not regular, 0 when
    mtime and size are the stored ones, 1 (after storing the new values)
    otherwise. *)
Definition ds_file_checkchanged (file : ptr) (s : watcher) : Z * watcher :=
  match files s !! file with
  | None => (-1, s)
  | Some f =>
      match sys_lstat os (syscalls s) (f_absolute_path f) with
      | None => (-1, tick s)
      | Some sb =>
          if negb (S_ISREG (st_mode sb)) then (-1, tick s)
          else if (st_mtime sb =? f_mtime f) && (st_size sb =? f_size f)
          then (0, tick s)
          else (1, upd_file file (file_set_stat (st_mtime sb) (st_size sb))
                     (tick s))
      end
  end.

(** [ds_filename_valid]: [true] when the name should be included. *)
Definition ds_filename_valid (leafname : string) : bool :=
  if Ascii.eqb (char_at leafname 0) Ascii.zero then false
  else if Ascii.eqb (char_at leafname 0) "."%char
          && Ascii.eqb (char_at leafname 1) Ascii.zero then false
  else if Ascii.eqb (char_at leafname 0) "."%char
          && Ascii.eqb (char_at leafname 1) "."%char
          && Ascii.eqb (char_at leafname 2) Ascii.zero then false
  else if 0 <? exclude_count then
    negb (existsb
            (fun e => match e with
                      | None => false
                      | Some pattern => sys_fnmatch os pattern leafname
                      end) excludes)
  else
    let namelen := String.length leafname in
    if (1 <=? namelen)%nat && Ascii.eqb (char_at leafname (namelen - 1)) "~"%char
    then false
    else if (4 <? namelen)%nat && streq (str_from (namelen - 4) leafname) ".tmp"
    then false
    else true.

(** [mark_path_changed]. *)
Definition mark_path_changed (path : string) (isdir : bool) (s : watcher) : watcher :=
  let savepath := path +:+ (if isdir then "/" else "") in
  if existsb (fun p => streq p savepath) (changed_paths s) then s
  else set_changed_paths (changed_paths s ++ [savepath]) s.

(** [ds_dir_add]: no subdirectory is added below the depth limit. *)
Definition ds_dir_add (dir : ptr) (name : string) (s : watcher) : option ptr * watcher :=
  match dirs s !! dir with
  | None => (None, s)
  | Some d =>
      if d_depth d >=? max_directory_depth then (None, s)
      else
        match List.find (dir_leaf_is s name) (d_subdirs d) with
        | Some subdir => (Some subdir, s)
        | None =>
            let subdir := next_ptr s in
            let absolute_path := d_absolute_path d +:+ "/" +:+ name in
            let sd := mk_dir absolute_path (relative_path s d absolute_path)
                        (ds_leafname absolute_path) (-1) (d_depth d + 1) [] []
                        (Some dir) (d_topdir d) false false false in
            (Some subdir,
             upd_dir dir (dir_set_subdirs (d_subdirs d ++ [subdir]))
               (set_dirs (<[subdir := sd]> (dirs s))
                  (set_next_ptr (S subdir) s)))
        end
  end.

(** [ds_dir_remove].  [fuel] bounds the nesting of the recursion.  The
    top level directory also frees the watch index, the change queue and the
    changed paths list. *)
Fixpoint ds_dir_remove (fuel : nat) (dir : ptr) (s : watcher) : watcher :=
  match fuel with
  | O => s
  | S fuel' =>
      match dirs s !! dir with
      | None => s
      | Some d =>
          let s1 :=
            if (0 <=? d_wd d) && bool_decide (is_Some (d_topdir d))
               && (0 <=? fd_inotify s)
            then upd_dir dir (dir_set_wd (-1))
                   (ds_watch_index_remove (d_wd d) (tick s))
            else s in
          let s2 :=
            upd_dir dir dir_free_files
              (foldl (fun acc item =>
                        ds_file_remove item
                          (upd_file item (file_set_parent None) acc))
                 s1 (d_files d)) in
          let s3 :=
            upd_dir dir dir_free_subdirs
              (foldl (fun acc item =>
                        ds_dir_remove fuel' item
                          (upd_dir item (dir_set_parent None) acc))
                 s2 (d_subdirs d)) in
          let s4 :=
            match d_parent d with
            | Some parent =>
                match dirs s3 !! parent with
                | Some pd =>
                    upd_dir parent
                      (dir_set_subdirs
                         (List.filter
                            (fun g => negb (dir_leaf_is s3 (d_leaf d) g))
                            (d_subdirs pd))) s3
                | None => s3
                end
            | None => s3
            end in
          let s5 := ds_change_queue_dir_remove dir s4 in
          let s6 :=
            if bool_decide (d_topdir d = Some dir)
            then set_changed_paths []
                   (set_change_queue [] (set_watch_index [] s5))
            else s5 in
          set_dirs (delete dir (dirs s6)) s6
      end
  end.

(** The body of the loop of [ds_dir_scan] over the [scandir] results. *)
Definition scan_item (dir : ptr) (dirsb : stat) (s : watcher) (d_name : string) : watcher :=
  match dirs s !! dir with
  | None => s
  | Some d =>
      let item_full_path := d_absolute_path d +:+ "/" +:+ d_name in
      let item_leaf := ds_leafname item_full_path in
      if negb (ds_filename_valid item_leaf) then s
      else
        match sys_lstat os (syscalls s) item_full_path with
        | None => tick s
        | Some sb =>
            if S_ISREG (st_mode sb) then
              match ds_file_add dir item_leaf (tick s) with
              | (Some file, s') => upd_file file (file_set_seen true) s'
              | (None, s') => s'
              end
            else if S_ISDIR (st_mode sb) then
              if st_dev sb =? st_dev dirsb then
                match ds_dir_add dir item_leaf (tick s) with
                | (Some subdir, s') => upd_dir subdir (dir_set_seen true) s'
                | (None, s') => s'
                end
              else tick s
            else tick s
        end
  end.

(** The loop of [ds_dir_scan] over the subdirectories: an unseen one is
    removed, a seen one is scanned unless [no_recurse]; the index stays
    where it is after a removal.  [n] bounds the number of iterations. *)
Fixpoint scan_subdirs (scan : ptr -> watcher -> Z * watcher)
    (remove : ptr -> watcher -> watcher) (n : nat) (dir : ptr)
    (no_recurse : bool) (diridx : nat) (s : watcher) : watcher :=
  match n with
  | O => s
  | S n' =>
      match dirs s !! dir with
      | None => s
      | Some d =>
          match d_subdirs d !! diridx with
          | None => s
          | Some subdir =>
              match dirs s !! subdir with
              | None => s
              | Some sd =>
                  if d_seen_in_rescan sd then
                    if no_recurse
                    then scan_subdirs scan remove n' dir no_recurse (S diridx) s
                    else
                      let '(rc, s') := scan subdir s in
                      if rc =? 0
                      then scan_subdirs scan remove n' dir no_recurse (S diridx) s'
                      else scan_subdirs scan remove n' dir no_recurse diridx s'
                  else
                    scan_subdirs scan remove n' dir no_recurse diridx
                      (remove subdir s)
              end
          end
      end
  end.

(** The loop of [ds_dir_scan] that deletes the files not seen on rescan. *)
Fixpoint scan_remove_unseen (n : nat) (dir : ptr) (fileidx : nat) (s : watcher) : watcher :=
  match n with
  | O => s
  | S n' =>
      match dirs s !! dir with
      | None => s
      | Some d =>
          match d_files d !! fileidx with
          | None => s
          | Some file =>
              match files s !! file with
              | None => s
              | Some f =>
                  if f_seen_in_rescan f
                  then scan_remove_unseen n' dir (S fileidx) s
                  else scan_remove_unseen n' dir fileidx (ds_file_remove file s)
              end
          end
      end
  end.

(** The last loop of [ds_dir_scan], "check all files for changes": the
    result of [ds_file_checkchanged] is used only to remove a file that is
    gone. *)
Fixpoint scan_check_files (n : nat) (dir : ptr) (fileidx : nat) (s : watcher) : watcher :=
  match n with
  | O => s
  | S n' =>
      match dirs s !! dir with
      | None => s
      | Some d =>
          match d_files d !! fileidx with
          | None => s
          | Some file =>
              let '(changed, s1) := ds_file_checkchanged file s in
              if changed <? 0
              then scan_check_files n' dir fileidx (ds_file_remove file s1)
              else scan_check_files n' dir (S fileidx) s1
          end
      end
  end.

(** The end of [ds_dir_scan]: add an inotify watch if there is none. *)
Definition scan_add_watch (dir : ptr) (s : watcher) : watcher :=
  match dirs s !! dir with
  | None => s
  | Some d =>
      if (d_wd d <? 0) && bool_decide (is_Some (d_topdir d))
         && (0 <=? fd_inotify s)
      then
        let wd := sys_inotify_add_watch os (syscalls s) (d_absolute_path d) in
        let s1 := upd_dir dir (dir_set_wd wd) (tick s) in
        if wd <? 0 then s1 else ds_watch_index_add dir wd s1
      else s
  end.

(** [ds_dir_scan]: nonzero when the scan failed and the directory was
    removed.  [fuel] bounds the nesting of the recursion. *)
Fixpoint ds_dir_scan (fuel : nat) (dir : ptr) (no_recurse : bool) (s : watcher)
    : Z * watcher :=
  match fuel with
  | O => (1, s)
  | S fuel' =>
      match dirs s !! dir with
      | None => (1, s)
      | Some d =>
          if d_depth d >? max_directory_depth
          then (1, ds_dir_remove fuel dir s)
          else
            match sys_lstat os (syscalls s) (d_absolute_path d) with
            | None => (1, ds_dir_remove fuel dir (tick s))
            | Some dirsb =>
                match sys_scandir os (S (syscalls s)) (d_absolute_path d) with
                | None => (1, ds_dir_remove fuel dir (tick (tick s)))
                | Some entries =>
                    let namelist := List.filter ds_filename_valid entries in
                    let s1 :=
                      foldl (fun acc sub => upd_dir sub (dir_set_seen false) acc)
                        (tick (tick s)) (d_subdirs d) in
                    let s2 :=
                      foldl (fun acc file => upd_file file (file_set_seen false) acc)
                        s1 (d_files d) in
                    let s3 := foldl (scan_item dir dirsb) s2 namelist in
                    let s4 :=
                      scan_subdirs (fun sub acc => ds_dir_scan fuel' sub false acc)
                        (ds_dir_remove fuel)
                        (match dirs s3 !! dir with
                         | Some d3 => length (d_subdirs d3)
                         | None => O
                         end) dir no_recurse O s3 in
                    let s5 :=
                      scan_remove_unseen
                        (match dirs s4 !! dir with
                         | Some d4 => length (d_files d4)
                         | None => O
                         end) dir O s4 in
                    let s6 :=
                      scan_check_files
                        (match dirs s5 !! dir with
                         | Some d5 => length (d_files d5)
                         | None => O
                         end) dir O s5 in
                    (0, scan_add_watch dir s6)
                end
            end
      end
  end.

(** The path of the directory holding [file], when the file, its parent
    and the parent's top directory are all there:
    [file->parent->topdir] and [file->parent->path]. *)
Definition parent_path (file : ptr) (s : watcher) : option string :=
  match files s !! file with
  | None => None
  | Some f =>
      match f_parent f with
      | None => None
      | Some parent =>
          match dirs s !! parent with
          | None => None
          | Some pd =>
              match d_topdir pd with
              | None => None
              | Some _ => Some (d_path pd)
              end
          end
      end
  end.

(** [file->parent->topdir] and [file->path]. *)
Definition own_path (file : ptr) (s : watcher) : option string :=
  match files s !! file with
  | None => None
  | Some f =>
      match parent_path file s with
      | None => None
      | Some _ => Some (f_path f)
      end
  end.

(** [file->parent], followed: [None] when the file is freed, when the
    pointer is NULL and when the directory it points to is freed. *)
Definition parent_of (file : ptr) (s : watcher) : option ds_dir_s :=
  match files s !! file with
  | None => None
  | Some f =>
      match f_parent f with
      | None => None
      | Some parent => dirs s !! parent
      end
  end.

(** What [ds_change_queue_process] does with a file entry that is due.
    The pointer of the entry is followed without a check, and so is
    [file->parent] when the file has changed or is gone: [None] is a read
    through a pointer to a freed structure or through NULL. *)
Definition process_file_entry (file : ptr) (s : watcher) : option watcher :=
  match files s !! file with
  | None => None
  | Some _ =>
      let '(changed, s1) := ds_file_checkchanged file s in
      if changed <? 0 then
        match parent_of file s1 with
        | None => None
        | Some _ =>
            Some (ds_file_remove file
                    (match parent_path file s1 with
                     | Some path => mark_path_changed path true s1
                     | None => s1
                     end))
        end
      else if 0 <? changed then
        match parent_of file s1 with
        | None => None
        | Some _ =>
            Some (match own_path file s1 with
                  | Some path => mark_path_changed path false s1
                  | None => s1
                  end)
        end
      else Some s1
  end.

(** The top level directory of [d] is freed in [s]. *)
Definition topdir_freed (d : ds_dir_s) (s : watcher) : bool :=
  match d_topdir d with
  | Some top => bool_decide (dirs s !! top = None)
  | None => false
  end.

(** The [for] loop of [ds_change_queue_process], with its read and write
    indices.  A kept entry is copied down and the write index incremented
    inside the [if (readidx != writeidx)] block, and the write index is
    incremented again after the block.  [n] bounds the number of
    iterations; [fuel] is handed to [ds_dir_scan].

    The queue is the one of the top level directory, and
    [_ds_change_queue_add] puts a directory into the queue of its own
    [topdir] only, so the [topdir] the loop reads its queue from is the
    one of the directory it scans.  When the scan has freed that top
    level directory the loop goes on reading [change_queue_length] and
    the queue from the freed structure: that is [None], as is a read
    through an entry that points to a freed directory or file. *)
Fixpoint process_loop (fuel n : nat) (work_until : Z) (readidx writeidx : nat)
    (s : watcher) : option (nat * watcher) :=
  match n with
  | O => Some (writeidx, s)
  | S n' =>
      match change_queue s !! readidx with
      | None => Some (writeidx, s)
      | Some entry =>
          match cq_file entry, cq_dir entry with
          | None, None =>
              process_loop fuel n' work_until (S readidx) writeidx s
          | _, _ =>
              let now := sys_time os (syscalls s) in
              let s0 := tick s in
              if (when entry >? now) || (now >=? work_until) then
                if bool_decide (readidx ≠ writeidx) then
                  process_loop fuel n' work_until (S readidx) (S (S writeidx))
                    (set_change_queue (<[writeidx := entry]> (change_queue s0)) s0)
                else
                  process_loop fuel n' work_until (S readidx) (S writeidx) s0
              else
                match cq_file entry with
                | Some file =>
                    match process_file_entry file
                            (set_change_queue
                               (<[readidx := mk_change (when entry) None (cq_dir entry)]>
                                  (change_queue s0)) s0) with
                    | None => None
                    | Some s1 =>
                        process_loop fuel n' work_until (S readidx) writeidx s1
                    end
                | None =>
                    match cq_dir entry with
                    | Some dir =>
                        let s1 :=
                          set_change_queue
                            (<[readidx := mk_change (when entry) None None]>
                               (change_queue s0)) s0 in
                        match dirs s1 !! dir with
                        | None => None
                        | Some d =>
                            let s2 := snd (ds_dir_scan fuel dir false s1) in
                            if topdir_freed d s2 then None
                            else
                              process_loop fuel n' work_until (S readidx)
                                writeidx s2
                        end
                    | None =>
                        process_loop fuel n' work_until (S readidx) writeidx s0
                    end
                end
          end
      end
  end.

(** [ds_change_queue_process]: after the loop the queue length is the write
    index.  [None] when the loop reads freed memory. *)
Definition ds_change_queue_process (fuel : nat) (work_until : Z) (s : watcher)
    : option watcher :=
  match change_queue s with
  | [] => Some s
  | _ =>
      match process_loop fuel (length (change_queue s)) work_until O O s with
      | None => None
      | Some (writeidx, s') =>
          Some (set_change_queue (take writeidx (change_queue s')) s')
      end
  end.

(** [struct inotify_event], and the event bits of <sys/inotify.h>. *)
Record inotify_event := mk_event {
  ev_wd : Z;
  ev_mask : Z;
  ev_name : string
}.

Definition IN_MODIFY : Z := 0x2.
Definition IN_ATTRIB : Z := 0x4.
Definition IN_MOVED_FROM : Z := 0x40.
Definition IN_MOVED_TO : Z := 0x80.
Definition IN_CREATE : Z := 0x100.
Definition IN_DELETE : Z := 0x200.
Definition IN_DELETE_SELF : Z := 0x400.
Definition IN_ISDIR : Z := 0x40000000.

Inductive inotify_action_t :=
  | IN_ACTION_CREATE
  | IN_ACTION_UPDATE
  | IN_ACTION_DELETE
  | IN_ACTION_NONE.

(** The action [process_file_change] and [process_dir_change] choose from
    the event mask and from whether the named item is known. *)
Definition choose_action (mask : Z) (known : bool) : inotify_action_t :=
  if negb (Z.land mask
             (Z.lor IN_ATTRIB (Z.lor IN_CREATE (Z.lor IN_MODIFY IN_MOVED_TO)))
           =? 0)
  then if known then IN_ACTION_UPDATE else IN_ACTION_CREATE
  else if negb (Z.land mask (Z.lor IN_DELETE IN_MOVED_FROM) =? 0) && known
  then IN_ACTION_DELETE
  else IN_ACTION_NONE.

(** [process_file_change]. *)
Definition process_file_change (event : inotify_event) (dir : ptr) (s : watcher) : watcher :=
  match dirs s !! dir with
  | None => s
  | Some d =>
      let file := List.find (file_leaf_is s (ev_name event)) (d_files d) in
      match choose_action (ev_mask event) (bool_decide (is_Some file)) with
      | IN_ACTION_NONE => s
      | IN_ACTION_CREATE =>
          if negb (ds_filename_valid (ev_name event)) then s
          else
            let fullpath := d_absolute_path d +:+ "/" +:+ ev_name event in
            match sys_lstat os (syscalls s) fullpath with
            | None => tick s
            | Some sb =>
                if negb (S_ISREG (st_mode sb)) then tick s
                else
                  match ds_file_add dir (ev_name event) (tick s) with
                  | (Some newfile, s') => ds_change_queue_file_add newfile 0 s'
                  | (None, s') => s'
                  end
            end
      | IN_ACTION_UPDATE =>
          match file with
          | Some f => ds_change_queue_file_add f 0 s
          | None => s
          end
      | IN_ACTION_DELETE =>
          match file with
          | Some f =>
              ds_file_remove f
                (match parent_path f s with
                 | Some path => mark_path_changed path true s
                 | None => s
                 end)
          | None => s
          end
      end
  end.

(** [printf]'s [%0Nd]. *)
Definition pad0 (width : nat) (z : Z) : string :=
  let digits := pretty (Z.abs z) in
  let sign := if z <? 0 then "-" else "" in
  let fill := (width - String.length sign - String.length digits)%nat in
  sign +:+ String.concat "" (replicate fill "0") +:+ digits.

(** The name [ds_tmpfile] of common.c hands to [mkstemp]: a hidden file
    beside [pathname].  A negative precision in [%.*s] prints the whole
    string. *)
Definition tmpfile_template (pathname : string) : string :=
  let leafpos := ds_leafname_pos pathname in
  (match leafpos with
   | O => pathname
   | S n => str_take n pathname
   end) +:+ "/." +:+ str_from leafpos pathname +:+ "XXXXXX".

(** [ds_tmpfile]: the name of the temporary file [mkstemp] created.  When
    [mkstemp] fails the process dies. *)
Definition ds_tmpfile (pathname : string) (s : watcher) : option string * watcher :=
  match sys_mkstemp os (syscalls s) (tmpfile_template pathname) with
  | None => (None, die (tick s))
  | Some temporary_name =>
      (Some temporary_name,
       set_disk (<[temporary_name := []]> (disk s)) (tick s))
  end.

(** The name of a batch file: [YYYYMMDD-HHMMSS.pid] inside [savedir]. *)
Definition batch_name (savedir : string) (t : tm) : string :=
  savedir +:+ "/" +:+ pad0 4 (tm_year t + 1900) +:+ pad0 2 (tm_mon t + 1)
  +:+ pad0 2 (tm_mday t) +:+ "-" +:+ pad0 2 (tm_hour t) +:+ pad0 2 (tm_min t)
  +:+ pad0 2 (tm_sec t) +:+ "." +:+ pretty (sys_getpid os).

(** [dump_changed_paths]: write the list to a temporary file, rename it to
    the batch name, and only then clear the list. *)
Definition dump_changed_paths (savedir : string) (s : watcher) : watcher :=
  match changed_paths s with
  | [] => s
  | _ =>
      let t := sys_time os (syscalls s) in
      let savefile := batch_name savedir (sys_localtime os t) in
      match ds_tmpfile savefile (tick s) with
      | (None, s1) => s1
      | (Some tmpfile, s1) =>
          if negb (sys_fdopen os (syscalls s1))
          then set_disk (delete tmpfile (disk s1)) (tick s1)
          else
            let s2 := set_disk (<[tmpfile := changed_paths s1]> (disk s1)) (tick s1) in
            if negb (sys_rename os (syscalls s2))
            then set_disk (delete tmpfile (disk s2)) (tick s2)
            else
              set_changed_paths []
                (set_disk (<[savefile := changed_paths s2]> (delete tmpfile (disk s2)))
                   (tick s2))
      end
  end.

End Functions.

(** *** Predicates on watcher states *)

(** A tombstone: both pointers cleared. *)
Definition tombstone (e : ds_change_queue_s) : bool :=
  match cq_file e, cq_dir e with
  | None, None => true
  | _, _ => false
  end.

(** The entry's scheduled time has not yet arrived at [now]. *)
Definition not_yet_due (now : Z) (e : ds_change_queue_s) : bool :=
  negb (tombstone e) && (when e >? now).



(** Two entries target the same file node or the same directory node. *)
Definition same_target (e1 e2 : ds_change_queue_s) : Prop :=
  (exists file, cq_file e1 = Some file /\ cq_file e2 = Some file) \/
  (exists dir, cq_dir e1 = Some dir /\ cq_dir e2 = Some dir).

(** No two slots of the queue target the same node. *)
Definition at_most_one_entry (queue : list ds_change_queue_s) : Prop :=
  forall i j e1 e2,
    queue !! i = Some e1 -> queue !! j = Some e2 -> same_target e1 e2 -> i = j.

(** The files listed in a directory are allocated, point back to the
    directory, and have distinct leafnames. *)
Definition files_of (s : watcher) (dir : ptr) (l : list ptr) : Prop :=
  NoDup l /\
  (forall file, file ∈ l ->
     exists f, files s !! file = Some f /\ f_parent f = Some dir) /\
  (forall file1 file2 f1 f2,
     file1 ∈ l -> file2 ∈ l ->
     files s !! file1 = Some f1 -> files s !! file2 = Some f2 ->
     f_leaf f1 = f_leaf f2 -> file1 = file2).

(** The files a directory lists in a state. *)
Definition listed (s : watcher) (dir : ptr) (file : ptr) : Prop :=
  exists d, dirs s !! dir = Some d /\ file ∈ d_files d.

(** The changed paths of [s'] are those of [s], or the list was freed. *)
Definition paths_kept (s s' : watcher) : Prop :=
  changed_paths s' = changed_paths s \/ changed_paths s' = [].















End Watch.

(** ** watchdir.c *)

Module Watchdir.

Definition MAX_EXCLUDES : Z := 1000.

(** The variables of watchdir.c that the command line can change.
    [exclude_count] is the length of [excludes]; [parameters] is [None]
    after [free(parameters); parameters = NULL]. *)
Record options := mk_options {
  full_scan_interval : Z;
  queue_run_interval : Z;
  queue_run_max_seconds : Z;
  changedpath_dump_interval : Z;
  max_dir_depth : Z;
  excludes : list string;
  debugging_enabled : bool;
  parameters : option (list string)
}.

Definition exclude_count (o : options) : Z := Z.of_nat (length (excludes o)).

(** The initial values of the file-scope variables. *)
Definition initial_options : options :=
  mk_options 7200 2 5 30 20 [] false None.

(** The command line as [getopt_long] reads it: the option characters it
    returns in turn, each with its [optarg], and the arguments left from
    [optind] on.  An option it does not know is returned as ['?']. *)
Record command_line := mk_command_line {
  cl_options : list (ascii * string);
  cl_rest : list string
}.

Definition free_parameters (o : options) : options :=
  mk_options (full_scan_interval o) (queue_run_interval o)
    (queue_run_max_seconds o) (changedpath_dump_interval o) (max_dir_depth o)
    (excludes o) (debugging_enabled o) None.

Definition set_parameters (l : list string) (o : options) : options :=
  mk_options (full_scan_interval o) (queue_run_interval o)
    (queue_run_max_seconds o) (changedpath_dump_interval o) (max_dir_depth o)
    (excludes o) (debugging_enabled o) (Some l).

Definition add_exclude (optarg : string) (o : options) : options :=
  mk_options (full_scan_interval o) (queue_run_interval o)
    (queue_run_max_seconds o) (changedpath_dump_interval o) (max_dir_depth o)
    (excludes o ++ [optarg]) (debugging_enabled o) (parameters o).

Definition set_debugging (o : options) : options :=
  mk_options (full_scan_interval o) (queue_run_interval o)
    (queue_run_max_seconds o) (changedpath_dump_interval o) (max_dir_depth o)
    (excludes o) true (parameters o).

(** The inner [switch] on a numeric option; [max_dir_depth] is an
    [unsigned int], so the [unsigned long] value is reduced modulo 2^32. *)
Definition set_numeric (c : ascii) (param : Z) (o : options) : options :=
  if Ascii.eqb c "f" then
    mk_options param (queue_run_interval o) (queue_run_max_seconds o)
      (changedpath_dump_interval o) (max_dir_depth o) (excludes o)
      (debugging_enabled o) (parameters o)
  else if Ascii.eqb c "r" then
    mk_options (full_scan_interval o) (queue_run_interval o)
      (queue_run_max_seconds o) (changedpath_dump_interval o)
      (param mod 2 ^ 32) (excludes o) (debugging_enabled o) (parameters o)
  else if Ascii.eqb c "q" then
    mk_options (full_scan_interval o) param (queue_run_max_seconds o)
      (changedpath_dump_interval o) (max_dir_depth o) (excludes o)
      (debugging_enabled o) (parameters o)
  else if Ascii.eqb c "m" then
    mk_options (full_scan_interval o) (queue_run_interval o) param
      (changedpath_dump_interval o) (max_dir_depth o) (excludes o)
      (debugging_enabled o) (parameters o)
  else
    mk_options (full_scan_interval o) (queue_run_interval o)
      (queue_run_max_seconds o) param (max_dir_depth o) (excludes o)
      (debugging_enabled o) (parameters o).

Definition is_numeric_option (c : ascii) : bool :=
  Ascii.eqb c "f" || Ascii.eqb c "r" || Ascii.eqb c "q" || Ascii.eqb c "m"
  || Ascii.eqb c "i".

Section Parse.

(** [strtoul(optarg, NULL, 10)]: the value, and whether [errno] was set. *)
Variable strtoul : string -> Z * bool.

(** The [do ... while] loop of [parse_options] over the options:
    [Some rc] when an option makes the function return, [None] when
    [getopt_long] has run out of options. *)
Fixpoint option_loop (opts : list (ascii * string)) (o : options) : option Z * options :=
  match opts with
  | [] => (None, o)
  | (c, optarg) :: rest =>
      if Ascii.eqb c "h" then (Some (-1), free_parameters o)
      else if Ascii.eqb c "V" then (Some (-1), free_parameters o)
      else if Ascii.eqb c "d" then option_loop rest (set_debugging o)
      else if Ascii.eqb c "e" then
        if exclude_count o >=? MAX_EXCLUDES - 1
        then (Some 1, free_parameters o)
        else option_loop rest (add_exclude optarg o)
      else if is_numeric_option c then
        let '(param, failed) := strtoul optarg in
        if failed then (Some 1, free_parameters o)
        else option_loop rest (set_numeric c param o)
      else (Some 1, free_parameters o)
  end.

(** [parse_options]: 0 on success, -1 to exit at once without an error, 1
    to exit with an error. *)
Definition parse_options (cl : command_line) (o : options) : Z * options :=
  match option_loop (cl_options cl) (set_parameters [] o) with
  | (Some rc, o') => (rc, o')
  | (None, o') =>
      if bool_decide (length (cl_rest cl) ≠ 2%nat)
      then (1, free_parameters o')
      else (0, set_parameters (cl_rest cl) o')
  end.

(** An option that cannot by itself end [parse_options]: debug, exclude, or
    a numeric option whose argument [strtoul] accepts. *)
Definition harmless (opt : ascii * string) : Prop :=
  fst opt = "d"%char \/ fst opt = "e"%char \/
  (is_numeric_option (fst opt) = true /\ snd (strtoul (snd opt)) = false).

End Parse.

(** How many times the command line gives the exclude option. *)
Definition exclude_options (opts : list (ascii * string)) : nat :=
  length (List.filter (fun opt => Ascii.eqb (fst opt) "e") opts).

End Watchdir.

(** ** sync.c: the validation helper *)

Module Sync.

(** The wait status macros of <sys/wait.h>, on the [int] that [system]
    returns. *)
Definition WTERMSIG (status : Z) : Z := Z.land status 0x7f.

Definition WEXITSTATUS (status : Z) : Z := Z.shiftr (Z.land status 0xff00) 8.

Definition WIFEXITED (status : Z) : bool := WTERMSIG status =? 0.

(** A [signed char] from the low eight bits. *)
Definition signed_char (z : Z) : Z :=
  let b := z mod 256 in if b <? 128 then b else b - 256.

Definition WIFSIGNALED (status : Z) : bool :=
  Z.shiftr (signed_char (Z.land status 0x7f + 1)) 1 >? 0.

(** One line of the log file: the validation's name, the message and the
    number printed after it. *)
Record log_line := mk_log_line {
  ll_name : string;
  ll_message : string;
  ll_value : Z
}.

(** The worker's state that [run_validation] touches: the exit flag, the
    action of the status structure, the number of status file rewrites and
    the log. *)
Record worker := mk_worker {
  sync_exit_now : bool;
  action : string;
  status_file_updates : nat;
  log : list log_line
}.

Section Validation.

(** [system(command)]: the wait status of the shell. *)
Variable system : string -> Z.

Definition run_validation (command : option string) (name action' : string)
    (w : worker) : Z * worker :=
  match command with
  | None => (0, w)
  | Some cmd =>
      let w1 := mk_worker (sync_exit_now w) action'
                  (S (status_file_updates w)) (log w) in
      let ret := system cmd in
      if WIFSIGNALED ret then
        (1, mk_worker true (action w1) (status_file_updates w1)
              (log w1 ++ [mk_log_line name
                            "validation command received a signal"
                            (WTERMSIG ret)]))
      else
        let exit_status := WEXITSTATUS ret in
        if exit_status =? 0 then (0, w1)
        else
          (1, mk_worker (sync_exit_now w1) (action w1) (status_file_updates w1)
                (log w1 ++ [mk_log_line name
                              "validation command gave non-zero exit status"
                              exit_status]))
  end.

End Validation.

End Sync.

(** ** continual-sync.c: configuration sections and their validation *)

Module Config.
Import Common.

Definition DEFAULTS_SECTION : string := "defaults".
Definition MAX_EXCLUDES : Z := 1000.

(** The [set] member of [struct sync_set_s]: which numeric parameters the
    section wrote itself. *)
Record set_flags := mk_set {
  set_full_interval : bool;
  set_full_retry : bool;
  set_partial_interval : bool;
  set_partial_retry : bool;
  set_recursion_depth : bool
}.

(** [struct sync_set_s], without [selected] and [pid], which the parser and
    the validation do not touch.  [None] is the NULL pointer. *)
Record sync_set_s := mk_sync_set {
  name : string;
  source : option string;
  destination : option string;
  excludes : list string;
  source_validation : option string;
  destination_validation : option string;
  full_interval : Z;
  full_retry : Z;
  partial_interval : Z;
  partial_retry : Z;
  recursion_depth : Z;
  full_marker : option string;
  partial_marker : option string;
  change_queue : option string;
  transfer_list : option string;
  tempdir : option string;
  sync_lock : option string;
  full_rsync_opts : option string;
  partial_rsync_opts : option string;
  log_file : option string;
  status_file : option string;
  set : set_flags
}.

(** A new section, as [parse_config] starts one: zeroed, then the name and
    the built-in numeric values. *)
Definition new_section (param_str : string) : sync_set_s :=
  mk_sync_set param_str None None [] None None 86400 3600 30 300 20
    None None None None None None None None None None
    (mk_set false false false false false).

(** The numeric parameters. *)
Inductive ulong_key :=
  | K_full_interval
  | K_full_retry
  | K_partial_interval
  | K_partial_retry
  | K_recursion_depth.

Global Instance ulong_key_eq_dec : EqDecision ulong_key.
Proof. solve_decision. Defined.

Definition ulong_value (k : ulong_key) (c : sync_set_s) : Z :=
  match k with
  | K_full_interval => full_interval c
  | K_full_retry => full_retry c
  | K_partial_interval => partial_interval c
  | K_partial_retry => partial_retry c
  | K_recursion_depth => recursion_depth c
  end.

Definition ulong_set (k : ulong_key) (c : sync_set_s) : bool :=
  match k with
  | K_full_interval => set_full_interval (set c)
  | K_full_retry => set_full_retry (set c)
  | K_partial_interval => set_partial_interval (set c)
  | K_partial_retry => set_partial_retry (set c)
  | K_recursion_depth => set_recursion_depth (set c)
  end.

(** The macro [cf_ulong] of [parse_config] on a matching line: store the
    value and set the flag of the parameter. *)
Definition cf_ulong (k : ulong_key) (param_ulong : Z) (c : sync_set_s) : sync_set_s :=
  let v k' old := if bool_decide (k = k') then param_ulong else old in
  let f k' old := if bool_decide (k = k') then true else old in
  mk_sync_set (name c) (source c) (destination c) (excludes c)
    (source_validation c) (destination_validation c)
    (v K_full_interval (full_interval c)) (v K_full_retry (full_retry c))
    (v K_partial_interval (partial_interval c))
    (v K_partial_retry (partial_retry c))
    (v K_recursion_depth (recursion_depth c))
    (full_marker c) (partial_marker c) (change_queue c) (transfer_list c)
    (tempdir c) (sync_lock c) (full_rsync_opts c) (partial_rsync_opts c)
    (log_file c) (status_file c)
    (mk_set (f K_full_interval (set_full_interval (set c)))
       (f K_full_retry (set_full_retry (set c)))
       (f K_partial_interval (set_partial_interval (set c)))
       (f K_partial_retry (set_partial_retry (set c)))
       (f K_recursion_depth (set_recursion_depth (set c)))).

(** The macro [cf_string] for the two keys the validation tests. *)
Definition cf_source (param_str : string) (c : sync_set_s) : sync_set_s :=
  mk_sync_set (name c) (Some param_str) (destination c) (excludes c)
    (source_validation c) (destination_validation c)
    (full_interval c) (full_retry c) (partial_interval c) (partial_retry c)
    (recursion_depth c)
    (full_marker c) (partial_marker c) (change_queue c) (transfer_list c)
    (tempdir c) (sync_lock c) (full_rsync_opts c) (partial_rsync_opts c)
    (log_file c) (status_file c) (set c).

Definition cf_destination (param_str : string) (c : sync_set_s) : sync_set_s :=
  mk_sync_set (name c) (source c) (Some param_str) (excludes c)
    (source_validation c) (destination_validation c)
    (full_interval c) (full_retry c) (partial_interval c) (partial_retry c)
    (recursion_depth c)
    (full_marker c) (partial_marker c) (change_queue c) (transfer_list c)
    (tempdir c) (sync_lock c) (full_rsync_opts c) (partial_rsync_opts c)
    (log_file c) (status_file c) (set c).

(** The position of the first [ch] in [str]: [strcspn]. *)
Fixpoint strcspn (str : string) (ch : ascii) : nat :=
  match str with
  | EmptyString => O
  | String c rest => if Ascii.eqb c ch then O else S (strcspn rest ch)
  end.

(** What follows the last [ch] of [str], if there is one: [strrchr] and
    the increment after it. *)
Fixpoint after_last (str : string) (ch : ascii) : option string :=
  match str with
  | EmptyString => None
  | String c rest =>
      match after_last rest ch with
      | Some tail => Some tail
      | None => if Ascii.eqb c ch then Some rest else None
      end
  end.

(** The text one [%x] sequence stands for, or [None] for an invalid
    sequence.  The code passes [cf->source] and [cf->destination] to
    [strlen], [strrchr] and [strcspn] without a check, so [%s], [%d] and
    [%h] in a section that lacks one of them read through a NULL pointer;
    the missing string is read as empty here, and what is proved of an
    expansion is proved of sections that have both (a section that passed
    validation has both). *)
Definition expansion (cf : sync_set_s) (c : ascii) : option string :=
  if Ascii.eqb c "%" then Some "%"
  else if Ascii.eqb c "n" then Some (name cf)
  else if Ascii.eqb c "s" then Some (default "" (source cf))
  else if Ascii.eqb c "d" then
    let dst := default "" (destination cf) in
    Some (default dst (after_last dst ":"))
  else if Ascii.eqb c "h" then
    let dst := default "" (destination cf) in
    let len := strcspn dst ":" in
    Some (if bool_decide (len = String.length dst) then "localhost"
          else str_take len dst)
  else None.

(** [newstr] after appending [piece]: nothing is allocated for an empty
    piece, so [newstr] stays NULL until something non-empty arrives. *)
Definition append_piece (newstr : option string) (piece : string) : option string :=
  match piece with
  | EmptyString => newstr
  | _ => Some (default "" newstr +:+ piece)
  end.

(** The [while] loop of [expand_config_sequences]: [None] on an invalid
    sequence, otherwise the final [newstr]. *)
Fixpoint expand_loop (cf : sync_set_s) (fuel : nat) (rest : string)
    (newstr : option string) : option (option string) :=
  match fuel with
  | O => Some newstr
  | S fuel' =>
      let section_length := strcspn rest "%" in
      let newstr1 := append_piece newstr (str_take section_length rest) in
      match str_from section_length rest with
      | EmptyString => Some newstr1
      | String _ after =>
          match expansion cf (char_at after 0) with
          | None => None
          | Some to_append =>
              expand_loop cf fuel' (str_from 1 after)
                (append_piece newstr1 to_append)
          end
      end
  end.

(** [expand_config_sequences]: nonzero on error, and the string that
    [*strptr] holds afterwards. *)
Definition expand_config_sequences (cf : sync_set_s) (str : option string)
    : Z * option string :=
  match str with
  | None => (0, None)
  | Some origstr =>
      match expand_loop cf (S (String.length origstr)) origstr None with
      | None => (1, Some origstr)
      | Some None => (0, Some origstr)
      | Some (Some newstr) => (0, Some newstr)
      end
  end.

(** The macro [dup_default_string]. *)
Definition dup_default_string (mine dflt : option string) : option string :=
  match mine, dflt with
  | None, Some d => Some d
  | _, _ => mine
  end.

(** The macro [copy_default_ulong]: the defaults' value is copied when the
    section did not set the parameter and the defaults section did. *)
Definition copy_default_ulong (k : ulong_key) (c dflt : sync_set_s) : Z :=
  if negb (ulong_set k c) && ulong_set k dflt then ulong_value k dflt
  else ulong_value k c.

(** The block of [validate_config_section] that fills in the defaults. *)
Definition fill_defaults (c dflt : sync_set_s) : sync_set_s :=
  mk_sync_set (name c) (source c) (destination c)
    (match excludes c, excludes dflt with
     | [], _ :: _ => excludes dflt
     | _, _ => excludes c
     end)
    (dup_default_string (source_validation c) (source_validation dflt))
    (dup_default_string (destination_validation c) (destination_validation dflt))
    (copy_default_ulong K_full_interval c dflt)
    (copy_default_ulong K_full_retry c dflt)
    (copy_default_ulong K_partial_interval c dflt)
    (copy_default_ulong K_partial_retry c dflt)
    (copy_default_ulong K_recursion_depth c dflt)
    (dup_default_string (full_marker c) (full_marker dflt))
    (dup_default_string (partial_marker c) (partial_marker dflt))
    (dup_default_string (change_queue c) (change_queue dflt))
    (dup_default_string (transfer_list c) (transfer_list dflt))
    (dup_default_string (tempdir c) (tempdir dflt))
    (dup_default_string (sync_lock c) (sync_lock dflt))
    (dup_default_string (full_rsync_opts c) (full_rsync_opts dflt))
    (dup_default_string (partial_rsync_opts c) (partial_rsync_opts dflt))
    (dup_default_string (log_file c) (log_file dflt))
    (dup_default_string (status_file c) (status_file dflt))
    (set c).

(** The macro [blank_if_none]. *)
Definition blank_if_none (str : option string) : option string :=
  match str with
  | Some v => if streq v "none" then None else Some v
  | None => None
  end.

Section Validate.

(** [lstat] on a configured path: [None] when it fails, otherwise whether
    the path is a directory. *)
Variable lstat_isdir : string -> option bool.

(** The test of a configured directory ([change_queue], [tempdir]). *)
Definition directory_error (path : option string) : bool :=
  match path with
  | None => false
  | Some p =>
      match lstat_isdir p with
      | None => true
      | Some isdir => negb isdir
      end
  end.

(** [validate_config_section] on the section itself; [dflt] is the
    defaults section when [defaults_idx] is not negative. *)
Definition validate_section (c : sync_set_s) (dflt : option sync_set_s) : Z * sync_set_s :=
  if streq (name c) DEFAULTS_SECTION then
    (match source c, destination c with
     | Some _, _ => 1
     | None, Some _ => 1
     | None, None => 0
     end, c)
  else
    let rc0 : Z :=
      match source c, destination c with
      | None, _ => 1
      | Some _, None => 1
      | Some _, Some _ => 0
      end in
    let c1 := match dflt with Some d => fill_defaults c d | None => c end in
    let ex f := expand_config_sequences c1 (f c1) in
    let c2 :=
      mk_sync_set (name c1) (source c1) (destination c1) (excludes c1)
        (snd (ex source_validation)) (snd (ex destination_validation))
        (full_interval c1) (full_retry c1) (partial_interval c1)
        (partial_retry c1) (recursion_depth c1)
        (snd (ex full_marker)) (snd (ex partial_marker))
        (snd (ex change_queue)) (snd (ex transfer_list)) (snd (ex tempdir))
        (snd (ex sync_lock)) (snd (ex full_rsync_opts))
        (snd (ex partial_rsync_opts)) (snd (ex log_file))
        (snd (ex status_file)) (set c1) in
    let expand_failed :=
      existsb (fun f => negb (fst (ex f) =? 0))
        [source_validation; destination_validation; full_marker;
         partial_marker; change_queue; transfer_list; tempdir; sync_lock;
         full_rsync_opts; partial_rsync_opts; log_file; status_file] in
    let rc : Z :=
      if negb (rc0 =? 0) || expand_failed
         || directory_error (change_queue c2) || directory_error (tempdir c2)
         || ((full_interval c2 =? 0) && (partial_interval c2 =? 0))
      then 1 else 0 in
    (rc,
     mk_sync_set (name c2) (source c2) (destination c2) (excludes c2)
       (blank_if_none (source_validation c2))
       (blank_if_none (destination_validation c2))
       (full_interval c2) (full_retry c2) (partial_interval c2)
       (partial_retry c2) (recursion_depth c2)
       (blank_if_none (full_marker c2)) (blank_if_none (partial_marker c2))
       (blank_if_none (change_queue c2)) (blank_if_none (transfer_list c2))
       (blank_if_none (tempdir c2)) (blank_if_none (sync_lock c2))
       (full_rsync_opts c2) (partial_rsync_opts c2)
       (blank_if_none (log_file c2)) (blank_if_none (status_file c2))
       (set c2)).

(** [validate_config_section(idx, defaults_idx)] on the array
    [config_sections]: the return value and the array afterwards. *)
Definition validate_config_section (idx : nat) (defaults_idx : Z)
    (config_sections : list sync_set_s) : Z * list sync_set_s :=
  match config_sections !! idx with
  | None => (1, config_sections)
  | Some c =>
      let dflt :=
        if defaults_idx <? 0 then None
        else config_sections !! Z.to_nat defaults_idx in
      let '(rc, c') := validate_section c dflt in
      (rc, <[idx := c']> config_sections)
  end.

End Validate.

(** The string parameters [validate_config_section] applies
    [blank_if_none] to: all but the two lists of rsync options. *)
Definition blanked_parameters : list (sync_set_s -> option string) :=
  [source_validation; destination_validation; full_marker; partial_marker;
   change_queue; transfer_list; tempdir; sync_lock; log_file; status_file].

End Config.

(** ** continual-sync.c: the sections [main] selects *)

Module ConfigMain.
Import Common Config.

(** [find_config_section], from index [idx] on: the index of the first
    section of that name, or -1. *)
Fixpoint find_from (idx : nat) (wanted : string) (l : list sync_set_s) : Z :=
  match l with
  | [] => -1
  | c :: l' =>
      if streq (name c) wanted then Z.of_nat idx
      else find_from (S idx) wanted l'
  end.

Definition find_config_section (wanted : string)
    (config_sections : list sync_set_s) : Z :=
  find_from 0 wanted config_sections.

(** The part of [main] that looks at the sections: the array
    [config_sections], the [selected] flag of each section, and
    [any_sections_chosen]. *)
Record selection := mk_selection {
  config_sections : list sync_set_s;
  selected : list bool;
  any_sections_chosen : bool
}.

(** What makes a section usable by the sync process. *)
Definition usable (c : sync_set_s) : Prop :=
  name c <> DEFAULTS_SECTION /\
  is_Some (source c) /\ is_Some (destination c) /\
  (full_interval c <> 0 \/ partial_interval c <> 0).

(** The flags are one per section, the selected sections are usable, and
    [any_sections_chosen] is set only when a section is selected. *)
Definition selection_ok (sel : selection) : Prop :=
  length (selected sel) = length (config_sections sel) /\
  (forall i c, selected sel !! i = Some true ->
               config_sections sel !! i = Some c -> usable c) /\
  (any_sections_chosen sel = true ->
   exists i, selected sel !! i = Some true).

Section Main.

Variable lstat_isdir : string -> option bool.

(** The loop of [main] over the sections named on the command line:
    [None] where [main] returns [EXIT_FAILURE]. *)
Fixpoint select_named (names : list string) (defaults_idx : Z)
    (sel : selection) : option selection :=
  match names with
  | [] => Some sel
  | wanted :: rest =>
      let cf_idx := find_config_section wanted (config_sections sel) in
      if cf_idx <? 0 then None
      else
        match config_sections sel !! Z.to_nat cf_idx with
        | None => None
        | Some c =>
            if streq (name c) DEFAULTS_SECTION then None
            else
              let '(rc, sections') :=
                validate_config_section lstat_isdir (Z.to_nat cf_idx)
                  defaults_idx (config_sections sel) in
              if negb (rc =? 0) then None
              else
                select_named rest defaults_idx
                  (mk_selection sections'
                     (<[Z.to_nat cf_idx := true]> (selected sel)) true)
        end
  end.

(** The loop of [main] over all sections, taken when none is named: [n]
    sections are left, from index [cf_idx] on. *)
Fixpoint select_all (n cf_idx : nat) (defaults_idx : Z) (sel : selection)
    : option selection :=
  match n with
  | O => Some sel
  | S n' =>
      match config_sections sel !! cf_idx with
      | None => Some sel
      | Some c =>
          if streq (name c) DEFAULTS_SECTION
          then select_all n' (S cf_idx) defaults_idx sel
          else
            let '(rc, sections') :=
              validate_config_section lstat_isdir cf_idx defaults_idx
                (config_sections sel) in
            if negb (rc =? 0) then None
            else
              select_all n' (S cf_idx) defaults_idx
                (mk_selection sections' (<[cf_idx := true]> (selected sel))
                   true)
      end
  end.

(** [main], from the test for an empty configuration to the test of
    [any_sections_chosen]: the sections as validated and their [selected]
    flags, or [None] where [main] exits with [EXIT_FAILURE]. *)
Definition choose_sections (names : list string)
    (sections : list sync_set_s) : option selection :=
  match sections with
  | [] => None
  | _ =>
      let defaults_idx := find_config_section DEFAULTS_SECTION sections in
      let checked :=
        if 0 <=? defaults_idx then
          let '(rc, sections') :=
            validate_config_section lstat_isdir (Z.to_nat defaults_idx) (-1)
              sections in
          if negb (rc =? 0) then None else Some sections'
        else Some sections in
      match checked with
      | None => None
      | Some sections1 =>
          match select_named names defaults_idx
                  (mk_selection sections1
                     (replicate (length sections1) false) false) with
          | None => None
          | Some sel1 =>
              let chosen :=
                match names with
                | [] => select_all (length (config_sections sel1)) 0
                          defaults_idx sel1
                | _ => Some sel1
                end in
              match chosen with
              | None => None
              | Some sel2 =>
                  if any_sections_chosen sel2 then Some sel2 else None
              end
          end
      end
  end.

End Main.

End ConfigMain.

(** ** watch.c: the watch index lookup, directory events and the event loop *)

Module WatchEvents.
Import Common Watch.

(** [ds_watch_index_compare]. *)
Definition ds_watch_index_compare (a b : ds_watch_index_s) : Z :=
  if wi_wd a <? wi_wd b then -1
  else if wi_wd a >? wi_wd b then 1
  else 0.

(** The watch index after [qsort]: [watch_index_unsorted] is cleared. *)
Definition set_sorted_index (v : list ds_watch_index_s) (s : watcher) : watcher :=
  mk_watcher (files s) (dirs s) (next_ptr s) (syscalls s) (fd_inotify s)
    v false (change_queue s) (changed_paths s) (disk s) (died s).

Definition set_fd_inotify (v : Z) (s : watcher) : watcher :=
  mk_watcher (files s) (dirs s) (next_ptr s) (syscalls s) v
    (watch_index s) (watch_index_unsorted s) (change_queue s)
    (changed_paths s) (disk s) (died s).

(** The array is in ascending order of watch descriptor. *)
Definition index_sorted (l : list ds_watch_index_s) : Prop :=
  forall i j a b, (i <= j)%nat -> l !! i = Some a -> l !! j = Some b ->
                  wi_wd a <= wi_wd b.

(** What the C library promises of [qsort] and [bsearch] when they are
    given [ds_watch_index_compare]: [qsort] permutes the array into
    ascending order; on an array in ascending order [bsearch] returns a
    member that compares equal to the key, or NULL when there is none.
    Which of several equal members is returned, and where [qsort] leaves
    them, is unspecified. *)
Record libc_sorting
    (qsort : (ds_watch_index_s -> ds_watch_index_s -> Z) ->
             list ds_watch_index_s -> list ds_watch_index_s)
    (bsearch : (ds_watch_index_s -> ds_watch_index_s -> Z) ->
               ds_watch_index_s -> list ds_watch_index_s ->
               option ds_watch_index_s) : Prop := {
  qsort_permutation : forall l, qsort ds_watch_index_compare l ≡ₚ l;
  qsort_sorted : forall l, index_sorted (qsort ds_watch_index_compare l);
  bsearch_found : forall key l e,
    index_sorted l -> bsearch ds_watch_index_compare key l = Some e ->
    e ∈ l /\ wi_wd e = wi_wd key;
  bsearch_missing : forall key l e,
    index_sorted l -> bsearch ds_watch_index_compare key l = None ->
    e ∈ l -> wi_wd e <> wi_wd key
}.

(** The subdirectories a directory lists in a state. *)
Definition listed_subdir (s : watcher) (dir : ptr) (subdir : ptr) : Prop :=
  exists d, dirs s !! dir = Some d /\ subdir ∈ d_subdirs d.

(** The flag [watch_index_unsorted] is clear only when the array is in
    order. *)
Definition index_flag_ok (s : watcher) : Prop :=
  watch_index_unsorted s = false -> index_sorted (watch_index s).

(** Every directory is within the depth limit and one level below its
    parent. *)
Definition depth_ok (max_directory_depth : Z) (s : watcher) : Prop :=
  forall dir d,
    dirs s !! dir = Some d ->
    d_depth d <= max_directory_depth /\
    forall parent,
      d_parent d = Some parent ->
      exists pd, dirs s !! parent = Some pd /\ d_depth d = d_depth pd + 1.

(** [s'] holds no file and no watch that [s] does not hold; its queue has
    the file pointers of the queue of [s] slot by slot, unless the queue was
    freed; and a directory it holds was held by [s], with the same top
    level directory and the same path. *)
Definition after_removal (s s' : watcher) : Prop :=
  (forall p, files s !! p = None -> files s' !! p = None) /\
  (forall e, e ∈ watch_index s' -> e ∈ watch_index s) /\
  (change_queue s' = [] \/
   cq_file <$> change_queue s' = cq_file <$> change_queue s) /\
  (forall p d', dirs s' !! p = Some d' ->
     exists d, dirs s !! p = Some d /\
               d_topdir d' = d_topdir d /\ d_path d' = d_path d).

(** The queue of [s'] has the file pointers of the queue of [s] slot by
    slot, or [s'] has lost a top level directory of [s] (a directory that
    is its own [topdir]) and its queue with it. *)
Definition file_pointers_kept (s s' : watcher) : Prop :=
  cq_file <$> change_queue s' = cq_file <$> change_queue s \/
  exists top td,
    dirs s !! top = Some td /\ d_topdir td = Some top /\
    dirs s' !! top = None /\ change_queue s' = [].

Section Functions.

Variable os : system.
Variable max_directory_depth : Z.
Variable excludes : list (option string).

(** [qsort] and [bsearch] of the C library. *)
Variable qsort : (ds_watch_index_s -> ds_watch_index_s -> Z) ->
                 list ds_watch_index_s -> list ds_watch_index_s.
Variable bsearch : (ds_watch_index_s -> ds_watch_index_s -> Z) ->
                   ds_watch_index_s -> list ds_watch_index_s ->
                   option ds_watch_index_s.

(** [realpath(top_path, NULL)], and the events one [read] of the inotify
    descriptor returns ([None] when [read] returns 0 or less); the first
    argument is the number of system calls made before. *)
Variable sys_realpath : nat -> string -> option string.
Variable sys_read : nat -> option (list inotify_event).

(** [ds_watch_index_lookup].  The key handed to [bsearch] has only its
    [wd] set. *)
Definition ds_watch_index_lookup (wd : Z) (s : watcher) : option ptr * watcher :=
  match watch_index s with
  | [] => (None, s)
  | _ =>
      let s1 :=
        if watch_index_unsorted s
        then set_sorted_index (qsort ds_watch_index_compare (watch_index s)) s
        else s in
      (wi_dir <$> bsearch ds_watch_index_compare (mk_watch wd 0%nat)
                    (watch_index s1), s1)
  end.

(** [ds_dir_toplevel]: a zeroed structure for the top of a new tree.  Its
    path and leaf are the empty string at the end of the absolute path. *)
Definition ds_dir_toplevel (fd : Z) (top_path : string) (s : watcher)
    : option ptr * watcher :=
  match sys_realpath (syscalls s) top_path with
  | None => (None, die (tick s))
  | Some absolute_path =>
      let dir := next_ptr s in
      (Some dir,
       mk_watcher (files s)
         (<[dir := mk_dir absolute_path "" "" (-1) 0 [] [] None (Some dir)
                     false false false]> (dirs s))
         (S dir) (S (syscalls s)) fd [] false [] [] (disk s) (died s))
  end.

(** [process_dir_change].  [None] is returned where the function reads
    [newdir->path] although [ds_dir_add] returned NULL.  [fuel] is handed
    to [ds_dir_remove]. *)
Definition process_dir_change (fuel : nat) (event : inotify_event) (dir : ptr)
    (s : watcher) : option watcher :=
  match dirs s !! dir with
  | None => Some s
  | Some d =>
      let subdir := List.find (dir_leaf_is s (ev_name event)) (d_subdirs d) in
      match choose_action (ev_mask event) (bool_decide (is_Some subdir)) with
      | IN_ACTION_NONE => Some s
      | IN_ACTION_CREATE =>
          if negb (ds_filename_valid os excludes (ev_name event)) then Some s
          else
            let fullpath := d_absolute_path d +:+ "/" +:+ ev_name event in
            match sys_lstat os (syscalls s) fullpath with
            | None => Some (tick s)
            | Some sb =>
                if negb (S_ISDIR (st_mode sb)) then Some (tick s)
                else
                  match ds_dir_add max_directory_depth dir (ev_name event)
                          (tick s) with
                  | (None, _) => None
                  | (Some newdir, s1) =>
                      let s2 := ds_change_queue_dir_add os newdir 0 s1 in
                      match dirs s2 !! newdir, d_topdir d with
                      | Some nd, Some _ =>
                          Some (mark_path_changed (d_path nd) true s2)
                      | _, _ => Some s2
                      end
                  end
            end
      | IN_ACTION_UPDATE =>
          match subdir with
          | Some sub => Some (ds_change_queue_dir_add os sub 0 s)
          | None => Some s
          end
      | IN_ACTION_DELETE =>
          match subdir with
          | Some sub =>
              let s1 := ds_dir_remove fuel sub s in
              match dirs s1 !! dir with
              | Some d1 =>
                  match d_topdir d1 with
                  | Some _ => Some (mark_path_changed (d_path d1) true s1)
                  | None => Some s1
                  end
              | None => Some s1
              end
          | None => Some s
          end
      end
  end.

(** The body of the loop of [process_inotify_events] for one event. *)
Definition process_event (fuel : nat) (event : inotify_event) (s : watcher)
    : option watcher :=
  let '(found, s1) := ds_watch_index_lookup (ev_wd event) s in
  match found with
  | None => Some s1
  | Some dir =>
      if negb (Z.land (ev_mask event) IN_DELETE_SELF =? 0)
      then Some (ds_dir_remove fuel dir s1)
      else if Ascii.eqb (char_at (ev_name event) 0) Ascii.zero then Some s1
      else if negb (Z.land (ev_mask event) IN_ISDIR =? 0)
      then process_dir_change fuel event dir s1
      else Some (process_file_change os excludes event dir s1)
  end.

(** [process_inotify_events]: when [read] fails the descriptor is closed
    and forgotten. *)
Definition process_inotify_events (fuel : nat) (s : watcher) : option watcher :=
  if fd_inotify s <? 0 then Some s
  else
    match sys_read (syscalls s) with
    | None => Some (set_fd_inotify (-1) (tick s))
    | Some events =>
        foldl (fun acc event => acc ≫= process_event fuel event)
          (Some (tick s)) events
    end.

End Functions.

(** A sort and a search that run: insertion sort, and the first member
    that compares equal. *)
Fixpoint insert_sorted {A} (cmp : A -> A -> Z) (x : A) (l : list A) : list A :=
  match l with
  | [] => [x]
  | y :: l' => if cmp x y <=? 0 then x :: l else y :: insert_sorted cmp x l'
  end.

Definition insertion_sort {A} (cmp : A -> A -> Z) (l : list A) : list A :=
  foldr (insert_sorted cmp) [] l.

Definition first_equal {A} (cmp : A -> A -> Z) (key : A) (l : list A) : option A :=
  List.find (fun e => cmp key e =? 0) l.

End WatchEvents.

(** ** sync.c: rsync runs, the transfer list and the sync loop *)

Module SyncRun.
Import Common Sync Config.

Definition ACTION_WAITING : string := "-".
Definition ACTION_VALIDATION_SRC : string := "VALIDATE-SOURCE".
Definition ACTION_VALIDATION_DST : string := "VALIDATE-DESTINATION".
Definition ACTION_SYNC_FULL_WAIT : string := "SYNC-FULL-AWAITING-LOCK".
Definition ACTION_SYNC_FULL : string := "SYNC-FULL".
Definition ACTION_SYNC_PARTIAL_WAIT : string := "SYNC-PARTIAL-AWAITING-LOCK".
Definition ACTION_SYNC_PARTIAL : string := "SYNC-PARTIAL".

(** [struct sync_status_s], without [action], which is in the [worker],
    and without [pid] and [workdir], which never change. *)
Record sync_status_s := mk_status {
  watcher : Z;
  next_full_sync : Z;
  next_partial_sync : Z;
  last_full_sync : Z;
  last_partial_sync : Z;
  last_failed_full_sync : Z;
  last_failed_partial_sync : Z;
  last_full_sync_status : string;
  last_partial_sync_status : string;
  full_sync_failures : Z;
  partial_sync_failures : Z;
  excludes_file : option string;
  rsync_error_file : string
}.

(** What the sync process does to the world besides writing the files
    below: a line in the log file (the words after the section name), the
    sync lock taken and released, rsync started with an argument vector,
    rsync sent [SIGTERM], and a marker file touched. *)
Inductive effect :=
  | Log (words : list string)
  | Lock
  | Unlock
  | Exec (argv : list string)
  | Kill
  | Touch (file : string).

(** What one [waitpid] in [run_rsync] returns: a wait status, [EINTR]
    (with whether the signal was one that sets [sync_exit_now]), or another
    error. *)
Inductive wait_result :=
  | Waited (wait_status : Z)
  | Interrupted (exit_signal : bool)
  | Wait_failed.

(** The operating system, as the sync process sees it.  A call that may
    give another answer each time takes the number of calls made before.
    [sys_wordexp] gives the words of an option string, or fails;
    [sys_rsync_stderr] is what rsync writes to its standard error;
    [sys_open] and [sys_fopen] are the opening of the sync lock and of a
    file for appending; [sys_readable] is whether a file that exists can
    be opened for reading; [sys_exists] is [lstat] on a path under the
    source. *)
Record system := mk_system {
  sys_wordexp : string -> option (list string);
  sys_fork : nat -> bool;
  sys_waitpid : nat -> wait_result;
  sys_rsync_stderr : nat -> list string;
  sys_open : nat -> bool;
  sys_fopen : nat -> bool;
  sys_utime : nat -> bool;
  sys_time : nat -> Z;
  sys_system : nat -> string -> Z;
  sys_scandir : string -> option (list string);
  sys_readable : string -> bool;
  sys_exists : string -> bool
}.

(** The sync process: the worker state of [run_validation], the rest of
    the status structure, the regular files it reads and writes, each as
    its lines, the number of system calls made, and its other effects in
    order. *)
Record process := mk_process {
  w : worker;
  st : sync_status_s;
  fs : gmap string (list string);
  calls : nat;
  trace : list effect
}.

Definition set_w (v : worker) (p : process) : process :=
  mk_process v (st p) (fs p) (calls p) (trace p).

Definition set_st (v : sync_status_s) (p : process) : process :=
  mk_process (w p) v (fs p) (calls p) (trace p).

Definition set_fs (v : gmap string (list string)) (p : process) : process :=
  mk_process (w p) (st p) v (calls p) (trace p).

Definition tick (p : process) : process :=
  mk_process (w p) (st p) (fs p) (S (calls p)) (trace p).

Definition add_effect (e : effect) (p : process) : process :=
  mk_process (w p) (st p) (fs p) (calls p) (trace p ++ [e]).

(** [st->action = action; update_status_file(cf, st)]. *)
Definition status_update (action' : string) (p : process) : process :=
  set_w (mk_worker (sync_exit_now (w p)) action'
           (S (status_file_updates (w p))) (log (w p))) p.

(** A signal handler sets [sync_exit_now]. *)
Definition signal_exit (exit_signal : bool) (p : process) : process :=
  set_w (mk_worker (sync_exit_now (w p) || exit_signal) (action (w p))
           (status_file_updates (w p)) (log (w p))) p.

(** The strings [fgets] returns for one line of a file when it may read
    [n] characters at a time, each with its newline removed: a line of [n]
    characters or more comes in pieces. *)
Fixpoint fgets_pieces (fuel n : nat) (line : string) : list string :=
  match fuel with
  | O => [line]
  | S fuel' =>
      if (String.length line <? n)%nat then [line]
      else str_take n line :: fgets_pieces fuel' n (str_from n line)
  end.

(** All the strings a loop of [fgets] over a file returns. *)
Definition fgets_all (n : nat) (lines : list string) : list string :=
  concat ((fun line => fgets_pieces (String.length line) n line) <$> lines).

(** The argument count [run_rsync] allocates for, and the argument vector
    it fills in. *)
Definition rsync_argc (words : list string)
    (excludes_file transfer_list : option string) : Z :=
  1 + Z.of_nat (length words)
  + (match transfer_list with Some _ => 2 | None => 0 end)
  + (match excludes_file with Some _ => 2 | None => 0 end)
  + 2.

Definition rsync_argv (words : list string) (source destination : string)
    (excludes_file transfer_list : option string) : list string :=
  ["rsync"] ++ words
  ++ match transfer_list with
     | Some list => ["--files-from"; list]
     | None => []
     end
  ++ match excludes_file with
     | Some file => ["--exclude-from"; file]
     | None => []
     end
  ++ [source; destination].

(** The path [collate_transfer_list] builds for a name in the change
    queue, in a buffer of 4096 bytes. *)
Definition batch_path (change_queue d_name : string) : string :=
  str_take 4094 (change_queue +:+ "/" +:+ d_name).

Section Functions.

Variable os : system.

(** The loop of [run_rsync] around [waitpid]: the value of [rc], whether
    rsync is still there when the loop ends, and the state.  [n] bounds the
    number of interrupted waits. *)
Fixpoint wait_loop (n : nat) (p : process) : Z * bool * process :=
  match n with
  | O => (-1, true, p)
  | S n' =>
      if sync_exit_now (w p) then (-1, true, p)
      else
        match sys_waitpid os (calls p) with
        | Interrupted exit_signal =>
            wait_loop n' (signal_exit exit_signal (tick p))
        | Wait_failed =>
            (-1, true,
             add_effect (Log ["failed to wait for rsync"; "waitpid"]) (tick p))
        | Waited wait_status => (WEXITSTATUS wait_status, false, tick p)
        end
  end.

(** [run_rsync]: the exit status, or -1. *)
Definition run_rsync (fuel : nat) (source destination : string)
    (excludes_file : option string) (options : string)
    (transfer_list : option string) (rsync_error_file : string)
    (p : process) : Z * process :=
  match sys_wordexp os options with
  | None => (-1, p)
  | Some words =>
      let argv :=
        rsync_argv words source destination excludes_file transfer_list in
      let p1 := set_fs (delete rsync_error_file (fs p)) p in
      let '(rc, p2) :=
        if sys_fork os (calls p1) then
          let p1' :=
            add_effect (Exec argv)
              (set_fs (<[rsync_error_file := sys_rsync_stderr os (calls p1)]>
                         (fs p1)) (tick p1)) in
          let '(rc, running, p2) := wait_loop fuel p1' in
          (rc, if running then add_effect Kill p2 else p2)
        else (-1, tick p1) in
      match fs p2 !! rsync_error_file with
      | Some (line :: lines) =>
          if negb (sys_readable os rsync_error_file) then (rc, p2)
          else
            (rc,
             add_effect (Log ["rsync failed with exit status"; pretty rc])
               (foldl (fun acc piece => add_effect (Log ["rsync"; piece]) acc)
                  p2 (fgets_all 1022 (line :: lines))))
      | _ => (rc, p2)
      end
  end.

(** [update_timestamp_file]. *)
Definition update_timestamp_file (file : option string) (p : process) : process :=
  match file with
  | None => p
  | Some f =>
      let p1 :=
        if sys_fopen os (calls p) then tick p
        else add_effect (Log [f; "fopen"]) (tick p) in
      if sys_utime os (calls p1) then add_effect (Touch f) (tick p1)
      else add_effect (Log [f; "utime"]) (tick p1)
  end.

(** The start of [sync_full] and of [sync_partial]: wait for the sync
    lock, if there is one.  The flag is [0 <= lockfd]. *)
Definition acquire_lock (cf : sync_set_s) (wait_action phase : string)
    (p : process) : bool * process :=
  match sync_lock cf with
  | None => (false, p)
  | Some _ =>
      let p1 := status_update wait_action p in
      if sys_open os (calls p1) then
        (true,
         add_effect (Log [phase; "sync lock acquired"])
           (add_effect Lock
              (add_effect (Log [phase; "acquiring sync lock"]) (tick p1))))
      else (false, tick p1)
  end.

(** [sync_full].  A validated section has a source and a destination. *)
Definition sync_full (fuel : nat) (cf : sync_set_s) (p : process) : Z * process :=
  let '(locked, p1) := acquire_lock cf ACTION_SYNC_FULL_WAIT "full sync" p in
  let p2 :=
    add_effect (Log ["full sync"; "sync starting"])
      (status_update ACTION_SYNC_FULL p1) in
  let '(rc, p3) :=
    run_rsync fuel (default "" (source cf)) (default "" (destination cf))
      (excludes_file (st p2)) (default "--delete -axH" (full_rsync_opts cf))
      None (rsync_error_file (st p2)) p2 in
  let p4 :=
    add_effect
      (Log ["full sync"; "sync ended"; if rc =? 0 then "OK" else "FAILED"])
      p3 in
  let p5 := if locked : bool then add_effect Unlock p4 else p4 in
  if rc =? 0 then
    let p6 := update_timestamp_file (full_marker cf) p5 in
    let s := st p6 in
    (rc,
     set_st (mk_status (watcher s) (next_full_sync s) (next_partial_sync s)
               (sys_time os (calls p6)) (last_partial_sync s)
               (last_failed_full_sync s) (last_failed_partial_sync s)
               "OK" (last_partial_sync_status s)
               0 (partial_sync_failures s)
               (excludes_file s) (rsync_error_file s))
       (tick p6))
  else (rc, p5).

(** The body of the inner loop of [collate_transfer_list] for one string
    read from a change file: [seen] is the tree of the lines seen so far,
    [out] the lines appended to the transfer list. *)
Definition collate_line (source : string) (acc : list string * list string)
    (line : string) : list string * list string :=
  let '(seen, out) := acc in
  if bool_decide (line ∈ seen) then (seen, out)
  else (line :: seen,
        if sys_exists os (source +:+ "/" +:+ line) then out ++ [line] else out).

(** The body of the outer loop, for one name that [scandir] returned. *)
Definition collate_file (source change_queue : string)
    (acc : gmap string (list string) * (list string * list string))
    (d_name : string) : gmap string (list string) * (list string * list string) :=
  let '(files, lines) := acc in
  if Ascii.eqb (char_at d_name 0) "."%char then acc
  else
    let path := batch_path change_queue d_name in
    match files !! path with
    | None => acc
    | Some content =>
        if negb (sys_readable os path) then (delete path files, lines)
        else
          (delete path files,
           foldl (collate_line source) lines (fgets_all 4094 content))
    end.

(** [collate_transfer_list].  The transfer list and the change queue are
    set by the time the sync loop runs.  Opening the transfer list for
    appending creates it; the lines are appended when it is closed, unless
    the loop has removed the file meanwhile. *)
Definition collate_transfer_list (cf : sync_set_s) (p : process) : process :=
  let transfer_list := default "" (Config.transfer_list cf) in
  let change_queue := default "" (Config.change_queue cf) in
  if negb (sys_fopen os (calls p)) then tick p
  else
    let opened :=
      <[transfer_list := default [] (fs p !! transfer_list)]> (fs p) in
    match sys_scandir os change_queue with
    | None => set_fs opened (tick p)
    | Some namelist =>
        let '(files, (_, out)) :=
          foldl (collate_file (default "" (source cf)) change_queue)
            (opened, ([], [])) namelist in
        match files !! transfer_list with
        | Some content =>
            set_fs (<[transfer_list := content ++ out]> files) (tick p)
        | None => set_fs files (tick p)
        end
    end.

(** The copy of the transfer list [sync_partial] writes to the log: the
    first hundred strings, then three dots. *)
Definition log_transfer_list (content : list string) (p : process) : process :=
  let pieces := fgets_all 4094 content in
  let p1 :=
    foldl (fun acc piece => add_effect (Log [piece]) acc) p (take 100 pieces) in
  if (100 <? length pieces)%nat then add_effect (Log ["..."]) p1 else p1.

(** [sync_partial]. *)
Definition sync_partial (fuel : nat) (cf : sync_set_s) (p : process) : Z * process :=
  let transfer_list := default "" (Config.transfer_list cf) in
  let p0 := collate_transfer_list cf p in
  match fs p0 !! transfer_list with
  | None | Some [] => (0, p0)
  | Some content =>
      let '(locked, p1) :=
        acquire_lock cf ACTION_SYNC_PARTIAL_WAIT "partial sync" p0 in
      let p1' :=
        add_effect (Log ["partial sync"; "sync starting"])
          (status_update ACTION_SYNC_PARTIAL p1) in
      let p2 :=
        if sys_readable os transfer_list then log_transfer_list content p1'
        else p1' in
      let '(rc, p3) :=
        run_rsync fuel (default "" (source cf)) (default "" (destination cf))
          (excludes_file (st p2))
          (default "--delete -dlptgoDH" (partial_rsync_opts cf))
          (Some transfer_list) (rsync_error_file (st p2)) p2 in
      let p4 :=
        add_effect
          (Log ["partial sync"; "sync ended";
                if rc =? 0 then "OK" else "FAILED"]) p3 in
      let p5 := if locked : bool then add_effect Unlock p4 else p4 in
      let p6 := set_fs (delete transfer_list (fs p5)) p5 in
      if rc =? 0 then
        let p7 := update_timestamp_file (partial_marker cf) p6 in
        let s := st p7 in
        (rc,
         set_st (mk_status (watcher s) (next_full_sync s) (next_partial_sync s)
                   (last_full_sync s) (sys_time os (calls p7))
                   (last_failed_full_sync s) (last_failed_partial_sync s)
                   (last_full_sync_status s) "OK"
                   (full_sync_failures s) 0
                   (excludes_file s) (rsync_error_file s))
           (tick p7))
      else (rc, p6)
  end.

(** [run_validation] inside the process: [system] is called only when
    there is a command. *)
Definition validate (command : option string) (name action' : string)
    (p : process) : Z * process :=
  let '(rc, w') :=
    run_validation (sys_system os (calls p)) command name action' (w p) in
  (rc, set_w w' match command with Some _ => tick p | None => p end).

(** The two validations before a sync: the destination is validated only
    when the source is valid. *)
Definition validate_both (cf : sync_set_s) (p : process) : bool * process :=
  let '(rc1, p1) :=
    validate (source_validation cf) "source" ACTION_VALIDATION_SRC p in
  if negb (rc1 =? 0) then (true, p1)
  else
    let '(rc2, p2) :=
      validate (destination_validation cf) "destination"
        ACTION_VALIDATION_DST p1 in
    (negb (rc2 =? 0), p2).

(** [time_t] is a signed and [unsigned long] an unsigned number of 64 bits
    (Linux on a 64-bit machine).  An [unsigned long] stored in a [time_t]
    is read back as a signed number. *)
Definition to_time_t (n : Z) : Z :=
  let u := n mod 2 ^ 64 in
  if u <? 2 ^ 63 then u else u - 2 ^ 64.

(** [time(NULL) + cf->x] for an [unsigned long] parameter [x], stored in a
    [time_t]: the time is converted to [unsigned long] and the sum is taken
    modulo 2^64. *)
Definition time_plus (now interval : Z) : Z := to_time_t (now + interval).


(** The part of the main loop that runs a partial sync when one is due
    and there is a watcher. *)
Definition partial_sync_when_due (fuel : nat) (cf : sync_set_s) (p : process)
    : process :=
  if watcher (st p) =? 0 then p
  else
    let now := sys_time os (calls p) in
    let p0 := tick p in
    if now >=? next_partial_sync (st p0) then
      let '(invalid, p1) := validate_both cf p0 in
      let p5 :=
        if invalid then
          let s := st p1 in
          set_st (mk_status (watcher s) (next_full_sync s)
                    (time_plus (sys_time os (calls p1)) (partial_retry cf))
                    (last_full_sync s) (last_partial_sync s)
                    (last_failed_full_sync s) (last_failed_partial_sync s)
                    (last_full_sync_status s) (last_partial_sync_status s)
                    (full_sync_failures s) (partial_sync_failures s)
                    (excludes_file s) (rsync_error_file s))
            (tick p1)
        else
          let '(sync_failed, p2) := sync_partial fuel cf p1 in
          let s := st p2 in
          if sync_failed =? 0 then
            set_st (mk_status (watcher s) (next_full_sync s)
                      (time_plus (sys_time os (calls p2)) (partial_interval cf))
                      (last_full_sync s) (last_partial_sync s)
                      (last_failed_full_sync s) (last_failed_partial_sync s)
                      (last_full_sync_status s) (last_partial_sync_status s)
                      (full_sync_failures s) (partial_sync_failures s)
                      (excludes_file s) (rsync_error_file s))
              (tick p2)
          else
            set_st (mk_status (watcher s) (next_full_sync s)
                      (time_plus (sys_time os (calls p2)) (partial_retry cf))
                      (last_full_sync s) (last_partial_sync s)
                      (last_failed_full_sync s) (sys_time os (S (calls p2)))
                      (last_full_sync_status s) "FAILED"
                      (full_sync_failures s) (partial_sync_failures s + 1)
                      (excludes_file s) (rsync_error_file s))
              (tick (tick p2)) in
      status_update ACTION_WAITING p5
    else p0.

End Functions.

(** [l] without the repetitions of a line that is already there. *)
Fixpoint first_occurrences (seen l : list string) : list string :=
  match l with
  | [] => []
  | x :: l' =>
      if bool_decide (x ∈ seen) then first_occurrences seen l'
      else x :: first_occurrences (x :: seen) l'
  end.

(** The strings [collate_transfer_list] reads from the change file of one
    name: none for a hidden name, for a name that is no regular file and
    for a file that cannot be opened. *)
Definition batch_lines (os : system) (files : gmap string (list string))
    (change_queue d_name : string) : list string :=
  if Ascii.eqb (char_at d_name 0) "."%char then []
  else
    match files !! batch_path change_queue d_name with
    | Some content =>
        if sys_readable os (batch_path change_queue d_name)
        then fgets_all 4094 content else []
    | None => []
    end.

End SyncRun.

(** ** Concrete states, for running the functions *)

Module Examples.
Import Common Watch.

(** A system whose tree holds [/top/a.txt] (8 bytes) and [/top/b.txt]
    (3 bytes) and no [/top/c.txt], and whose clock always reads 1000. *)
Definition os0 : system :=
  mk_system glob_match
    (fun _ path =>
       if String.eqb path "/top" then Some (mk_stat S_IFDIR 1 50 4096)
       else if String.eqb path "/top/a.txt" then Some (mk_stat S_IFREG 1 100 8)
       else if String.eqb path "/top/b.txt" then Some (mk_stat S_IFREG 1 100 3)
       else None)
    (fun _ path =>
       if String.eqb path "/top" then Some ["a.txt"; "b.txt"; "c.tmp"] else None)
    (fun _ => 1000)
    (fun t _ => Z.of_nat t)
    (fun _ => mk_tm 126 9 30 12 0 0)
    4242
    (fun _ template =>
       Some (str_take (String.length template - 6) template +:+ "abc123"))
    (fun _ => true)
    (fun _ => true).

Definition top : ptr := 1%nat.
Definition file_a : ptr := 2%nat.
Definition file_b : ptr := 3%nat.
Definition file_c : ptr := 4%nat.

Definition top_dir (l : list ptr) : ds_dir_s :=
  mk_dir "/top" "" "" 5 0 l [] None (Some top) false false false.

(** [a.txt] was 5 bytes when last seen; [b.txt] is as last seen; [c.txt]
    was there when last seen. *)
Definition a_txt : ds_file_s :=
  mk_file "/top/a.txt" "a.txt" "a.txt" 100 5 (Some top) false.

Definition b_txt : ds_file_s :=
  mk_file "/top/b.txt" "b.txt" "b.txt" 100 3 (Some top) false.

Definition c_txt : ds_file_s :=
  mk_file "/top/c.txt" "c.txt" "c.txt" 90 7 (Some top) false.

(** The watcher knows [a.txt] and [b.txt]. *)
Definition watching (queue : list ds_change_queue_s) (paths : list string) : watcher :=
  mk_watcher (<[file_a := a_txt]> (<[file_b := b_txt]> ∅))
    (<[top := top_dir [file_a; file_b]]> ∅)
    5%nat 0%nat 3 [mk_watch 5 top] false queue paths ∅ false.

(** The watcher knows [a.txt] only. *)
Definition watching_a : watcher :=
  mk_watcher (<[file_a := a_txt]> ∅) (<[top := top_dir [file_a]]> ∅)
    5%nat 0%nat 3 [mk_watch 5 top] false [] [] ∅ false.

(** The watcher knows all three files. *)
Definition watching_abc : watcher :=
  mk_watcher (<[file_a := a_txt]> (<[file_b := b_txt]> (<[file_c := c_txt]> ∅)))
    (<[top := top_dir [file_a; file_b; file_c]]> ∅)
    5%nat 0%nat 3 [mk_watch 5 top] false [] [] ∅ false.

(** A recheck of [a.txt] that is due at time 1000, one of [b.txt] that is
    not, and a rescan of the top directory that is due. *)
Definition due_a : ds_change_queue_s := mk_change 990 (Some file_a) None.
Definition later_b : ds_change_queue_s := mk_change 1002 (Some file_b) None.
Definition rescan_top : ds_change_queue_s := mk_change 1000 None (Some top).
Definition later_c : ds_change_queue_s := mk_change 1002 (Some file_c) None.

(** One queue run at time 1000 that may work until 1005, with the default
    depth limit and no exclude list. *)
Definition process (s : watcher) : option watcher :=
  ds_change_queue_process os0 20 [] 4 1005 s.

(** A create event for [b.txt] in the top directory. *)
Definition create_b : inotify_event := mk_event 5 IN_CREATE "b.txt".

(** A worker that is waiting. *)
Definition idle : Sync.worker := Sync.mk_worker false "waiting" 0 [].

(** A defaults section that writes [full sync interval = 100], and a section
    that writes [full sync interval = 0]. *)
Definition defaults_100 : Config.sync_set_s :=
  Config.cf_ulong Config.K_full_interval 100 (Config.new_section "defaults").

Definition backup_0 : Config.sync_set_s :=
  Config.cf_ulong Config.K_full_interval 0
    (Config.cf_destination "host:/backup"
       (Config.cf_source "/srv/data" (Config.new_section "backup"))).

(** The section [backup] with [change queue = none]. *)
Definition queue_none : Config.sync_set_s :=
  Config.mk_sync_set "backup" (Some "/srv/data") (Some "host:/backup") []
    None None 86400 3600 30 300 20 None None (Some "none") None None None
    None None None None (Config.mk_set false false false false false).

(** A sync process that is waiting, with no watcher and nothing in its
    files, and one with a watcher whose change queue holds two batch
    files. *)
Definition status0 : SyncRun.sync_status_s :=
  SyncRun.mk_status 0 0 0 0 0 0 0 "-" "-" 0 0 (Some "/tmp/sync1/excludes")
    "/tmp/sync1/rsync-stderr".

Definition process0 : SyncRun.process :=
  SyncRun.mk_process idle status0 ∅ 0%nat [].

Definition process1 : SyncRun.process :=
  SyncRun.mk_process idle status0
    (<["/tmp/sync1/changes/20261030-120000.4242" := ["a.txt"; "sub/"]]>
       (<["/tmp/sync1/changes/20261030-120030.4242" := ["sub/"; "gone.txt"]]> ∅))
    0%nat [].

(** The section [backup] as the sync loop has it, with its transfer list
    and its change queue under the working directory. *)
Definition backup_run : Config.sync_set_s :=
  Config.mk_sync_set "backup" (Some "/srv/data") (Some "host:/backup") []
    None None 86400 3600 30 300 20 None None (Some "/tmp/sync1/changes")
    (Some "/tmp/sync1/transfer") None None None None None None
    (Config.mk_set false false false false false).

(** A system in which [waitpid] gives [wait_status] for rsync (9 when
    signal 9 has ended it, 5888 when it has exited with status 23); the
    clock reads 5000; the source tree holds [a.txt] and [sub] but not
    [gone.txt]. *)
Definition sync_os (wait_status : Z) : SyncRun.system :=
  SyncRun.mk_system
    (fun options => Some (String.words options))
    (fun _ => true)
    (fun _ => SyncRun.Waited wait_status)
    (fun _ => [])
    (fun _ => true) (fun _ => true) (fun _ => true)
    (fun _ => 5000)
    (fun _ _ => 0)
    (fun path =>
       if String.eqb path "/tmp/sync1/changes"
       then Some ["."; ".."; "20261030-120000.4242"; "20261030-120030.4242"]
       else None)
    (fun _ => true)
    (fun path => negb (String.eqb path "/srv/data/gone.txt")).

(** A tree with a subdirectory [/top/sub] that holds [x.txt]. *)
Definition sub : ptr := 6%nat.
Definition file_x : ptr := 7%nat.

Definition sub_dir : ds_dir_s :=
  mk_dir "/top/sub" "sub" "sub" 6 1 [file_x] [] (Some top) (Some top)
    false false false.

Definition x_txt : ds_file_s :=
  mk_file "/top/sub/x.txt" "sub/x.txt" "x.txt" 100 1 (Some sub) false.

Definition watching_sub (queue : list ds_change_queue_s) : watcher :=
  mk_watcher (<[file_a := a_txt]> (<[file_x := x_txt]> ∅))
    (<[top := mk_dir "/top" "" "" 5 0 [file_a] [sub] None (Some top)
                false false false]>
       (<[sub := sub_dir]> ∅))
    8%nat 0%nat 3 [mk_watch 5 top; mk_watch 6 sub] false queue [] ∅ false.

(** The system [os0] with two directories more, [/top/sub] and [/top/new]. *)
Definition os1 : system :=
  mk_system glob_match
    (fun t path =>
       if String.eqb path "/top/sub" then Some (mk_stat S_IFDIR 1 60 4096)
       else if String.eqb path "/top/new" then Some (mk_stat S_IFDIR 1 70 4096)
       else if String.eqb path "/top/sub/x.txt" then Some (mk_stat S_IFREG 1 100 1)
       else sys_lstat os0 t path)
    (fun t path =>
       if String.eqb path "/top/sub" then Some ["x.txt"]
       else if String.eqb path "/top/new" then Some []
       else sys_scandir os0 t path)
    (sys_time os0) (sys_inotify_add_watch os0) (sys_localtime os0)
    (sys_getpid os0) (sys_mkstemp os0) (sys_fdopen os0) (sys_rename os0).

(** The system [os0] with an output directory in which [rename] fails. *)
Definition os_norename : system :=
  mk_system glob_match (sys_lstat os0) (sys_scandir os0) (sys_time os0)
    (sys_inotify_add_watch os0) (sys_localtime os0) (sys_getpid os0)
    (sys_mkstemp os0) (sys_fdopen os0) (fun _ => false).

(** Events in the top directory: [a.txt] deleted, the directory [new]
    created, the directory [sub] deleted. *)
Definition delete_a : inotify_event := mk_event 5 IN_DELETE "a.txt".
Definition create_new : inotify_event :=
  mk_event 5 (Z.lor IN_CREATE IN_ISDIR) "new".
Definition delete_sub : inotify_event :=
  mk_event 5 (Z.lor IN_DELETE IN_ISDIR) "sub".

(** A recheck of [x.txt] that is not yet due. *)
Definition later_x : ds_change_queue_s := mk_change 1002 (Some file_x) None.

End Examples.


(** * Properties *)

(** ** watch.c *)

Module WatchProps.
Import Common Watch Examples.

(** Unfold the field updates of the watcher state, and nothing else. *)
Ltac wsimpl :=
  cbn [files dirs next_ptr syscalls fd_inotify watch_index
       watch_index_unsorted change_queue changed_paths disk died
       set_files set_dirs set_next_ptr tick set_watch_index set_change_queue
       set_changed_paths set_disk die upd_file upd_dir fst snd] in *.

Lemma streq_true a b : streq a b = true <-> a = b.
Proof. apply String.eqb_eq. Qed.

Lemma str_from_length i s :
  String.length (str_from i s) = (String.length s - i)%nat.
Proof.
  revert s; induction i as [|i IH]; intros [|c s]; simpl; auto with lia.
Qed.

Example ds_leafname_nested : ds_leafname "/top/dir/foo.txt" = "foo.txt".
Proof. reflexivity. Qed.

Example ds_leafname_plain : ds_leafname "foo.txt" = "foo.txt".
Proof. reflexivity. Qed.

Example glob_match_tmp : glob_match "*.tmp" "b.tmp" = true.
Proof. reflexivity. Qed.

Example glob_match_log : glob_match "*.log" "b.tmp" = false.
Proof. reflexivity. Qed.


Section Props.

Variable os : system.
Variable max_directory_depth : Z.
Variable excludes : list (option string).

(** *** The change check *)

(** C10: a call of [ds_file_checkchanged] that returns 1 has stored the
    time and size it observed in the node, so the next call, if [lstat]
    reports the same again, returns 0: the change is reported once, to
    whichever caller made the first call. *)
Theorem ds_file_checkchanged_reports_once file s s' :
  ds_file_checkchanged os file s = (1, s') ->
  exists f sb,
    files s !! file = Some f /\
    sys_lstat os (syscalls s) (f_absolute_path f) = Some sb /\
    files s' !! file = Some (file_set_stat (st_mtime sb) (st_size sb) f) /\
    (sys_lstat os (syscalls s') (f_absolute_path f) = Some sb ->
     ds_file_checkchanged os file s' = (0, tick s')).
Proof.
  unfold ds_file_checkchanged. intros H.
  destruct (files s !! file) as [f|] eqn:Hf; [|discriminate].
  destruct (sys_lstat os (syscalls s) (f_absolute_path f)) as [sb|] eqn:Hsb;
    [|discriminate].
  destruct (S_ISREG (st_mode sb)) eqn:Hreg; simpl in H; [|discriminate].
  destruct ((st_mtime sb =? f_mtime f) && (st_size sb =? f_size f)) eqn:Hsame;
    [discriminate|].
  injection H as <-.
  exists f, sb. split; [reflexivity|]. split; [assumption|]. split.
  - wsimpl. rewrite lookup_alter_eq, Hf. reflexivity.
  - intros Hagain. wsimpl. rewrite lookup_alter_eq, Hf.
    cbn [fmap option_fmap option_map file_set_stat f_absolute_path f_mtime f_size].
    rewrite Hagain, Hreg. cbn [negb]. rewrite !Z.eqb_refl. reflexivity.
Qed.

(** *** The dump of the changed paths *)

Lemma dump_nothing_pending savedir s :
  changed_paths s = [] -> dump_changed_paths os savedir s = s.
Proof. unfold dump_changed_paths. intros ->. reflexivity. Qed.

(** C8: after a dump that succeeds (the temporary file is created and
    opened, and the rename works) the changed paths list is empty and the
    batch file holds the paths; a dump with no paths pending changes
    nothing, so a second dump right after the first writes no file. *)
Theorem dump_changed_paths_drains savedir s tmpfile :
  let savefile :=
    batch_name os savedir (sys_localtime os (sys_time os (syscalls s))) in
  changed_paths s <> [] ->
  sys_mkstemp os (S (syscalls s)) (tmpfile_template savefile) = Some tmpfile ->
  sys_fdopen os (S (S (syscalls s))) = true ->
  sys_rename os (S (S (S (syscalls s)))) = true ->
  let s' := dump_changed_paths os savedir s in
  changed_paths s' = [] /\
  disk s' = <[savefile := changed_paths s]> (delete tmpfile (disk s)) /\
  dump_changed_paths os savedir s' = s' /\
  (forall s0, changed_paths s0 = [] -> dump_changed_paths os savedir s0 = s0).
Proof.
  intros savefile Hpending Htmp Hopen Hrename s'.
  assert (changed_paths s' = [] /\
          disk s' = <[savefile := changed_paths s]> (delete tmpfile (disk s)))
    as [Hempty Hdisk].
  { subst s'. unfold dump_changed_paths, ds_tmpfile.
    destruct (changed_paths s) as [|p ps] eqn:Hp; [contradiction|].
    fold savefile. wsimpl. rewrite Htmp. wsimpl. rewrite Hopen. cbn [negb].
    wsimpl. rewrite Hrename. cbn [negb]. wsimpl.
    split; [reflexivity|].
    rewrite !delete_insert_eq, Hp. reflexivity. }
  split; [exact Hempty|]. split; [exact Hdisk|].
  split; [apply dump_nothing_pending; exact Hempty|].
  intros s0. apply dump_nothing_pending.
Qed.

(** *** The change queue: insertion *)

Lemma already_queued_same_target file dir e w :
  same_target e (mk_change w file dir) -> already_queued file dir e = true.
Proof.
  unfold same_target, already_queued. simpl.
  intros [(f & He & ->) | (d & He & ->)].
  - rewrite bool_decide_eq_true_2 by assumption. reflexivity.
  - rewrite (bool_decide_eq_true_2 (cq_dir e = Some d)) by assumption.
    apply orb_true_r.
Qed.

Lemma same_target_sym e1 e2 : same_target e1 e2 -> same_target e2 e1.
Proof. unfold same_target. intros [(f & ? & ?) | (d & ? & ?)]; eauto. Qed.

Lemma add_keeps_at_most_one w file dir s :
  at_most_one_entry (change_queue s) ->
  at_most_one_entry (change_queue (_ds_change_queue_add w file dir s)).
Proof.
  intros Hq. unfold _ds_change_queue_add.
  assert (at_most_one_entry
            (change_queue
               (if existsb (already_queued file dir) (change_queue s) then s
                else set_change_queue
                       (change_queue s ++ [mk_change w file dir]) s))) as Hmain.
  { destruct (existsb _ _) eqn:Hex; [exact Hq|]. wsimpl.
    assert (forall i e, change_queue s !! i = Some e ->
                        ~ same_target e (mk_change w file dir)) as Hfresh.
    { intros i e Hi Hsame. apply already_queued_same_target in Hsame.
      assert (existsb (already_queued file dir) (change_queue s) = true) as Ht.
      { apply existsb_exists. exists e. split; [|exact Hsame].
        apply list_elem_of_In. eapply list_elem_of_lookup_2; eassumption. }
      congruence. }
    intros i j e1 e2 Hi Hj Hsame.
    apply lookup_app_Some in Hi as [Hi | [Hil Hi]];
      apply lookup_app_Some in Hj as [Hj | [Hjl Hj]].
    - eapply Hq; eassumption.
    - apply list_lookup_singleton_Some in Hj as [_ <-].
      exfalso. eapply Hfresh; eassumption.
    - apply list_lookup_singleton_Some in Hi as [_ <-].
      exfalso. eapply Hfresh; [eassumption|]. apply same_target_sym. exact Hsame.
    - apply list_lookup_singleton_Some in Hi as [Hi _].
      apply list_lookup_singleton_Some in Hj as [Hj _]. lia. }
  destruct file, dir; try exact Hmain. exact Hq.
Qed.

Lemma file_add_keeps_at_most_one file w s :
  at_most_one_entry (change_queue s) ->
  at_most_one_entry (change_queue (ds_change_queue_file_add os file w s)).
Proof.
  intros Hq. unfold ds_change_queue_file_add.
  repeat match goal with
         | |- context [match ?x with _ => _ end] => destruct x; try exact Hq
         end; apply add_keeps_at_most_one; exact Hq.
Qed.

Lemma dir_add_keeps_at_most_one dir w s :
  at_most_one_entry (change_queue s) ->
  at_most_one_entry (change_queue (ds_change_queue_dir_add os dir w s)).
Proof.
  intros Hq. unfold ds_change_queue_dir_add.
  repeat match goal with
         | |- context [match ?x with _ => _ end] => destruct x; try exact Hq
         end; apply add_keeps_at_most_one; exact Hq.
Qed.

Lemma add_file_is_queued w file s :
  exists e, e ∈ change_queue (_ds_change_queue_add w (Some file) None s)
            /\ cq_file e = Some file.
Proof.
  unfold _ds_change_queue_add.
  destruct (existsb _ _) eqn:Hex.
  - apply existsb_exists in Hex as (e & Hin & Hq). exists e.
    split; [apply list_elem_of_In; exact Hin|].
    unfold already_queued in Hq. rewrite orb_false_r in Hq.
    apply bool_decide_eq_true in Hq. exact Hq.
  - wsimpl. exists (mk_change w (Some file) None).
    split; [|reflexivity]. apply elem_of_app. right. apply list_elem_of_singleton.
    reflexivity.
Qed.


Lemma add_frame w file dir s :
  files (_ds_change_queue_add w file dir s) = files s /\
  dirs (_ds_change_queue_add w file dir s) = dirs s /\
  changed_paths (_ds_change_queue_add w file dir s) = changed_paths s.
Proof.
  unfold _ds_change_queue_add.
  destruct file, dir; try destruct (existsb _ (change_queue s));
    repeat split; reflexivity.
Qed.

(** *** The dispatcher, for a create or modify event on a file *)

(** C4, as the code has it: on a create or modify event without the
    directory flag, for a name that passes the filter and that [lstat]
    reports as a regular file, the dispatcher adds a file node if the name
    is new, has a recheck of the node in the queue afterwards, and leaves
    the changed paths as they were. *)
Theorem process_file_change_queues_recheck event dir s d sb :
  dirs s !! dir = Some d ->
  is_Some (d_topdir d) ->
  (forall file f, file ∈ d_files d -> files s !! file = Some f ->
                  f_parent f = Some dir) ->
  Z.land (ev_mask event)
    (Z.lor IN_ATTRIB (Z.lor IN_CREATE (Z.lor IN_MODIFY IN_MOVED_TO))) <> 0 ->
  ds_filename_valid os excludes (ev_name event) = true ->
  sys_lstat os (syscalls s) (d_absolute_path d +:+ "/" +:+ ev_name event)
    = Some sb ->
  S_ISREG (st_mode sb) = true ->
  let s' := process_file_change os excludes event dir s in
  (exists file f,
     listed s' dir file /\
     files s' !! file = Some f /\
     f_parent f = Some dir /\
     (file ∈ d_files d /\ files s !! file = Some f /\ f_leaf f = ev_name event
      \/ file = next_ptr s /\
         f_absolute_path f = d_absolute_path d +:+ "/" +:+ ev_name event) /\
     exists e, e ∈ change_queue s' /\ cq_file e = Some file) /\
  changed_paths s' = changed_paths s.
Proof.
  intros Hd [topdir Htop] Hparent Hmask Hvalid Hstat Hreg s'. subst s'.
  unfold process_file_change. rewrite Hd.
  unfold choose_action.
  replace (negb (Z.land (ev_mask event)
             (Z.lor IN_ATTRIB (Z.lor IN_CREATE (Z.lor IN_MODIFY IN_MOVED_TO)))
           =? 0)) with true
    by (symmetry; apply negb_true_iff, Z.eqb_neq; exact Hmask).
  destruct (List.find (file_leaf_is s (ev_name event)) (d_files d))
    as [file|] eqn:Hfind.
  - (* the file is known: a recheck is queued for it *)
    rewrite bool_decide_eq_true_2 by eauto.
    apply List.find_some in Hfind as [Hin Hleaf].
    apply list_elem_of_In in Hin.
    unfold file_leaf_is in Hleaf.
    destruct (files s !! file) as [f|] eqn:Hf; [|discriminate].
    apply streq_true in Hleaf.
    pose proof (Hparent file f Hin Hf) as Hp.
    unfold ds_change_queue_file_add. rewrite Hf, Hp, Hd, Htop.
    cbn [Z.eqb].
    destruct (add_frame (sys_time os (syscalls s) + 2) (Some file) None (tick s))
      as (Hfiles & Hdirs & Hpaths).
    split; [|rewrite Hpaths; reflexivity].
    exists file, f. split; [|split; [|split; [|split]]].
    + exists d. rewrite Hdirs. split; assumption.
    + rewrite Hfiles. exact Hf.
    + exact Hp.
    + left. auto.
    + apply add_file_is_queued.
  - (* the file is new: it is added, then a recheck is queued *)
    rewrite bool_decide_eq_false_2 by (intros [? ?]; discriminate).
    rewrite Hvalid. cbn [negb]. rewrite Hstat, Hreg. cbn [negb].
    unfold ds_file_add. wsimpl. rewrite Hd.
    change (file_leaf_is (tick s)) with (file_leaf_is s). rewrite Hfind.
    set (absolute_path := d_absolute_path d +:+ "/" +:+ ev_name event).
    set (f := mk_file absolute_path _ _ 0 0 (Some dir) false).
    unfold ds_change_queue_file_add. wsimpl.
    rewrite lookup_insert_eq. cbn [f_parent f].
    rewrite lookup_alter_eq, Hd. cbn [fmap option_fmap option_map dir_set_files d_topdir].
    rewrite Htop. cbn [Z.eqb].
    match goal with
    | |- context [_ds_change_queue_add ?w ?fl ?dr ?st] =>
        destruct (add_frame w fl dr st) as (Hfiles & Hdirs & Hpaths);
        pose proof (add_file_is_queued w (next_ptr s) st) as Hqueued
    end.
    split; [|rewrite Hpaths; reflexivity].
    exists (next_ptr s), f. split; [|split; [|split; [|split]]].
    + eexists. rewrite Hdirs. wsimpl. rewrite lookup_alter_eq, Hd.
      split; [reflexivity|]. cbn [dir_set_files d_files].
      apply elem_of_app. right. apply list_elem_of_singleton. reflexivity.
    + rewrite Hfiles. wsimpl. apply lookup_insert_eq.
    + reflexivity.
    + right. split; reflexivity.
    + exact Hqueued.
Qed.

(** *** What a scan leaves of the changed paths and of the queue *)

(** The functions below [ds_dir_scan] change the changed paths and the
    queue in three ways only: not at all, by clearing the pointers to a
    removed node in the queue, and by freeing both with the top level
    directory.  A relation that is reflexive and transitive and holds for
    these three steps holds for a whole scan. *)
Section Skeleton.

Variable R : watcher -> watcher -> Prop.

Hypothesis R_refl : forall s, R s s.
Hypothesis R_trans : forall s1 s2 s3, R s1 s2 -> R s2 s3 -> R s1 s3.
Hypothesis R_same : forall s s',
  changed_paths s' = changed_paths s -> change_queue s' = change_queue s ->
  R s s'.
Hypothesis R_clear_file : forall file s,
  R s (set_change_queue (clear_file file <$> change_queue s) s).
Hypothesis R_clear_dir : forall dir s,
  R s (set_change_queue (clear_dir dir <$> change_queue s) s).
Hypothesis R_free : forall s,
  R s (set_changed_paths [] (set_change_queue [] (set_watch_index [] s))).

Lemma R_foldl {A} (step : watcher -> A -> watcher) l :
  (forall acc x, R acc (step acc x)) ->
  forall s, R s (foldl step s l).
Proof.
  intros Hstep. induction l as [|x l IH]; intros s; simpl.
  - apply R_refl.
  - eapply R_trans; [apply Hstep | apply IH].
Qed.

Lemma R_upd_dir s s' p g : R s s' -> R s (upd_dir p g s').
Proof.
  intros H. eapply R_trans; [exact H|]. apply R_same; reflexivity.
Qed.

Lemma R_upd_file s s' p g : R s s' -> R s (upd_file p g s').
Proof.
  intros H. eapply R_trans; [exact H|]. apply R_same; reflexivity.
Qed.

Lemma R_queue_file_remove file s : R s (ds_change_queue_file_remove file s).
Proof.
  unfold ds_change_queue_file_remove.
  repeat case_match; try apply R_refl. apply R_clear_file.
Qed.

Lemma R_queue_dir_remove dir s : R s (ds_change_queue_dir_remove dir s).
Proof.
  unfold ds_change_queue_dir_remove.
  repeat case_match; try apply R_refl. apply R_clear_dir.
Qed.

Lemma R_file_remove file s : R s (ds_file_remove file s).
Proof.
  unfold ds_file_remove.
  destruct (files s !! file) as [f|]; [|apply R_refl].
  match goal with
  | |- R s (set_files _ (ds_change_queue_file_remove file ?s1)) =>
      apply R_trans with (s2 := s1);
      [| eapply R_trans; [apply R_queue_file_remove | apply R_same; reflexivity]]
  end.
  repeat case_match; try apply R_refl; apply R_same; reflexivity.
Qed.

Lemma R_file_checkchanged file s : R s (snd (ds_file_checkchanged os file s)).
Proof.
  unfold ds_file_checkchanged.
  repeat case_match; try apply R_refl; apply R_same; reflexivity.
Qed.

Lemma R_file_add dir name s : R s (snd (ds_file_add dir name s)).
Proof.
  unfold ds_file_add.
  repeat case_match; try apply R_refl; apply R_same; reflexivity.
Qed.

Lemma R_dir_add dir name s :
  R s (snd (ds_dir_add max_directory_depth dir name s)).
Proof.
  unfold ds_dir_add.
  repeat case_match; try apply R_refl; apply R_same; reflexivity.
Qed.

Lemma R_watch_index_add dir wd s : R s (ds_watch_index_add dir wd s).
Proof.
  unfold ds_watch_index_add.
  repeat case_match; try apply R_refl; apply R_same; reflexivity.
Qed.

Lemma R_scan_item dir dirsb s d_name :
  R s (scan_item os max_directory_depth excludes dir dirsb s d_name).
Proof.
  unfold scan_item.
  repeat case_match; try apply R_refl; try (apply R_same; reflexivity);
    match goal with
    | E : ds_file_add ?a ?b ?c = _ |- _ =>
        pose proof (R_file_add a b c) as Hp; rewrite E in Hp
    | E : ds_dir_add _ ?a ?b ?c = _ |- _ =>
        pose proof (R_dir_add a b c) as Hp; rewrite E in Hp
    end;
    (eapply R_trans; [apply R_same with (s' := tick s); reflexivity|]);
    first [apply R_upd_file | apply R_upd_dir | idtac]; exact Hp.
Qed.

Lemma R_dir_remove fuel : forall dir s, R s (ds_dir_remove fuel dir s).
Proof.
  induction fuel as [|fuel IH]; intros dir s; simpl.
  - apply R_refl.
  - destruct (dirs s !! dir) as [d|]; [|apply R_refl].
    set (s1 := if (0 <=? d_wd d) && bool_decide (is_Some (d_topdir d))
                  && (0 <=? fd_inotify s)
               then _ else s).
    assert (R s s1) as H1.
    { subst s1. case_match; [apply R_same; reflexivity | apply R_refl]. }
    set (s2 := upd_dir dir dir_free_files _).
    assert (R s1 s2) as H2.
    { subst s2. apply R_upd_dir, R_foldl.
      intros acc x. eapply R_trans; [|apply R_file_remove].
      apply R_same; reflexivity. }
    set (s3 := upd_dir dir dir_free_subdirs _).
    assert (R s2 s3) as H3.
    { subst s3. apply R_upd_dir, R_foldl.
      intros acc x. eapply R_trans; [|apply IH].
      apply R_same; reflexivity. }
    set (s4 := match d_parent d with Some _ => _ | None => s3 end).
    assert (R s3 s4) as H4.
    { subst s4. repeat case_match; try apply R_refl; apply R_same; reflexivity. }
    set (s5 := ds_change_queue_dir_remove dir s4).
    assert (R s4 s5) as H5 by apply R_queue_dir_remove.
    set (s6 := if bool_decide (d_topdir d = Some dir) then _ else s5).
    assert (R s5 s6) as H6.
    { subst s6. case_match; [apply R_free | apply R_refl]. }
    eapply R_trans; [exact H1|].
    eapply R_trans; [exact H2|].
    eapply R_trans; [exact H3|].
    eapply R_trans; [exact H4|].
    eapply R_trans; [exact H5|].
    eapply R_trans; [exact H6|].
    apply R_same; reflexivity.
Qed.

Lemma R_scan_subdirs scan remove n :
  (forall sub s, R s (snd (scan sub s))) ->
  (forall sub s, R s (remove sub s)) ->
  forall dir no_recurse diridx s,
    R s (scan_subdirs scan remove n dir no_recurse diridx s).
Proof.
  intros Hscan Hremove. induction n as [|n IH]; intros dir no_recurse diridx s;
    simpl; [apply R_refl|].
  repeat case_match; try apply R_refl; try apply IH.
  - eapply R_trans; [|apply IH].
    match goal with E : scan ?sub s = _ |- _ =>
      pose proof (Hscan sub s) as Hp; rewrite E in Hp; exact Hp end.
  - eapply R_trans; [|apply IH].
    match goal with E : scan ?sub s = _ |- _ =>
      pose proof (Hscan sub s) as Hp; rewrite E in Hp; exact Hp end.
  - eapply R_trans; [apply Hremove | apply IH].
Qed.

Lemma R_scan_remove_unseen n : forall dir fileidx s,
  R s (scan_remove_unseen n dir fileidx s).
Proof.
  induction n as [|n IH]; intros dir fileidx s; simpl; [apply R_refl|].
  repeat case_match; try apply R_refl; try apply IH.
  eapply R_trans; [apply R_file_remove | apply IH].
Qed.

Lemma R_scan_check_files n : forall dir fileidx s,
  R s (scan_check_files os n dir fileidx s).
Proof.
  induction n as [|n IH]; intros dir fileidx s; simpl; [apply R_refl|].
  repeat case_match; try apply R_refl;
    match goal with E : ds_file_checkchanged _ ?f s = _ |- _ =>
      pose proof (R_file_checkchanged f s) as Hp; rewrite E in Hp end;
    (eapply R_trans; [exact Hp|]).
  - eapply R_trans; [apply R_file_remove | apply IH].
  - apply IH.
Qed.

Lemma R_scan_add_watch dir s : R s (scan_add_watch os dir s).
Proof.
  unfold scan_add_watch. repeat case_match; try apply R_refl.
  - apply R_same; reflexivity.
  - eapply R_trans; [|apply R_watch_index_add]. apply R_same; reflexivity.
Qed.

Lemma R_dir_scan fuel : forall dir no_recurse s,
  R s (snd (ds_dir_scan os max_directory_depth excludes fuel dir no_recurse s)).
Proof.
  induction fuel as [|fuel IH]; intros dir no_recurse s; [apply R_refl|].
  cbn [ds_dir_scan].
  destruct (dirs s !! dir) as [d|]; [|apply R_refl].
  destruct (d_depth d >? max_directory_depth); [apply R_dir_remove|].
  destruct (sys_lstat os (syscalls s) (d_absolute_path d)) as [dirsb|];
    [|eapply R_trans; [|apply R_dir_remove]; apply R_same; reflexivity].
  destruct (sys_scandir os (S (syscalls s)) (d_absolute_path d)) as [entries|];
    [|eapply R_trans; [|apply R_dir_remove]; apply R_same; reflexivity].
  cbn [snd].
  eapply R_trans; [|apply R_scan_add_watch].
  eapply R_trans; [|apply R_scan_check_files].
  eapply R_trans; [|apply R_scan_remove_unseen].
  eapply R_trans;
    [|apply R_scan_subdirs; [intros; apply IH | intros; apply R_dir_remove]].
  eapply R_trans; [|apply R_foldl; intros; apply R_scan_item].
  eapply R_trans; [|apply R_foldl; intros; apply R_same; reflexivity].
  eapply R_trans; [|apply R_foldl; intros; apply R_same; reflexivity].
  apply R_same; reflexivity.
Qed.

End Skeleton.

(** The scan never adds to the changed paths. *)
Lemma paths_dir_scan fuel dir no_recurse s :
  paths_kept s
    (snd (ds_dir_scan os max_directory_depth excludes fuel dir no_recurse s)).
Proof.
  apply R_dir_scan; unfold paths_kept.
  - auto.
  - intros s1 s2 s3 [H1|H1] [H2|H2]; rewrite ?H2, ?H1; auto.
  - auto.
  - auto.
  - auto.
  - auto.
Qed.


(** *** What a queue run leaves of the queue *)


















(** **** Steps that leave the nodes where they are *)
















(** **** Steps that take a tree to a later state of it *)

Section Tree.

Variable top : ptr.






















(** A file entry that is processed without a read through a freed or NULL
    pointer frees no directory. *)
Lemma process_file_entry_spec file s s' :
  process_file_entry os file s = Some s' ->
  s' = (let '(changed, s1) := ds_file_checkchanged os file s in
        if changed <? 0 then
          ds_file_remove file
            (match parent_path file s1 with
             | Some path => mark_path_changed path true s1
             | None => s1
             end)
        else if 0 <? changed then
          match own_path file s1 with
          | Some path => mark_path_changed path false s1
          | None => s1
          end
        else s1).
Proof.
  unfold process_file_entry.
  destruct (files s !! file); [|discriminate].
  destruct (ds_file_checkchanged os file s) as [changed s1].
  repeat case_match; congruence.
Qed.

Lemma process_file_entry_defined file s f parent :
  files s !! file = Some f -> f_parent f = Some parent ->
  is_Some (dirs s !! parent) ->
  is_Some (process_file_entry os file s).
Proof.
  intros Hf Hparent [pd Hpd]. unfold process_file_entry. rewrite Hf.
  assert (parent_of file (snd (ds_file_checkchanged os file s)) = Some pd)
    as Hp.
  { unfold ds_file_checkchanged. rewrite Hf.
    assert (parent_of file (tick s) = Some pd) as Htick.
    { unfold parent_of. wsimpl. by rewrite Hf, Hparent. }
    destruct (sys_lstat os (syscalls s) (f_absolute_path f)) as [sb|];
      [|exact Htick].
    destruct (negb (S_ISREG (st_mode sb))); [exact Htick|].
    destruct ((st_mtime sb =? f_mtime f) && (st_size sb =? f_size f));
      [exact Htick|].
    cbn [snd]. unfold parent_of. wsimpl. rewrite lookup_alter_eq, Hf.
    cbn. by rewrite Hparent. }
  destruct (ds_file_checkchanged os file s) as [changed s1]. cbn [snd] in Hp.
  rewrite Hp. by repeat case_match.
Qed.






End Tree.


(** *** Path names *)

Lemma str_length_append a b :
  String.length (a +:+ b) = (String.length a + String.length b)%nat.
Proof. induction a as [|c a IH]; simpl; auto. Qed.

Lemma str_from_append a b : str_from (String.length a) (a +:+ b) = b.
Proof. induction a as [|c a IH]; simpl; auto. Qed.

Lemma char_at_append a b k :
  char_at (a +:+ b) (String.length a + k) = char_at b k.
Proof. unfold char_at. induction a as [|c a IH]; simpl; auto. Qed.

Lemma char_at_nil k : char_at "" k = Ascii.zero.
Proof. by destruct k. Qed.

Lemma char_at_cons c s k : char_at (String c s) (S k) = char_at s k.
Proof. reflexivity. Qed.

Lemma contains_char_at c s :
  contains_char c s = false -> c <> Ascii.zero -> forall k, char_at s k <> c.
Proof.
  intros Hs Hc. induction s as [|c' s IH]; intros k.
  - rewrite char_at_nil. congruence.
  - simpl in Hs. apply orb_false_iff in Hs as [Hc' Hs].
    destruct k as [|k].
    + unfold char_at. simpl. intros ->. by rewrite Ascii.eqb_refl in Hc'.
    + rewrite char_at_cons. by apply IH.
Qed.

Lemma leafname_scan_join a b :
  contains_char "/" b = false ->
  forall k, leafname_scan (a +:+ "/" +:+ b) (String.length a + S k)
            = String.length a.
Proof.
  intros Hb k.
  assert (Hstep : forall j,
    Ascii.eqb (char_at (a +:+ "/" +:+ b) (String.length a + S j)) "/" = false).
  { intros j. rewrite char_at_append.
    change ("/" +:+ b) with (String "/"%char b). rewrite char_at_cons.
    apply Ascii.eqb_neq. by apply contains_char_at. }
  assert (Hbase : leafname_scan (a +:+ "/" +:+ b) (String.length a)
                  = String.length a).
  { destruct (String.length a) as [|n] eqn:Hn; [reflexivity|].
    cbn [leafname_scan].
    replace (S n) with (String.length a + 0)%nat by lia.
    rewrite char_at_append. reflexivity. }
  induction k as [|k IH].
  - replace (String.length a + 1)%nat with (S (String.length a)) by lia.
    cbn [leafname_scan].
    replace (S (String.length a)) with (String.length a + 1)%nat at 1 by lia.
    rewrite Hstep. exact Hbase.
  - replace (String.length a + S (S k))%nat
      with (S (String.length a + S k)) by lia.
    cbn [leafname_scan].
    replace (S (String.length a + S k))
      with (String.length a + S (S k))%nat at 1 by lia.
    rewrite Hstep. exact IH.
Qed.

Lemma ds_leafname_pos_join a b :
  contains_char "/" b = false ->
  ds_leafname_pos (a +:+ "/" +:+ b) = S (String.length a).
Proof.
  intros Hb. unfold ds_leafname_pos.
  replace (String.length (a +:+ "/" +:+ b))
    with (String.length a + S (String.length b))%nat.
  2:{ rewrite !str_length_append. simpl. lia. }
  rewrite leafname_scan_join by done.
  replace (String.length a) with (String.length a + 0)%nat at 1 by lia.
  rewrite char_at_append. reflexivity.
Qed.

Lemma str_from_join a c b : str_from (S (String.length a)) (a +:+ String c b) = b.
Proof. induction a as [|c' a IH]; [reflexivity|]. simpl. exact IH. Qed.

Lemma ds_leafname_join a b :
  contains_char "/" b = false -> ds_leafname (a +:+ "/" +:+ b) = b.
Proof.
  intros Hb. unfold ds_leafname. rewrite ds_leafname_pos_join by done.
  change ("/" +:+ b) with (String "/"%char b). apply str_from_join.
Qed.

(** *** The file check loop of the scan *)


(** Removing one listed file: the parent's list loses exactly that file. *)
Lemma remove_by_leaf s dir kept file rest f :
  files_of s dir (kept ++ file :: rest) ->
  files s !! file = Some f ->
  List.filter (fun g => negb (file_leaf_is s (f_leaf f) g)) (kept ++ file :: rest)
  = kept ++ rest.
Proof.
  intros (Hnodup & Hlive & Hleaf) Hf.
  assert (forall l, (forall g, g ∈ l -> g ∈ kept ++ file :: rest /\ g <> file) ->
            List.filter (fun g => negb (file_leaf_is s (f_leaf f) g)) l = l) as Hkeep.
  { induction l as [|g l IH]; intros Hl; [reflexivity|]. simpl.
    destruct (Hl g ltac:(left)) as [Hin Hne].
    destruct (Hlive g Hin) as (fg & Hfg & _).
    unfold file_leaf_is at 1. rewrite Hfg.
    destruct (streq (f_leaf fg) (f_leaf f)) eqn:E.
    - apply streq_true in E. exfalso. apply Hne.
      eapply Hleaf; try eassumption.
      apply elem_of_app. right. left.
    - simpl. f_equal. apply IH. intros g' Hg'. apply Hl. right. exact Hg'. }
  apply NoDup_app in Hnodup as (Hk & Hdisj & Hr).
  apply NoDup_cons in Hr as (Hnotin & Hr).
  rewrite List.filter_app. simpl.
  unfold file_leaf_is at 2. rewrite Hf.
  replace (streq (f_leaf f) (f_leaf f)) with true
    by (symmetry; apply streq_true; reflexivity).
  simpl. rewrite !Hkeep; [reflexivity| |].
  - intros g Hg. split.
    + apply elem_of_app. right. right. exact Hg.
    + intros ->. contradiction.
  - intros g Hg. split.
    + apply elem_of_app. left. exact Hg.
    + intros ->. apply (Hdisj file Hg). left.
Qed.

Lemma ds_file_remove_listed s dir d kept file rest f :
  dirs s !! dir = Some d ->
  d_files d = kept ++ file :: rest ->
  files_of s dir (kept ++ file :: rest) ->
  files s !! file = Some f ->
  dirs (ds_file_remove file s) !! dir = Some (dir_set_files (kept ++ rest) d) /\
  files (ds_file_remove file s) = delete file (files s) /\
  syscalls (ds_file_remove file s) = syscalls s.
Proof.
  intros Hd Hl Hwf Hf.
  destruct Hwf as (Hnodup & Hlive & Hleaf).
  destruct (Hlive file) as (f' & Hf' & Hparent).
  { apply elem_of_app. right. left. }
  rewrite Hf in Hf'. injection Hf' as <-.
  unfold ds_file_remove. rewrite Hf, Hparent, Hd, Hl.
  rewrite (remove_by_leaf s dir kept file rest f) by (repeat split; assumption).
  unfold ds_change_queue_file_remove. wsimpl. rewrite Hf, Hparent.
  rewrite lookup_alter_eq, Hd. cbn [fmap option_fmap option_map].
  split; [|split].
  - case_match; wsimpl; rewrite lookup_alter_eq, Hd; reflexivity.
  - case_match; reflexivity.
  - case_match; reflexivity.
Qed.

Lemma checkchanged_gone s file f :
  files s !! file = Some f ->
  match sys_lstat os (syscalls s) (f_absolute_path f) with
  | Some sb => S_ISREG (st_mode sb) = false
  | None => True
  end ->
  ds_file_checkchanged os file s = (-1, tick s).
Proof.
  intros Hf Hgone. unfold ds_file_checkchanged. rewrite Hf.
  destruct (sys_lstat os (syscalls s) (f_absolute_path f)); [|reflexivity].
  rewrite Hgone. reflexivity.
Qed.







(** *** A whole scan of a directory without subdirectories *)















(** *** The filename filter *)

(** C5: the name [.tmp] passes the default filter, although its final four
    characters are [.tmp]. *)
Theorem dot_tmp_passes_default_filter :
  ds_filename_valid os [] ".tmp" = true.
Proof. reflexivity. Qed.

(** The default filter does reject a name that ends in [.tmp] after at
    least one more character. *)
Lemma default_filter_rejects_tmp_suffix stem :
  stem <> "" -> ds_filename_valid os [] (stem +:+ ".tmp") = false.
Proof.
  intros Hstem.
  assert ((4 <? String.length (stem +:+ ".tmp"))%nat
          && streq (str_from (String.length (stem +:+ ".tmp") - 4)
                      (stem +:+ ".tmp")) ".tmp" = true) as Hlast.
  { rewrite str_length_append. simpl String.length.
    replace (String.length stem + 4 - 4)%nat with (String.length stem) by lia.
    rewrite str_from_append.
    destruct stem as [|c stem]; [contradiction|]. simpl String.length.
    apply andb_true_iff. split; [apply Nat.ltb_lt; lia | reflexivity]. }
  unfold ds_filename_valid.
  change (0 <? exclude_count []) with false. cbv zeta.
  rewrite Hlast.
  repeat match goal with
         | |- (if ?b then _ else _) = _ => destruct b; try reflexivity
         end.
Qed.

(** The default filter rejects a name that ends in a tilde. *)
Lemma default_filter_rejects_tilde stem :
  ds_filename_valid os [] (stem +:+ "~") = false.
Proof.
  assert ((1 <=? String.length (stem +:+ "~"))%nat
          && Ascii.eqb (char_at (stem +:+ "~") (String.length (stem +:+ "~") - 1))
               "~" = true) as Hlast.
  { rewrite str_length_append. simpl String.length.
    replace (String.length stem + 1 - 1)%nat with (String.length stem + 0)%nat by lia.
    rewrite char_at_append.
    apply andb_true_iff. split; [apply Nat.leb_le; lia | reflexivity]. }
  unfold ds_filename_valid.
  change (0 <? exclude_count []) with false. cbv zeta.
  rewrite Hlast.
  repeat match goal with
         | |- (if ?b then _ else _) = _ => destruct b; try reflexivity
         end.
Qed.

(** With an exclude list, a name that is not empty, [.] or [..] is
    included exactly when no pattern of the list matches it. *)
Lemma exclude_list_decides pattern rest leafname :
  ds_filename_valid os (pattern :: rest) leafname = true ->
  forall p, Some p ∈ (pattern :: rest) -> sys_fnmatch os p leafname = false.
Proof.
  unfold ds_filename_valid.
  assert ((0 <? exclude_count (pattern :: rest)) = true) as ->.
  { unfold exclude_count. apply Z.ltb_lt. simpl length. lia. }
  repeat match goal with
         | |- (if ?b then _ else _) = _ -> _ => destruct b; try discriminate
         end.
  intros Hnone p Hp. apply negb_true_iff in Hnone.
  destruct (sys_fnmatch os p leafname) eqn:E; [|reflexivity].
  assert (existsb
            (fun e => match e with
                      | Some pat => sys_fnmatch os pat leafname
                      | None => false
                      end) (pattern :: rest) = true) as Ht.
  { apply existsb_exists. exists (Some p). split; [|exact E].
    apply list_elem_of_In. exact Hp. }
  congruence.
Qed.

End Props.

(** *** The functions on concrete states *)

Lemma ds_file_checkchanged_reports_once_witness :
  exists f sb,
    files (watching [] []) !! file_a = Some f /\
    sys_lstat os0 0%nat (f_absolute_path f) = Some sb /\
    files (snd (ds_file_checkchanged os0 file_a (watching [] []))) !! file_a
      = Some (file_set_stat (st_mtime sb) (st_size sb) f) /\
    (sys_lstat os0 1%nat (f_absolute_path f) = Some sb ->
     ds_file_checkchanged os0 file_a
       (snd (ds_file_checkchanged os0 file_a (watching [] [])))
     = (0, tick (snd (ds_file_checkchanged os0 file_a (watching [] []))))).
Proof.
  apply (ds_file_checkchanged_reports_once os0 file_a (watching [] [])).
  vm_compute. reflexivity.
Defined.

Lemma dump_changed_paths_drains_witness :
  changed_paths (dump_changed_paths os0 "/out" (watching [] ["a.txt"])) = [] /\
  disk (dump_changed_paths os0 "/out" (watching [] ["a.txt"]))
    = <["/out/20261030-120000.4242" := ["a.txt"]]>
        (delete "/out/.20261030-120000.4242abc123" ∅) /\
  dump_changed_paths os0 "/out"
    (dump_changed_paths os0 "/out" (watching [] ["a.txt"]))
    = dump_changed_paths os0 "/out" (watching [] ["a.txt"]) /\
  (forall s0, changed_paths s0 = [] -> dump_changed_paths os0 "/out" s0 = s0).
Proof.
  apply (dump_changed_paths_drains os0 "/out" (watching [] ["a.txt"])
           "/out/.20261030-120000.4242abc123").
  - discriminate.
  - vm_compute. reflexivity.
  - reflexivity.
  - reflexivity.
Defined.





(** The slip in the loop of [ds_change_queue_process]: the write index is
    incremented twice when a kept entry is copied down.  One queue run over
    a due entry followed by an entry that is not yet due leaves two slots
    holding the second entry; and with two due entries in front, the slot
    of the second one survives as a tombstone. *)
Lemma queue_process_leaves_stale_slots :
  length (List.filter (not_yet_due 1000) [due_a; later_b]) = 1%nat /\
  change_queue <$> process (watching [due_a; later_b] [])
    = Some [later_b; later_b] /\
  change_queue <$> process (watching [due_a; rescan_top; later_b] [])
    = Some [later_b; mk_change 1000 None None].
Proof. vm_compute. auto. Qed.

(** A scan inside the run removes [c.txt], which is gone; the entry for it,
    kept earlier in the same run, is left behind with its pointer cleared. *)
Lemma queue_process_clears_kept_entry :
  change_queue
    <$> process (set_change_queue [later_c; rescan_top] watching_abc)
  = Some [mk_change 1002 None None].
Proof. vm_compute. reflexivity. Qed.

(** A recheck of [a.txt] reports the new size; after a scan has stored the
    new size, the recheck finds nothing to report. *)
Lemma scan_takes_the_change :
  changed_paths <$> process (watching [due_a] []) = Some ["a.txt"] /\
  changed_paths
    <$> process
          (set_change_queue [due_a]
             (snd (ds_dir_scan os0 20 [] 4 top false (watching [] []))))
    = Some [].
Proof. vm_compute. auto. Qed.

(** C2: a queue built by insertion alone has at most one entry for each
    node, and one queue run later it has two entries for [b.txt]. *)
Theorem queue_process_duplicates_target :
  at_most_one_entry
    (change_queue
       (ds_change_queue_file_add os0 file_b 1002
          (ds_change_queue_file_add os0 file_a 990 (watching [] [])))) /\
  exists s',
    process
      (ds_change_queue_file_add os0 file_b 1002
         (ds_change_queue_file_add os0 file_a 990 (watching [] [])))
    = Some s' /\
    ~ at_most_one_entry (change_queue s').
Proof.
  split.
  - apply file_add_keeps_at_most_one, file_add_keeps_at_most_one.
    intros i j e1 e2 Hi. unfold watching in Hi. cbn [change_queue] in Hi.
    rewrite lookup_nil in Hi. discriminate.
  - eexists. split; [vm_compute; reflexivity|].
    intros Hone.
    specialize (Hone 0%nat 1%nat later_b later_b).
    assert (0%nat = 1%nat) as Habs; [|discriminate].
    apply Hone; try (vm_compute; reflexivity).
    left. exists file_b. split; reflexivity.
Qed.


(** C4 as stated fails: a create event for the regular file [b.txt], which
    passes the filter, queues a recheck of the new file and marks no
    path. *)
Lemma file_create_does_not_mark_parent :
  ds_filename_valid os0 [] "b.txt" = true /\
  (st_mode <$> sys_lstat os0 0%nat "/top/b.txt") = Some S_IFREG /\
  change_queue (process_file_change os0 [] create_b top watching_a)
    = [mk_change 1002 (Some 5%nat) None] /\
  changed_paths (process_file_change os0 [] create_b top watching_a) = [].
Proof. vm_compute. auto. Qed.

Lemma process_file_change_queues_recheck_witness :
  (exists file f,
     listed (process_file_change os0 [] create_b top watching_a) top file /\
     files (process_file_change os0 [] create_b top watching_a) !! file = Some f /\
     f_parent f = Some top /\
     (file ∈ [file_a] /\ files watching_a !! file = Some f /\ f_leaf f = "b.txt"
      \/ file = 5%nat /\ f_absolute_path f = "/top/b.txt") /\
     exists e,
       e ∈ change_queue (process_file_change os0 [] create_b top watching_a)
       /\ cq_file e = Some file) /\
  changed_paths (process_file_change os0 [] create_b top watching_a) = [].
Proof.
  apply (process_file_change_queues_recheck os0 [] create_b top watching_a
           (top_dir [file_a]) (mk_stat S_IFREG 1 100 3)).
  - reflexivity.
  - exists top. reflexivity.
  - intros file f Hin Hf.
    apply list_elem_of_singleton in Hin. subst file.
    vm_compute in Hf. injection Hf as <-. reflexivity.
  - vm_compute. discriminate.
  - reflexivity.
  - reflexivity.
  - reflexivity.
Defined.

Lemma watching_abc_files : files_of watching_abc top [file_a; file_b; file_c].
Proof.
  split; [|split].
  - repeat (apply NoDup_cons; split;
            [rewrite ?elem_of_cons, elem_of_nil; vm_compute; intuition discriminate|]).
    apply NoDup_nil. exact I.
  - intros file Hin.
    rewrite !elem_of_cons, elem_of_nil in Hin.
    destruct Hin as [->|[->|[->|[]]]]; eexists; split; reflexivity.
  - intros file1 file2 f1 f2 Hin1 Hin2 Hf1 Hf2 Hleaf.
    rewrite !elem_of_cons, elem_of_nil in Hin1, Hin2.
    destruct Hin1 as [->|[->|[->|[]]]]; destruct Hin2 as [->|[->|[->|[]]]];
      try reflexivity;
      vm_compute in Hf1; vm_compute in Hf2;
      injection Hf1 as <-; injection Hf2 as <-; discriminate.
Defined.




End WatchProps.

(** ** watchdir.c *)

Module WatchdirProps.
Import Watchdir.

Section Parse.

Variable strtoul : string -> Z * bool.

Lemma exclude_count_set_numeric c param o :
  exclude_count (set_numeric c param o) = exclude_count o.
Proof.
  unfold set_numeric, exclude_count.
  repeat match goal with |- context [if ?b then _ else _] => destruct b end;
    reflexivity.
Qed.

Lemma exclude_count_add_exclude optarg o :
  exclude_count (add_exclude optarg o) = exclude_count o + 1.
Proof. unfold exclude_count, add_exclude; simpl. rewrite length_app; simpl. lia. Qed.

Lemma numeric_option_cases c :
  is_numeric_option c = true ->
  c = "f"%char \/ c = "r"%char \/ c = "q"%char \/ c = "m"%char \/ c = "i"%char.
Proof.
  unfold is_numeric_option. rewrite !orb_true_iff, !Ascii.eqb_eq. tauto.
Qed.

Lemma option_loop_excludes opts : forall o,
  Forall (harmless strtoul) opts ->
  exclude_count o <= 999 ->
  fst (option_loop strtoul opts o) =
    if decide (exclude_count o + Z.of_nat (exclude_options opts) <= 999)
    then None else Some 1.
Proof.
  induction opts as [|[c optarg] opts IH]; intros o Hall Hcount.
  - simpl. unfold exclude_options; simpl.
    destruct (decide _) as [|Hn]; [reflexivity | lia].
  - inversion Hall as [|? ? Hopt Hrest]; subst.
    destruct Hopt as [Hc | [Hc | [Hnum Hok]]]; simpl in *.
    + subst c. simpl. rewrite IH by assumption. reflexivity.
    + subst c. simpl. unfold MAX_EXCLUDES.
      change (exclude_options (("e"%char, optarg) :: opts))
        with (S (exclude_options opts)).
      destruct (exclude_count o >=? 1000 - 1) eqn:E.
      * simpl. destruct (decide _) as [Hle|]; [lia | reflexivity].
      * rewrite IH by (try assumption; rewrite exclude_count_add_exclude; lia).
        rewrite exclude_count_add_exclude.
        repeat destruct (decide _); try reflexivity; lia.
    + assert (exclude_options ((c, optarg) :: opts) = exclude_options opts) as ->.
      { unfold exclude_options; simpl.
        destruct (numeric_option_cases c Hnum) as [->|[->|[->|[->| ->]]]];
          reflexivity. }
      destruct (strtoul optarg) as [param failed] eqn:Es. simpl in Hok. subst failed.
      rewrite <- (exclude_count_set_numeric c param o) in Hcount |- *.
      rewrite <- (IH (set_numeric c param o) Hrest Hcount).
      destruct (numeric_option_cases c Hnum) as [->|[->|[->|[->| ->]]]];
        reflexivity.
Qed.

(** C9, as the code has it: the exclude option is accepted 999 times.  A
    command line of harmless options and two parameters is parsed with
    success exactly when it carries at most 999 exclude patterns, and ends
    with the error return exactly when it carries more. *)
Theorem parse_options_exclude_limit opts rest o :
  Forall (harmless strtoul) opts ->
  length rest = 2%nat ->
  excludes o = [] ->
  (fst (parse_options strtoul (mk_command_line opts rest) o) = 0
   <-> (exclude_options opts <= 999)%nat) /\
  (fst (parse_options strtoul (mk_command_line opts rest) o) = 1
   <-> (999 < exclude_options opts)%nat).
Proof.
  intros Hall Hrest Hex.
  unfold parse_options; simpl.
  pose proof (option_loop_excludes opts (set_parameters [] o) Hall) as Hloop.
  assert (exclude_count (set_parameters [] o) = 0) as Hzero
    by (unfold exclude_count; simpl; rewrite Hex; reflexivity).
  rewrite Hzero in Hloop. specialize (Hloop ltac:(lia)).
  destruct (option_loop strtoul opts (set_parameters [] o)) as [[rc|] o'];
    simpl in Hloop; destruct (decide _) as [Hle|Hgt]; try discriminate.
  - injection Hloop as ->. simpl. split; split; intros; try lia; reflexivity.
  - rewrite bool_decide_eq_false_2 by (intros Hne; apply Hne; exact Hrest).
    simpl. split; split; intros; try lia; try reflexivity; discriminate.
Qed.

End Parse.

Lemma parse_options_exclude_limit_witness :
  fst (parse_options (fun _ => (30, false))
         (mk_command_line [("e"%char, "*.log"); ("i"%char, "30"); ("e"%char, "*.bak")]
            ["/srv/data"; "/var/spool/changes"])
         initial_options) = 0.
Proof.
  apply (parse_options_exclude_limit (fun _ => (30, false))
           [("e"%char, "*.log"); ("i"%char, "30"); ("e"%char, "*.bak")]
           ["/srv/data"; "/var/spool/changes"] initial_options).
  - constructor; [right; left; reflexivity|].
    constructor; [right; right; split; reflexivity|].
    constructor; [right; left; reflexivity|].
    constructor.
  - reflexivity.
  - reflexivity.
  - vm_compute. lia.
Defined.

(** C9 as stated fails: a command line with 1000 exclude patterns is
    refused at the thousandth. *)
Lemma thousand_excludes_refused :
  fst (parse_options (fun _ => (0, false))
         (mk_command_line (replicate 1000 ("e"%char, "*.log"))
            ["/srv/data"; "/var/spool/changes"])
         initial_options) = 1.
Proof. vm_compute. reflexivity. Qed.

End WatchdirProps.

(** ** continual-sync.c *)

Module ConfigProps.
Import Common Config Examples.

Lemma cf_ulong_written k v c :
  ulong_set k (cf_ulong k v c) = true /\ ulong_value k (cf_ulong k v c) = v.
Proof. destruct k; split; reflexivity. Qed.

Lemma new_section_unset k param_str :
  ulong_set k (new_section param_str) = false.
Proof. destruct k; reflexivity. Qed.

Section Validate.

Variable lstat_isdir : string -> option bool.

Lemma validate_section_ulong k c d :
  streq (name c) DEFAULTS_SECTION = false ->
  ulong_value k (snd (validate_section lstat_isdir c (Some d))) =
    copy_default_ulong k c d.
Proof.
  intros Hname. unfold validate_section. rewrite Hname.
  destruct k; reflexivity.
Qed.

(** C6, as the code has it: inheritance follows the [set] flags, not the
    values.  After validation of a section other than the defaults section,
    a numeric key the section wrote keeps the written value, zero or not;
    a key the section did not write takes the defaults section's value when
    the defaults section wrote it, and keeps its built-in value otherwise. *)
Theorem numeric_keys_follow_set_flags config_sections idx defaults_idx c d k :
  config_sections !! idx = Some c ->
  name c <> DEFAULTS_SECTION ->
  config_sections !! defaults_idx = Some d ->
  (ulong_value k <$>
     snd (validate_config_section lstat_isdir idx (Z.of_nat defaults_idx)
            config_sections) !! idx) =
    Some (if ulong_set k c then ulong_value k c
          else if ulong_set k d then ulong_value k d
          else ulong_value k c) /\
  (forall v c0, c = cf_ulong k v c0 ->
     (ulong_value k <$>
        snd (validate_config_section lstat_isdir idx (Z.of_nat defaults_idx)
               config_sections) !! idx) = Some v).
Proof.
  intros Hc Hname Hd.
  assert (streq (name c) DEFAULTS_SECTION = false) as Hneq.
  { destruct (streq (name c) DEFAULTS_SECTION) eqn:E; [|reflexivity].
    apply String.eqb_eq in E. contradiction. }
  assert ((ulong_value k <$>
     snd (validate_config_section lstat_isdir idx (Z.of_nat defaults_idx)
            config_sections) !! idx) = Some (copy_default_ulong k c d)) as Hv.
  { unfold validate_config_section. rewrite Hc.
    replace (Z.of_nat defaults_idx <? 0) with false by (symmetry; apply Z.ltb_ge; lia).
    rewrite Nat2Z.id, Hd.
    pose proof (validate_section_ulong k c d Hneq) as Hs.
    destruct (validate_section lstat_isdir c (Some d)) as [rc c'] eqn:E.
    simpl in *. rewrite list_lookup_insert_eq by (eapply lookup_lt_Some; eassumption).
    simpl. rewrite Hs. reflexivity. }
  split.
  - rewrite Hv. unfold copy_default_ulong.
    destruct (ulong_set k c), (ulong_set k d); reflexivity.
  - intros v c0 ->. rewrite Hv. unfold copy_default_ulong.
    destruct (cf_ulong_written k v c0) as [-> ->]. reflexivity.
Qed.

End Validate.

Lemma numeric_keys_follow_set_flags_witness :
  (ulong_value K_partial_retry <$>
     snd (validate_config_section (fun _ => Some true) 1 (Z.of_nat 0)
            [cf_ulong K_partial_retry 60 (new_section "defaults"); backup_0]) !! 1%nat)
  = Some 60.
Proof.
  apply (numeric_keys_follow_set_flags (fun _ => Some true)
           [cf_ulong K_partial_retry 60 (new_section "defaults"); backup_0]
           1 0 backup_0 (cf_ulong K_partial_retry 60 (new_section "defaults"))
           K_partial_retry); [reflexivity | discriminate | reflexivity].
Defined.

(** C6 as stated fails: a key written as zero in the section does not take
    the defaults section's value. *)
Lemma written_zero_not_inherited :
  ulong_value K_full_interval backup_0 = 0 /\
  ulong_value K_full_interval defaults_100 = 100 /\
  (ulong_value K_full_interval <$>
     snd (validate_config_section (fun _ => Some true) 1 0
            [defaults_100; backup_0]) !! 1%nat) = Some 0 /\
  (ulong_value K_full_interval <$>
     snd (validate_config_section (fun _ => Some true) 1 0
            [defaults_100; backup_0]) !! 1%nat)
  <> Some (ulong_value K_full_interval defaults_100).
Proof. vm_compute. repeat split. discriminate. Qed.

End ConfigProps.

(** ** sync.c *)

Module SyncProps.
Import Sync Examples.

Lemma exited_not_signaled status : WIFEXITED status = true -> WIFSIGNALED status = false.
Proof.
  unfold WIFEXITED, WIFSIGNALED, WTERMSIG. intros H%Z.eqb_eq. rewrite H. reflexivity.
Qed.

(** C7: [run_validation] returns 0 when there is no command or the command
    exits with status zero, nonzero when it exits with another status, and
    when a signal ends the command it sets [sync_exit_now] and returns
    nonzero. *)
Theorem run_validation_result system command name action' w :
  match command with
  | None => run_validation system None name action' w = (0, w)
  | Some cmd =>
      let ret := system cmd in
      let r := run_validation system (Some cmd) name action' w in
      (WIFEXITED ret = true -> WEXITSTATUS ret = 0 ->
       fst r = 0 /\ sync_exit_now (snd r) = sync_exit_now w) /\
      (WIFEXITED ret = true -> WEXITSTATUS ret <> 0 -> fst r <> 0) /\
      (WIFSIGNALED ret = true ->
       fst r <> 0 /\ sync_exit_now (snd r) = true)
  end.
Proof.
  destruct command as [cmd|]; [|reflexivity].
  cbn zeta. unfold run_validation. split; [|split].
  - intros Hx Hz. rewrite (exited_not_signaled _ Hx), Hz. split; reflexivity.
  - intros Hx Hz. rewrite (exited_not_signaled _ Hx).
    destruct (WEXITSTATUS (system cmd) =? 0) eqn:E.
    + apply Z.eqb_eq in E. contradiction.
    + simpl. discriminate.
  - intros Hs. rewrite Hs. split; [simpl; discriminate | reflexivity].
Qed.

Lemma run_validation_result_witness :
  (fst (run_validation (fun _ => 0) (Some "true") "source" "validating-source" idle) = 0
   /\ sync_exit_now (snd (run_validation (fun _ => 0) (Some "true") "source" "validating-source" idle)) = false)
  /\ fst (run_validation (fun _ => 256) (Some "false") "source" "validating-source" idle) <> 0
  /\ (fst (run_validation (fun _ => 15) (Some "kill -TERM $$") "source" "validating-source" idle) <> 0
      /\ sync_exit_now (snd (run_validation (fun _ => 15) (Some "kill -TERM $$") "source" "validating-source" idle)) = true).
Proof.
  split; [|split].
  - destruct (run_validation_result (fun _ => 0) (Some "true") "source"
                "validating-source" idle) as (Hzero & _ & _).
    apply Hzero; reflexivity.
  - destruct (run_validation_result (fun _ => 256) (Some "false") "source"
                "validating-source" idle) as (_ & Hfail & _).
    apply Hfail; [reflexivity | vm_compute; discriminate].
  - destruct (run_validation_result (fun _ => 15) (Some "kill -TERM $$")
                "source" "validating-source" idle) as (_ & _ & Hsig).
    apply Hsig; reflexivity.
Defined.
End SyncProps.

(** ** common.c: path names *)

Module CommonProps.
Import Common Watch WatchProps.

Lemma char_at_past_end s k : (String.length s <= k)%nat -> char_at s k = Ascii.zero.
Proof.
  revert k. induction s as [|c s IH]; intros k Hk.
  - apply char_at_nil.
  - destruct k as [|k]; [simpl in Hk; lia|].
    rewrite char_at_cons. apply IH. simpl in Hk. lia.
Qed.

Lemma contains_char_from c s : forall i,
  (forall k, (i <= k)%nat -> (k < String.length s)%nat -> char_at s k <> c) ->
  contains_char c (str_from i s) = false.
Proof.
  induction s as [|c' s IH]; intros i Hi.
  - by destruct i.
  - destruct i as [|i].
    + cbn [str_from contains_char]. apply orb_false_iff. split.
      * apply Ascii.eqb_neq. apply (Hi 0%nat); simpl; lia.
      * apply (IH 0%nat). intros k _ Hk.
        rewrite <- char_at_cons with (c := c'). apply Hi; simpl; lia.
    + cbn [str_from]. apply IH. intros k Hk Hlen.
      rewrite <- char_at_cons with (c := c'). apply Hi; simpl; lia.
Qed.

Lemma str_take_from i s : str_take i s +:+ str_from i s = s.
Proof.
  revert i. induction s as [|c s IH]; intros [|i]; try reflexivity.
  cbn [str_take str_from].
  change (String c (str_take i s +:+ str_from i s) = String c s).
  by rewrite IH.
Qed.

(** What the loop of [ds_leafname_pos] returns: no slash lies strictly
    between the result and the starting point, and the result is 0 or the
    position of a slash. *)
Lemma leafname_scan_spec pathname : forall n,
  let q := leafname_scan pathname n in
  (q <= n)%nat /\
  (q = 0%nat \/ char_at pathname q = "/"%char) /\
  (forall k, (q < k)%nat -> (k <= n)%nat -> char_at pathname k <> "/"%char).
Proof.
  induction n as [|n IH]; cbn [leafname_scan].
  - split; [lia|]. split; [by left|]. intros; lia.
  - destruct (Ascii.eqb (char_at pathname (S n)) "/") eqn:E.
    + split; [lia|]. split; [right; by apply Ascii.eqb_eq|]. intros; lia.
    + destruct IH as (Hle & Hq & Hno). split; [lia|]. split; [exact Hq|].
      intros k Hk1 Hk2. destruct (decide (k = S n)) as [->|Hne].
      * by apply Ascii.eqb_neq.
      * apply Hno; lia.
Qed.

Lemma str_take_join a b : str_take (String.length a) (a +:+ b) = a.
Proof.
  induction a as [|c a IH]; [by destruct b|]. simpl. by rewrite IH.
Qed.

Lemma leafname_scan_no_slash b :
  contains_char "/" b = false -> forall n, leafname_scan b n = 0%nat.
Proof.
  intros Hb. induction n as [|n IH]; [reflexivity|].
  cbn [leafname_scan].
  destruct (Ascii.eqb (char_at b (S n)) "/") eqn:E; [|exact IH].
  apply Ascii.eqb_eq in E. by apply contains_char_at in E.
Qed.

Lemma ds_leafname_pos_no_slash b :
  contains_char "/" b = false -> ds_leafname_pos b = 0%nat.
Proof.
  intros Hb. unfold ds_leafname_pos. rewrite leafname_scan_no_slash by done.
  destruct (Ascii.eqb (char_at b 0) "/") eqn:E; [|reflexivity].
  apply Ascii.eqb_eq in E. by apply contains_char_at in E.
Qed.

(** X1: [ds_leafname] returns what follows the last slash of the path: the
    path is its first [ds_leafname_pos] characters followed by the leaf
    name, the leaf name holds no slash, and the position is 0 or just after
    a slash. *)
Theorem ds_leafname_after_last_slash pathname :
  pathname = str_take (ds_leafname_pos pathname) pathname +:+ ds_leafname pathname /\
  contains_char "/" (ds_leafname pathname) = false /\
  (ds_leafname_pos pathname = 0%nat \/
   char_at pathname (ds_leafname_pos pathname - 1) = "/"%char).
Proof.
  split; [symmetry; apply str_take_from|].
  unfold ds_leafname, ds_leafname_pos.
  destruct (leafname_scan_spec pathname (String.length pathname))
    as (Hle & Hq & Hno).
  set (q := leafname_scan pathname (String.length pathname)) in *.
  destruct (Ascii.eqb (char_at pathname q) "/") eqn:E.
  - split.
    + apply contains_char_from. intros k Hk Hlen. apply Hno; lia.
    + right. replace (S q - 1)%nat with q by lia. by apply Ascii.eqb_eq.
  - apply Ascii.eqb_neq in E. destruct Hq as [Hq|Hq]; [|done]. split.
    + apply contains_char_from. intros k Hk Hlen.
      destruct (decide (k = q)) as [->|Hne]; [done|]. apply Hno; lia.
    + by left.
Qed.

(** X2: the temporary file of [ds_tmpfile] is a hidden file in the
    directory of the target: for the path [dir/leaf] the template handed to
    [mkstemp] is [dir/.leafXXXXXX].  For a path without any slash the
    negative precision prints the whole name as the directory part, and the
    template is [name/.nameXXXXXX]. *)
Theorem tmpfile_template_beside_target dir leaf :
  contains_char "/" leaf = false ->
  tmpfile_template (dir +:+ "/" +:+ leaf) = dir +:+ "/." +:+ leaf +:+ "XXXXXX" /\
  tmpfile_template leaf = leaf +:+ "/." +:+ leaf +:+ "XXXXXX".
Proof.
  intros Hleaf. unfold tmpfile_template. split.
  - rewrite ds_leafname_pos_join by done.
    change ("/" +:+ leaf) with (String "/"%char leaf).
    rewrite str_take_join, str_from_join. reflexivity.
  - rewrite ds_leafname_pos_no_slash by done. reflexivity.
Qed.

Lemma tmpfile_template_beside_target_witness :
  tmpfile_template ("/run/sync" +:+ "/" +:+ "status")
    = "/run/sync" +:+ "/." +:+ "status" +:+ "XXXXXX" /\
  tmpfile_template "status" = "status" +:+ "/." +:+ "status" +:+ "XXXXXX".
Proof. apply (tmpfile_template_beside_target "/run/sync" "status"). reflexivity. Defined.

End CommonProps.

(** ** watch.c: the nodes of the tree *)

Module WatchNodes.
Import Common Watch WatchEvents Examples WatchProps CommonProps.

Lemma find_app_none {A} (p : A -> bool) l l' :
  List.find p l = None -> List.find p (l ++ l') = List.find p l'.
Proof.
  induction l as [|x l IH]; [done|]. simpl.
  destruct (p x); [done|]. exact IH.
Qed.

Lemma find_none_ext {A} (p q : A -> bool) l :
  (forall x, x ∈ l -> q x = p x) -> List.find p l = None -> List.find q l = None.
Proof.
  induction l as [|x l IH]; [done|]. intros Hext. simpl.
  rewrite (Hext x) by constructor.
  destruct (p x); [done|]. apply IH. intros y Hy. apply Hext. by constructor.
Qed.

Lemma elem_of_List_filter {A} (p : A -> bool) l x :
  x ∈ List.filter p l <-> x ∈ l /\ p x = true.
Proof. rewrite !list_elem_of_In. apply filter_In. Qed.

Section Nodes.

Variable os : system.
Variable max_directory_depth : Z.
Variable excludes : list (option string).

(** X3: [ds_file_add] is idempotent.  The node it returns is listed in the
    directory under the given name, and adding the same name again returns
    the same node and changes nothing. *)
Theorem ds_file_add_twice dir name s d :
  dirs s !! dir = Some d ->
  contains_char "/" name = false ->
  next_ptr s ∉ d_files d ->
  exists file f s1,
    ds_file_add dir name s = (Some file, s1) /\
    files s1 !! file = Some f /\ f_leaf f = name /\ listed s1 dir file /\
    ds_file_add dir name s1 = (Some file, s1).
Proof.
  intros Hd Hname Hfresh. unfold ds_file_add at 1. rewrite Hd.
  destruct (List.find (file_leaf_is s name) (d_files d)) as [file|] eqn:E.
  - apply find_some in E as Hin. destruct Hin as [Hin Hleaf].
    unfold file_leaf_is in Hleaf.
    destruct (files s !! file) as [f|] eqn:Hf; [|done].
    apply streq_true in Hleaf.
    exists file, f, s. repeat split; try done.
    + exists d. split; [done|]. by apply list_elem_of_In.
    + unfold ds_file_add. by rewrite Hd, E.
  - set (file := next_ptr s).
    set (f := mk_file _ _ _ _ _ _ _).
    set (s1 := upd_dir dir _ _).
    assert (Hf1 : files s1 !! file = Some f).
    { subst s1. wsimpl. apply lookup_insert_eq. }
    assert (Hd1 : dirs s1 !! dir = Some (dir_set_files (d_files d ++ [file]) d)).
    { subst s1. wsimpl. rewrite lookup_alter_eq, Hd. reflexivity. }
    assert (Hleaf : f_leaf f = name).
    { subst f. cbn [f_leaf]. by apply ds_leafname_join. }
    exists file, f, s1. repeat split; try done.
    + exists (dir_set_files (d_files d ++ [file]) d). split; [done|].
      cbn [d_files dir_set_files]. apply elem_of_app. right. by constructor.
    + unfold ds_file_add. rewrite Hd1. cbn [d_files dir_set_files].
      rewrite find_app_none.
      * cbn [List.find]. unfold file_leaf_is at 1. rewrite Hf1, Hleaf.
        unfold streq. by rewrite String.eqb_refl.
      * apply (find_none_ext (file_leaf_is s name)); [|done].
        intros g Hg. unfold file_leaf_is. subst s1. wsimpl.
        rewrite lookup_insert_ne; [done|].
        intros Heq. apply Hfresh. subst file. by rewrite Heq.
Qed.

(** X4: [ds_dir_add] keeps every directory within the depth limit and one
    level below its parent, and refuses to add below a directory that is at
    the limit. *)
Theorem ds_dir_add_keeps_depth dir name s :
  depth_ok max_directory_depth s ->
  dirs s !! next_ptr s = None ->
  depth_ok max_directory_depth (snd (ds_dir_add max_directory_depth dir name s)) /\
  (forall d, dirs s !! dir = Some d -> max_directory_depth <= d_depth d ->
             ds_dir_add max_directory_depth dir name s = (None, s)).
Proof.
  intros Hok Hfresh. split.
  2:{ intros d Hd Hdeep. unfold ds_dir_add. rewrite Hd.
      destruct (d_depth d >=? max_directory_depth) eqn:E; [done|]. lia. }
  unfold ds_dir_add.
  destruct (dirs s !! dir) as [d|] eqn:Hd; [|done].
  destruct (d_depth d >=? max_directory_depth) eqn:Edepth; [done|].
  destruct (List.find _ _); [done|]. cbn [snd].
  set (sub := next_ptr s) in *.
  assert (Hne : sub <> dir) by (intros ->; congruence).
  intros p dp Hp. wsimpl.
  destruct (decide (p = dir)) as [->|Hpd].
  - rewrite lookup_alter_eq, lookup_insert_ne, Hd in Hp by done.
    injection Hp as <-. destruct (Hok dir d Hd) as [Hle Hpar].
    split; [exact Hle|]. intros parent Hparent.
    cbn [d_parent dir_set_subdirs] in Hparent.
    destruct (Hpar parent Hparent) as (pd & Hpd & Hdepth).
    assert (parent <> sub) by (intros ->; congruence).
    destruct (decide (parent = dir)) as [->|Hne2].
    + exists (dir_set_subdirs (d_subdirs d ++ [sub]) d).
      rewrite lookup_alter_eq, lookup_insert_ne, Hd by done.
      split; [done|]. cbn [d_depth dir_set_subdirs].
      rewrite Hd in Hpd. injection Hpd as <-. exact Hdepth.
    + exists pd. rewrite lookup_alter_ne, lookup_insert_ne by done.
      split; [done|]. exact Hdepth.
  - rewrite lookup_alter_ne in Hp by done.
    destruct (decide (p = sub)) as [->|Hps].
    + rewrite lookup_insert_eq in Hp. injection Hp as <-.
      cbn [d_depth d_parent]. split; [lia|].
      intros parent [= <-].
      exists (dir_set_subdirs (d_subdirs d ++ [sub]) d).
      rewrite lookup_alter_eq, lookup_insert_ne, Hd by done. done.
    + rewrite lookup_insert_ne in Hp by done.
      destruct (Hok p dp Hp) as [Hle Hpar]. split; [exact Hle|].
      intros parent Hparent.
      destruct (Hpar parent Hparent) as (pd & Hpd' & Hdepth).
      assert (parent <> sub) by (intros ->; congruence).
      destruct (decide (parent = dir)) as [->|Hne2].
      * exists (dir_set_subdirs (d_subdirs d ++ [sub]) d).
        rewrite lookup_alter_eq, lookup_insert_ne, Hd by done.
        split; [done|]. cbn [d_depth dir_set_subdirs].
        rewrite Hd in Hpd'. injection Hpd' as <-. exact Hdepth.
      * exists pd. rewrite lookup_alter_ne, lookup_insert_ne by done. done.
Qed.

Lemma ds_file_remove_queue file s f parent pd :
  files s !! file = Some f ->
  f_parent f = Some parent ->
  dirs s !! parent = Some pd ->
  is_Some (d_topdir pd) ->
  change_queue (ds_file_remove file s) = clear_file file <$> change_queue s.
Proof.
  intros Hf Hparent Hpd [top Htop].
  unfold ds_file_remove. rewrite Hf, Hparent, Hpd.
  unfold ds_change_queue_file_remove. wsimpl.
  rewrite Hf, Hparent. rewrite lookup_alter_eq, Hpd.
  cbn [fmap option_fmap option_map d_topdir dir_set_files]. rewrite Htop.
  reflexivity.
Qed.

Lemma clear_file_cleared file (q : list ds_change_queue_s) e :
  e ∈ clear_file file <$> q -> cq_file e <> Some file.
Proof.
  intros He. apply list_elem_of_fmap in He as (e0 & -> & _).
  unfold clear_file. case_bool_decide as Hc; [done|exact Hc].
Qed.

(** X5: [ds_file_remove] on a file of a watched tree frees the node and
    clears every queue entry that points to it; the other entries, and the
    length of the queue, stay as they are. *)
Theorem ds_file_remove_clears_queue file s f parent pd :
  files s !! file = Some f ->
  f_parent f = Some parent ->
  dirs s !! parent = Some pd ->
  is_Some (d_topdir pd) ->
  let s' := ds_file_remove file s in
  files s' !! file = None /\
  change_queue s' = clear_file file <$> change_queue s /\
  (forall e, e ∈ change_queue s' -> cq_file e <> Some file).
Proof.
  intros Hf Hparent Hpd Htop s'.
  assert (Hq : change_queue s' = clear_file file <$> change_queue s)
    by (by eapply ds_file_remove_queue).
  split; [|split; [exact Hq|]].
  - subst s'. unfold ds_file_remove. rewrite Hf. wsimpl.
    apply lookup_delete_eq.
  - intros e He. rewrite Hq in He. by eapply clear_file_cleared.
Qed.

(** *** Removing a directory *)

Lemma after_removal_refl s : after_removal s s.
Proof. unfold after_removal. repeat split; eauto. Qed.

Lemma after_removal_trans s1 s2 s3 :
  after_removal s1 s2 -> after_removal s2 s3 -> after_removal s1 s3.
Proof.
  intros (F1 & W1 & Q1 & D1) (F2 & W2 & Q2 & D2). split; [|split; [|split]].
  - auto.
  - auto.
  - destruct Q2 as [Q2|Q2]; [by left|].
    destruct Q1 as [Q1|Q1].
    + left. rewrite Q1 in Q2. by apply fmap_nil_inv in Q2.
    + right. congruence.
  - intros p d3 H3. destruct (D2 p d3 H3) as (d2 & H2 & T2 & P2).
    destruct (D1 p d2 H2) as (d1 & H1 & T1 & P1).
    exists d1. split; [done|]. split; congruence.
Qed.

Lemma after_removal_same s s' :
  files s' = files s -> dirs s' = dirs s -> watch_index s' = watch_index s ->
  change_queue s' = change_queue s -> after_removal s s'.
Proof.
  intros F D W Q. unfold after_removal. rewrite F, D, W, Q.
  repeat split; eauto.
Qed.

(** A write to a directory structure that leaves its top level directory
    and its path alone. *)
Lemma after_removal_upd_dir s s' p g :
  (forall d, d_topdir (g d) = d_topdir d /\ d_path (g d) = d_path d) ->
  after_removal s s' -> after_removal s (upd_dir p g s').
Proof.
  intros Hg H. eapply after_removal_trans; [exact H|].
  split; [|split; [|split]]; wsimpl; [auto|auto|by right|].
  intros q d' Hq. destruct (decide (q = p)) as [->|Hne].
  - rewrite lookup_alter_eq in Hq.
    destruct (dirs s' !! p) as [d|]; [|done]. injection Hq as <-.
    exists d. split; [done|]. apply Hg.
  - rewrite lookup_alter_ne in Hq by done. eauto.
Qed.

Lemma after_removal_free_dir s s' p :
  after_removal s s' -> after_removal s (set_dirs (delete p (dirs s')) s').
Proof.
  intros H. eapply after_removal_trans; [exact H|].
  split; [|split; [|split]]; wsimpl; [auto|auto|by right|].
  intros q d' Hq. apply lookup_delete_Some in Hq as [_ Hq]. eauto.
Qed.

Lemma after_removal_foldl {A} (step : watcher -> A -> watcher) l :
  (forall acc x, after_removal acc (step acc x)) ->
  forall s, after_removal s (foldl step s l).
Proof.
  intros Hstep. induction l as [|x l IH]; intros s; simpl.
  - apply after_removal_refl.
  - eapply after_removal_trans; [apply Hstep | apply IH].
Qed.

(** One round of the loop of [ds_dir_remove] over the files: the parent
    pointer is wiped first, so the file is freed without a look at the
    parent's list or at the queue. *)
Lemma orphan_remove item acc :
  let s' := ds_file_remove item (upd_file item (file_set_parent None) acc) in
  files s' = delete item (files acc) /\
  dirs s' = dirs acc /\
  watch_index s' = watch_index acc /\
  change_queue s' = change_queue acc /\
  changed_paths s' = changed_paths acc.
Proof.
  unfold ds_file_remove. wsimpl. rewrite lookup_alter_eq.
  destruct (files acc !! item) as [f|] eqn:Hf;
    cbn [fmap option_fmap option_map f_parent file_set_parent].
  - unfold ds_change_queue_file_remove. wsimpl. rewrite lookup_alter_eq, Hf.
    cbn [fmap option_fmap option_map f_parent file_set_parent]. wsimpl.
    split; [|done]. apply map_eq. intros p.
    destruct (decide (p = item)) as [->|Hne].
    + by rewrite !lookup_delete_eq.
    + by rewrite !lookup_delete_ne, lookup_alter_ne.
  - wsimpl. split; [|done]. apply map_eq. intros p.
    destruct (decide (p = item)) as [->|Hne].
    + by rewrite lookup_delete_eq, lookup_alter_eq, Hf.
    + by rewrite lookup_delete_ne, lookup_alter_ne.
Qed.

Lemma orphan_remove_after item acc :
  after_removal acc
    (ds_file_remove item (upd_file item (file_set_parent None) acc)).
Proof.
  destruct (orphan_remove item acc) as (F & D & W & Q & _).
  split; [|split; [|split]].
  - intros p Hp. rewrite F. destruct (decide (p = item)) as [->|Hne].
    + apply lookup_delete_eq.
    + by rewrite lookup_delete_ne.
  - intros e. by rewrite W.
  - right. by rewrite Q.
  - rewrite D. eauto.
Qed.

Lemma orphans_freed l : forall s file,
  file ∈ l ->
  files (foldl (fun acc item =>
                  ds_file_remove item (upd_file item (file_set_parent None) acc))
           s l) !! file = None.
Proof.
  induction l as [|x l IH]; intros s file Hin; [by apply elem_of_nil in Hin|].
  cbn [foldl].
  destruct (decide (file ∈ l)) as [Hl|Hl]; [by apply IH|].
  apply elem_of_cons in Hin as [->|Hin]; [|done].
  pose proof (after_removal_foldl
    (fun acc item => ds_file_remove item (upd_file item (file_set_parent None) acc))
    l (fun acc item => orphan_remove_after item acc)) as Hfold.
  apply Hfold. destruct (orphan_remove x s) as (F & _). rewrite F.
  apply lookup_delete_eq.
Qed.

Lemma cq_file_clear_dir dir (q : list ds_change_queue_s) :
  cq_file <$> (clear_dir dir <$> q) = cq_file <$> q.
Proof.
  rewrite <- list_fmap_compose. apply list_fmap_ext. intros i e _.
  unfold clear_dir. simpl. by case_bool_decide.
Qed.

(** The steps of [ds_dir_remove] after the loop over the files. *)
Lemma ds_dir_remove_tail fuel dir s d :
  (forall sub s0, after_removal s0 (ds_dir_remove fuel sub s0)) ->
  dirs s !! dir = Some d ->
  let s1 :=
    if (0 <=? d_wd d) && bool_decide (is_Some (d_topdir d))
       && (0 <=? fd_inotify s)
    then upd_dir dir (dir_set_wd (-1))
           (ds_watch_index_remove (d_wd d) (tick s))
    else s in
  let s2 :=
    upd_dir dir dir_free_files
      (foldl (fun acc item =>
                ds_file_remove item (upd_file item (file_set_parent None) acc))
         s1 (d_files d)) in
  after_removal s s1 /\ after_removal s1 s2 /\
  after_removal s2 (ds_dir_remove (S fuel) dir s).
Proof.
  intros IH Hd s1 s2.
  assert (H1 : after_removal s s1).
  { subst s1. case_match; [|apply after_removal_refl].
    apply after_removal_upd_dir; [done|].
    unfold ds_watch_index_remove.
    split; [|split; [|split]]; wsimpl; [auto| |by right|eauto].
    intros e He. apply elem_of_List_filter in He. tauto. }
  assert (H2 : after_removal s1 s2).
  { subst s2. apply after_removal_upd_dir; [done|].
    apply after_removal_foldl. intros; apply orphan_remove_after. }
  split; [exact H1|]. split; [exact H2|].
  cbn [ds_dir_remove]. rewrite Hd. fold s1. fold s2.
  set (s3 := upd_dir dir dir_free_subdirs _).
  assert (H3 : after_removal s2 s3).
  { subst s3. apply after_removal_upd_dir; [done|].
    apply after_removal_foldl.
    intros acc x. eapply after_removal_trans; [|apply IH].
    apply after_removal_upd_dir; [done|]. apply after_removal_refl. }
  set (s4 := match d_parent d with Some _ => _ | None => s3 end).
  assert (H4 : after_removal s3 s4).
  { subst s4. repeat case_match; try apply after_removal_refl;
      (apply after_removal_upd_dir; [done|]); apply after_removal_refl. }
  set (s5 := ds_change_queue_dir_remove dir s4).
  assert (H5 : after_removal s4 s5).
  { subst s5. unfold ds_change_queue_dir_remove.
    repeat case_match; try apply after_removal_refl.
    split; [|split; [|split]]; wsimpl; [auto|auto| |eauto].
    right. apply cq_file_clear_dir. }
  set (s6 := if bool_decide (d_topdir d = Some dir) then _ else s5).
  assert (H6 : after_removal s5 s6).
  { subst s6. case_match; [|apply after_removal_refl].
    split; [|split; [|split]]; wsimpl; [auto| |by left|eauto].
    intros e He. by apply elem_of_nil in He. }
  eapply after_removal_trans; [exact H3|].
  eapply after_removal_trans; [exact H4|].
  eapply after_removal_trans; [exact H5|].
  eapply after_removal_trans; [exact H6|].
  apply after_removal_free_dir, after_removal_refl.
Qed.

Lemma ds_dir_remove_after fuel : forall dir s,
  after_removal s (ds_dir_remove fuel dir s).
Proof.
  induction fuel as [|fuel IH]; intros dir s; [apply after_removal_refl|].
  destruct (dirs s !! dir) as [d|] eqn:Hd.
  - destruct (ds_dir_remove_tail fuel dir s d IH Hd) as (H1 & H2 & H3).
    eapply after_removal_trans; [exact H1|].
    eapply after_removal_trans; [exact H2|exact H3].
  - cbn [ds_dir_remove]. rewrite Hd. apply after_removal_refl.
Qed.

Lemma ds_dir_remove_frees fuel dir s d :
  dirs s !! dir = Some d ->
  dirs (ds_dir_remove (S fuel) dir s) !! dir = None.
Proof.
  intros Hd. cbn [ds_dir_remove]. rewrite Hd. wsimpl. apply lookup_delete_eq.
Qed.

Lemma file_pointers_kept_refl s : file_pointers_kept s s.
Proof. by left. Qed.

Lemma file_pointers_kept_same s s' :
  change_queue s' = change_queue s -> file_pointers_kept s s'.
Proof. intros H. left. by rewrite H. Qed.

Lemma file_pointers_kept_trans s1 s2 s3 :
  after_removal s1 s2 -> after_removal s2 s3 ->
  file_pointers_kept s1 s2 -> file_pointers_kept s2 s3 ->
  file_pointers_kept s1 s3.
Proof.
  intros (_ & _ & _ & D1) (_ & _ & _ & D2) Q1 Q2.
  destruct Q1 as [Q1|(top & td & Htd & Htop & Hfree & Hq)].
  - destruct Q2 as [Q2|(top & td & Htd & Htop & Hfree & Hq)].
    + left. congruence.
    + right. destruct (D1 top td Htd) as (td1 & Htd1 & Ht1 & _).
      exists top, td1. split; [done|]. split; [congruence|done].
  - right. exists top, td. split; [done|]. split; [done|]. split.
    + destruct (dirs s3 !! top) as [d3|] eqn:E; [|done].
      destruct (D2 top d3 E) as (d2 & Hd2 & _). congruence.
    + destruct Q2 as [Q2|(_ & _ & _ & _ & _ & Q2)]; [|done].
      rewrite Hq in Q2. by apply fmap_nil_inv in Q2.
Qed.

Lemma file_pointers_kept_foldl {A} (step : watcher -> A -> watcher) l :
  (forall acc x, after_removal acc (step acc x)) ->
  (forall acc x, file_pointers_kept acc (step acc x)) ->
  forall s, file_pointers_kept s (foldl step s l).
Proof.
  intros Hafter Hstep. induction l as [|x l IH]; intros s; simpl.
  - apply file_pointers_kept_refl.
  - eapply file_pointers_kept_trans;
      [apply Hafter|by apply after_removal_foldl|apply Hstep|apply IH].
Qed.

(** The queue loses a file pointer in [ds_dir_remove] only with the queue
    itself, when a top level directory is freed. *)
Lemma ds_dir_remove_file_pointers fuel : forall dir s,
  file_pointers_kept s (ds_dir_remove fuel dir s).
Proof.
  induction fuel as [|fuel IH]; intros dir s;
    [apply file_pointers_kept_refl|].
  destruct (dirs s !! dir) as [d|] eqn:Hd.
  2:{ cbn [ds_dir_remove]. rewrite Hd. apply file_pointers_kept_refl. }
  destruct (decide (d_topdir d = Some dir)) as [Hself|Hother].
  { right. exists dir, d. split; [done|]. split; [done|].
    cbn [ds_dir_remove]. rewrite Hd.
    rewrite (bool_decide_eq_true_2 _ Hself). wsimpl.
    split; [apply lookup_delete_eq|done]. }
  destruct (ds_dir_remove_tail fuel dir s d (ds_dir_remove_after fuel) Hd)
    as (A1 & A2 & A3).
  cbn [ds_dir_remove] in *. rewrite Hd in *.
  rewrite (bool_decide_eq_false_2 _ Hother) in *.
  set (s1 := if (0 <=? d_wd d) && bool_decide (is_Some (d_topdir d))
                && (0 <=? fd_inotify s)
             then _ else s) in *.
  assert (H1 : file_pointers_kept s s1).
  { apply file_pointers_kept_same. subst s1. by case_match. }
  set (s2 := upd_dir dir dir_free_files _) in *.
  assert (H2 : file_pointers_kept s1 s2).
  { apply file_pointers_kept_same. subst s2. wsimpl.
    assert (forall l s0,
      change_queue
        (foldl (fun acc item =>
                  ds_file_remove item
                    (upd_file item (file_set_parent None) acc)) s0 l)
      = change_queue s0) as Hfold.
    { induction l as [|x l IHl]; intros s0; [done|]. cbn [foldl].
      rewrite IHl. by destruct (orphan_remove x s0) as (_ & _ & _ & Q & _). }
    apply Hfold. }
  set (s3 := upd_dir dir dir_free_subdirs _) in *.
  assert (A3' : after_removal s2 s3).
  { subst s3. apply after_removal_upd_dir; [done|].
    apply after_removal_foldl.
    intros acc x. eapply after_removal_trans; [|apply ds_dir_remove_after].
    apply after_removal_upd_dir; [done|]. apply after_removal_refl. }
  assert (H3 : file_pointers_kept s2 s3).
  { assert (file_pointers_kept s2
              (foldl (fun acc item =>
                        ds_dir_remove fuel item
                          (upd_dir item (dir_set_parent None) acc))
                 s2 (d_subdirs d))) as Hfold.
    { apply file_pointers_kept_foldl.
      - intros acc x. eapply after_removal_trans; [|apply ds_dir_remove_after].
        apply after_removal_upd_dir; [done|]. apply after_removal_refl.
      - intros acc x.
        apply (file_pointers_kept_trans _
                 (upd_dir x (dir_set_parent None) acc));
          [apply after_removal_upd_dir; [done|apply after_removal_refl]
          |apply ds_dir_remove_after
          |by apply file_pointers_kept_same
          |apply IH]. }
    destruct Hfold as [Hq|(top & td & Htd & Htop & Hfree & Hq)].
    - left. exact Hq.
    - right. exists top, td. split; [done|]. split; [done|]. subst s3. wsimpl.
      split; [|done]. by rewrite lookup_alter_None. }
  match goal with
  | |- file_pointers_kept s ?final =>
      assert (H4 : cq_file <$> change_queue final = cq_file <$> change_queue s3)
  end.
  { wsimpl. unfold ds_change_queue_dir_remove.
    repeat case_match; wsimpl; try done; by rewrite cq_file_clear_dir. }
  match goal with
  | |- file_pointers_kept s ?final =>
      assert (H5 : forall p, dirs s3 !! p = None -> dirs final !! p = None)
  end.
  { intros p Hp. wsimpl. apply lookup_delete_None. right.
    unfold ds_change_queue_dir_remove.
    repeat case_match; wsimpl; try done; by rewrite lookup_alter_None. }
  assert (H123 : file_pointers_kept s s3).
  { eapply file_pointers_kept_trans; [exact A1| |exact H1|].
    - eapply after_removal_trans; [exact A2|exact A3'].
    - eapply file_pointers_kept_trans; [exact A2|exact A3'|exact H2|exact H3]. }
  destruct H123 as [Hq|(top & td & Htd & Htop & Hfree & Hq)].
  - left. by rewrite H4.
  - right. exists top, td. split; [done|]. split; [done|].
    split; [by apply H5|]. rewrite Hq in H4. by apply fmap_nil_inv in H4.
Qed.

(** X6: [ds_dir_remove] frees the files of the directory without clearing
    the queue entries that point to them.  Every slot of the queue keeps
    its file pointer, also a pointer to a file that is now freed; the one
    exception is a removal that frees a top level directory, a directory
    that is its own [topdir], which frees the queue with it.  So when
    every top level directory is still there afterwards, and when there is
    none, the file pointers are the same. *)
Theorem ds_dir_remove_leaves_file_entries fuel dir s d file :
  dirs s !! dir = Some d ->
  file ∈ d_files d ->
  let s' := ds_dir_remove (S fuel) dir s in
  files s' !! file = None /\
  (cq_file <$> change_queue s' = cq_file <$> change_queue s \/
   exists top td,
     dirs s !! top = Some td /\ d_topdir td = Some top /\
     dirs s' !! top = None /\ change_queue s' = []) /\
  ((forall top td, dirs s !! top = Some td -> d_topdir td = Some top ->
                   is_Some (dirs s' !! top)) ->
   cq_file <$> change_queue s' = cq_file <$> change_queue s) /\
  (d_topdir d = Some dir -> change_queue s' = []).
Proof.
  intros Hd Hin s'.
  pose proof (ds_dir_remove_file_pointers (S fuel) dir s) as Hkept.
  fold s' in Hkept.
  split; [|split; [exact Hkept|split]].
  - destruct (ds_dir_remove_tail fuel dir s d (ds_dir_remove_after fuel) Hd)
      as (_ & _ & (F & _)).
    apply F. wsimpl. by apply orphans_freed.
  - intros Hstay. destruct Hkept as [Hq|(top & td & Htd & Htop & Hfree & _)];
      [exact Hq|].
    destruct (Hstay top td Htd Htop) as [? Hsome]. congruence.
  - intros Hself. subst s'. cbn [ds_dir_remove]. rewrite Hd.
    by rewrite (bool_decide_eq_true_2 _ Hself).
Qed.

(** X7: [ds_dir_remove] on a watched directory frees it and takes its watch
    descriptor out of the watch index; no entry is added to the index. *)
Theorem ds_dir_remove_unwatches fuel dir s d :
  dirs s !! dir = Some d ->
  0 <= d_wd d ->
  is_Some (d_topdir d) ->
  0 <= fd_inotify s ->
  let s' := ds_dir_remove (S fuel) dir s in
  dirs s' !! dir = None /\
  forall e, e ∈ watch_index s' -> wi_wd e <> d_wd d /\ e ∈ watch_index s.
Proof.
  intros Hd Hwd Htop Hfd s'. split; [by eapply ds_dir_remove_frees|].
  intros e He.
  destruct (ds_dir_remove_tail fuel dir s d (ds_dir_remove_after fuel) Hd)
    as (_ & (_ & W2 & _) & (_ & W3 & _)).
  apply W3, W2 in He. clear W2 W3.
  rewrite (proj2 (Z.leb_le _ _) Hwd), (proj2 (Z.leb_le _ _) Hfd),
    bool_decide_eq_true_2 in He by done.
  cbn [andb] in He. unfold ds_watch_index_remove in He. wsimpl.
  apply elem_of_List_filter in He as [He Hne]. split; [|exact He].
  apply negb_true_iff, Z.eqb_neq in Hne. exact Hne.
Qed.

(** X8: [ds_dir_scan] fails exactly when the directory is deeper than the
    limit or [lstat] or [scandir] fails on it, and a failed scan has freed
    the directory. *)
Theorem ds_dir_scan_failure_removes fuel dir no_recurse s d :
  dirs s !! dir = Some d ->
  let r := ds_dir_scan os max_directory_depth excludes (S fuel) dir no_recurse s in
  (fst r <> 0 <->
   (d_depth d > max_directory_depth \/
    sys_lstat os (syscalls s) (d_absolute_path d) = None \/
    sys_scandir os (S (syscalls s)) (d_absolute_path d) = None)) /\
  (fst r <> 0 -> dirs (snd r) !! dir = None).
Proof.
  intros Hd r. subst r. cbn [ds_dir_scan]. rewrite Hd.
  destruct (d_depth d >? max_directory_depth) eqn:Edepth.
  { split; [|intros _; by eapply ds_dir_remove_frees].
    split; [intros _; left; lia|done]. }
  destruct (sys_lstat os (syscalls s) (d_absolute_path d)) as [dirsb|] eqn:El.
  2:{ split; [|intros _; by eapply ds_dir_remove_frees].
      split; [intros _; right; by left|done]. }
  destruct (sys_scandir os (S (syscalls s)) (d_absolute_path d))
    as [entries|] eqn:Es.
  2:{ split; [|intros _; by eapply ds_dir_remove_frees].
      split; [intros _; right; by right|done]. }
  cbn [fst]. split; [|done]. split; [done|].
  intros [H|[H|H]]; [lia|done|done].
Qed.

End Nodes.

(** *** The watch index *)

Lemma compare_zero a b : ds_watch_index_compare a b = 0 <-> wi_wd a = wi_wd b.
Proof.
  unfold ds_watch_index_compare.
  destruct (wi_wd a <? wi_wd b) eqn:E1; [lia|].
  destruct (wi_wd a >? wi_wd b) eqn:E2; lia.
Qed.

Lemma compare_le a b : ds_watch_index_compare a b <= 0 <-> wi_wd a <= wi_wd b.
Proof.
  unfold ds_watch_index_compare.
  destruct (wi_wd a <? wi_wd b) eqn:E1; [lia|].
  destruct (wi_wd a >? wi_wd b) eqn:E2; lia.
Qed.

Lemma insert_sorted_perm x l :
  insert_sorted ds_watch_index_compare x l ≡ₚ x :: l.
Proof.
  induction l as [|y l IH]; [done|]. simpl.
  destruct (ds_watch_index_compare x y <=? 0); [done|].
  rewrite IH. apply Permutation_swap.
Qed.

Lemma index_sorted_cons x l :
  Forall (fun y => wi_wd x <= wi_wd y) l -> index_sorted l ->
  index_sorted (x :: l).
Proof.
  intros Hx Hl i j a b Hij Hi Hj.
  destruct i as [|i]; destruct j as [|j]; simpl in *; try lia.
  - injection Hi as <-. injection Hj as <-. lia.
  - injection Hi as <-. rewrite Forall_forall in Hx. apply Hx.
    by eapply list_elem_of_lookup_2.
  - apply (Hl i j); [lia|done|done].
Qed.

Lemma index_sorted_inv x l :
  index_sorted (x :: l) ->
  Forall (fun y => wi_wd x <= wi_wd y) l /\ index_sorted l.
Proof.
  intros H. split.
  - apply Forall_forall. intros y Hy.
    apply list_elem_of_lookup_1 in Hy as [j Hj].
    apply (H 0%nat (S j)); [lia|done|done].
  - intros i j a b Hij Hi Hj. apply (H (S i) (S j)); [lia|done|done].
Qed.

Lemma insert_sorted_sorted x l :
  index_sorted l -> index_sorted (insert_sorted ds_watch_index_compare x l).
Proof.
  induction l as [|y l IH]; intros Hl.
  - apply index_sorted_cons; [constructor|]. intros i j a b _ Hi. done.
  - simpl. apply index_sorted_inv in Hl as Hinv. destruct Hinv as [Hy Hl'].
    destruct (ds_watch_index_compare x y <=? 0) eqn:E.
    + apply Z.leb_le, compare_le in E.
      apply index_sorted_cons; [|exact Hl].
      constructor; [exact E|]. eapply Forall_impl; [exact Hy|].
      simpl. intros; lia.
    + apply Z.leb_gt in E. assert (wi_wd y <= wi_wd x).
      { destruct (decide (wi_wd x <= wi_wd y)) as [Hle|]; [|lia].
        apply compare_le in Hle. lia. }
      apply index_sorted_cons; [|by apply IH].
      rewrite insert_sorted_perm. by constructor.
Qed.

(** Insertion sort and a search from the front keep the promises of
    [qsort] and [bsearch]. *)
Lemma insertion_sort_contract :
  libc_sorting (@insertion_sort _) (@first_equal _).
Proof.
  split.
  - induction l as [|x l IH]; [done|]. cbn [insertion_sort foldr].
    rewrite insert_sorted_perm. by constructor.
  - induction l as [|x l IH].
    + intros i j a b _ Hi. done.
    + cbn [insertion_sort foldr]. by apply insert_sorted_sorted.
  - intros key l e _ H. unfold first_equal in H.
    apply find_some in H as [Hin Heq]. split; [by apply list_elem_of_In|].
    apply Z.eqb_eq, compare_zero in Heq. done.
  - intros key l e _ H Hin Heq. unfold first_equal in H.
    apply list_elem_of_In in Hin.
    pose proof (find_none _ _ H e Hin) as Hne. cbv beta in Hne.
    apply Z.eqb_neq in Hne. apply Hne, compare_zero. done.
Qed.

Section Index.

Variable qsort : (ds_watch_index_s -> ds_watch_index_s -> Z) ->
                 list ds_watch_index_s -> list ds_watch_index_s.
Variable bsearch : (ds_watch_index_s -> ds_watch_index_s -> Z) ->
                   ds_watch_index_s -> list ds_watch_index_s ->
                   option ds_watch_index_s.

Hypothesis libc : libc_sorting qsort bsearch.

(** What a lookup returns, and what it leaves of the state. *)
Lemma ds_watch_index_lookup_spec wd s :
  index_flag_ok s ->
  let r := ds_watch_index_lookup qsort bsearch wd s in
  (forall dir, fst r = Some dir -> mk_watch wd dir ∈ watch_index s) /\
  (fst r = None -> forall e, e ∈ watch_index s -> wi_wd e <> wd) /\
  watch_index (snd r) ≡ₚ watch_index s /\
  index_flag_ok (snd r) /\
  files (snd r) = files s /\ dirs (snd r) = dirs s /\
  change_queue (snd r) = change_queue s /\
  changed_paths (snd r) = changed_paths s /\
  syscalls (snd r) = syscalls s /\ fd_inotify (snd r) = fd_inotify s.
Proof.
  intros Hflag r. subst r. unfold ds_watch_index_lookup.
  destruct (watch_index s) as [|e0 l0] eqn:Hl.
  { cbn [fst snd]. rewrite Hl. repeat split; try done.
    intros _ e He. by apply elem_of_nil in He. }
  rewrite <- Hl. clear e0 l0 Hl.
  set (s1 := if watch_index_unsorted s then _ else s).
  assert (Hperm : watch_index s1 ≡ₚ watch_index s).
  { subst s1. destruct (watch_index_unsorted s); [|done].
    apply (qsort_permutation _ _ libc). }
  assert (Hsorted : index_sorted (watch_index s1)).
  { subst s1. destruct (watch_index_unsorted s) eqn:Hu.
    - apply (qsort_sorted _ _ libc).
    - by apply Hflag. }
  assert (Hsame : files s1 = files s /\ dirs s1 = dirs s /\
                  change_queue s1 = change_queue s /\
                  changed_paths s1 = changed_paths s /\
                  syscalls s1 = syscalls s /\ fd_inotify s1 = fd_inotify s).
  { subst s1. by destruct (watch_index_unsorted s). }
  cbn [fst snd].
  destruct (bsearch ds_watch_index_compare (mk_watch wd 0%nat) (watch_index s1))
    as [e|] eqn:Eb; cbn [fmap option_fmap option_map].
  - apply (bsearch_found _ _ libc) in Eb as [Hin Hwd]; [|done].
    cbn [wi_wd] in Hwd. split; [|split; [done|]].
    + intros dir [= <-]. rewrite <- Hperm. destruct e as [w p].
      cbn [wi_wd wi_dir] in *. by subst w.
    + split; [done|]. split; [intros _; done|done].
  - split; [done|]. split.
    + intros _ e He. rewrite <- Hperm in He.
      by apply (bsearch_missing _ _ libc (mk_watch wd 0%nat) _ e Hsorted Eb).
    + split; [done|]. split; [intros _; done|done].
Qed.

(** X9: the watch index round trip.  A directory registered under a
    descriptor that is not yet in the index is what a lookup of that
    descriptor returns; once the descriptor is removed a lookup returns
    NULL. *)
Theorem watch_index_round_trip dir wd s d :
  dirs s !! dir = Some d ->
  is_Some (d_topdir d) ->
  0 <= wd ->
  (forall e, e ∈ watch_index s -> wi_wd e <> wd) ->
  let s1 := ds_watch_index_add dir wd s in
  fst (ds_watch_index_lookup qsort bsearch wd s1) = Some dir /\
  fst (ds_watch_index_lookup qsort bsearch wd (ds_watch_index_remove wd s1))
    = None.
Proof.
  intros Hd [top Htop] Hwd Hnew s1.
  assert (Hidx : watch_index s1 = watch_index s ++ [mk_watch wd dir]).
  { subst s1. unfold ds_watch_index_add. rewrite Hd, Htop.
    destruct (wd <? 0) eqn:E; [lia|]. reflexivity. }
  assert (Hflag1 : index_flag_ok s1).
  { subst s1. unfold ds_watch_index_add. rewrite Hd, Htop.
    destruct (wd <? 0) eqn:E; [lia|]. intros Hu. discriminate Hu. }
  split.
  - destruct (ds_watch_index_lookup_spec wd s1 Hflag1) as (Hsome & Hnone & _).
    destruct (fst (ds_watch_index_lookup qsort bsearch wd s1)) as [found|].
    + specialize (Hsome found eq_refl). rewrite Hidx in Hsome.
      apply elem_of_app in Hsome as [Hold|Hlast].
      * by apply Hnew in Hold.
      * apply list_elem_of_singleton in Hlast. by injection Hlast as ->.
    + exfalso. apply (Hnone eq_refl (mk_watch wd dir)); [|done].
      rewrite Hidx. apply elem_of_app. right. by constructor.
  - assert (Hflag2 : index_flag_ok (ds_watch_index_remove wd s1)).
    { intros Hu. discriminate Hu. }
    destruct (ds_watch_index_lookup_spec wd _ Hflag2) as (Hsome & _).
    destruct (fst (ds_watch_index_lookup qsort bsearch wd
                     (ds_watch_index_remove wd s1))) as [found|]; [|done].
    specialize (Hsome found eq_refl). unfold ds_watch_index_remove in Hsome.
    wsimpl. apply elem_of_List_filter in Hsome as [_ Hne].
    cbn [wi_wd] in Hne. by rewrite Z.eqb_refl in Hne.
Qed.

End Index.

(** *** The theorems on the example trees *)

Lemma ds_file_add_twice_witness :
  exists file f s1,
    ds_file_add top "b.txt" watching_a = (Some file, s1) /\
    files s1 !! file = Some f /\ f_leaf f = "b.txt" /\ listed s1 top file /\
    ds_file_add top "b.txt" s1 = (Some file, s1).
Proof.
  apply (ds_file_add_twice top "b.txt" watching_a (top_dir [file_a]));
    [reflexivity|reflexivity|].
  intros H. apply list_elem_of_singleton in H. discriminate H.
Defined.

Lemma watching_sub_depth_ok : depth_ok 20 (watching_sub []).
Proof.
  intros dir d Hd. cbn [watching_sub dirs] in Hd.
  apply lookup_insert_Some in Hd as [[<- <-]|[_ Hd]].
  { cbn [d_depth d_parent]. split; [lia|]. intros parent H. discriminate H. }
  apply lookup_insert_Some in Hd as [[<- <-]|[_ Hd]].
  { unfold sub_dir. cbn [d_depth d_parent]. split; [lia|].
    intros parent [= <-]. eexists. split; [reflexivity|]. reflexivity. }
  by rewrite lookup_empty in Hd.
Qed.

Lemma ds_dir_add_keeps_depth_witness :
  depth_ok 20 (snd (ds_dir_add 20 sub "new" (watching_sub []))) /\
  (forall d, dirs (watching_sub []) !! sub = Some d -> 20 <= d_depth d ->
             ds_dir_add 20 sub "new" (watching_sub []) = (None, watching_sub [])).
Proof.
  apply (ds_dir_add_keeps_depth 20 sub "new" (watching_sub []));
    [exact watching_sub_depth_ok | reflexivity].
Defined.

Lemma ds_file_remove_clears_queue_witness :
  files (ds_file_remove file_b (watching [later_b; due_a] [])) !! file_b = None /\
  change_queue (ds_file_remove file_b (watching [later_b; due_a] []))
    = clear_file file_b <$> [later_b; due_a] /\
  (forall e, e ∈ change_queue (ds_file_remove file_b (watching [later_b; due_a] [])) ->
             cq_file e <> Some file_b).
Proof.
  apply (ds_file_remove_clears_queue file_b (watching [later_b; due_a] [])
           b_txt top (top_dir [file_a; file_b]));
    [reflexivity|reflexivity|reflexivity|by eexists].
Defined.

Lemma ds_dir_remove_leaves_file_entries_witness :
  files (ds_dir_remove 2 sub (watching_sub [later_x])) !! file_x = None /\
  cq_file <$> change_queue (ds_dir_remove 2 sub (watching_sub [later_x]))
    = [Some file_x].
Proof.
  destruct (ds_dir_remove_leaves_file_entries 1 sub (watching_sub [later_x])
              sub_dir file_x) as (Hfreed & _ & Hkept & _).
  - reflexivity.
  - by constructor.
  - split; [exact Hfreed|]. apply Hkept. intros p td Hp Htop.
    unfold watching_sub in Hp. cbn [dirs] in Hp.
    apply lookup_insert_Some in Hp as [[<- <-]|[_ Hp]].
    + vm_compute. eauto.
    + apply lookup_insert_Some in Hp as [[<- <-]|[_ Hp]]; [discriminate|].
      by rewrite lookup_empty in Hp.
Defined.

Lemma ds_dir_remove_unwatches_witness :
  dirs (ds_dir_remove 2 sub (watching_sub [])) !! sub = None /\
  forall e, e ∈ watch_index (ds_dir_remove 2 sub (watching_sub [])) ->
            wi_wd e <> 6 /\ e ∈ watch_index (watching_sub []).
Proof.
  apply (ds_dir_remove_unwatches 1 sub (watching_sub []) sub_dir);
    [reflexivity|simpl; lia|by eexists|simpl; lia].
Defined.

Lemma ds_dir_scan_failure_removes_witness :
  (fst (ds_dir_scan os0 20 [] 2 sub false (watching_sub [])) <> 0 <->
   (1 > 20 \/
    sys_lstat os0 0%nat "/top/sub" = None \/
    sys_scandir os0 1%nat "/top/sub" = None)) /\
  (fst (ds_dir_scan os0 20 [] 2 sub false (watching_sub [])) <> 0 ->
   dirs (snd (ds_dir_scan os0 20 [] 2 sub false (watching_sub []))) !! sub = None).
Proof.
  apply (ds_dir_scan_failure_removes os0 20 [] 1 sub false (watching_sub []) sub_dir).
  reflexivity.
Defined.

Lemma watch_index_round_trip_witness :
  fst (ds_watch_index_lookup (@insertion_sort _) (@first_equal _) 9
         (ds_watch_index_add sub 9 (watching_sub []))) = Some sub /\
  fst (ds_watch_index_lookup (@insertion_sort _) (@first_equal _) 9
         (ds_watch_index_remove 9 (ds_watch_index_add sub 9 (watching_sub []))))
    = None.
Proof.
  apply (watch_index_round_trip (@insertion_sort _) (@first_equal _)
           insertion_sort_contract sub 9 (watching_sub []) sub_dir);
    [reflexivity|by eexists|lia|].
  intros e He. cbn [watching_sub watch_index] in He.
  apply elem_of_cons in He as [->|He]; [simpl; lia|].
  apply list_elem_of_singleton in He as ->. simpl; lia.
Defined.

End WatchNodes.

(** ** watch.c: the change queue *)

Module WatchQueue.
Import Common Watch WatchEvents Examples WatchProps CommonProps WatchNodes.

Section Queue.

Variable os : system.
Variable max_directory_depth : Z.
Variable excludes : list (option string).

Lemma queued_file_found file q :
  (exists e, e ∈ q /\ cq_file e = Some file) ->
  existsb (already_queued (Some file) None) q = true.
Proof.
  intros (e & He & Hfile). apply existsb_exists. exists e.
  split; [by apply list_elem_of_In|].
  unfold already_queued. by rewrite bool_decide_eq_true_2.
Qed.

Lemma unqueued_file_not_found file q :
  (forall e, e ∈ q -> cq_file e <> Some file) ->
  existsb (already_queued (Some file) None) q = false.
Proof.
  intros Hno. apply not_true_is_false. intros H.
  apply existsb_exists in H as (e & He & Hq).
  apply list_elem_of_In in He. unfold already_queued in Hq.
  rewrite orb_false_r in Hq. apply bool_decide_eq_true_1 in Hq.
  by apply (Hno e).
Qed.

(** X10: events for one file are coalesced.  The first queues one recheck
    two seconds ahead; while that entry is in the queue, queueing the file
    again, for whatever time, leaves the queue as it is. *)
Theorem change_queue_file_add_coalesces file s f parent pd :
  files s !! file = Some f ->
  f_parent f = Some parent ->
  dirs s !! parent = Some pd ->
  is_Some (d_topdir pd) ->
  (forall e, e ∈ change_queue s -> cq_file e <> Some file) ->
  let s1 := ds_change_queue_file_add os file 0 s in
  change_queue s1 =
    change_queue s ++ [mk_change (sys_time os (syscalls s) + 2) (Some file) None] /\
  forall when2,
    change_queue (ds_change_queue_file_add os file when2 s1) = change_queue s1.
Proof.
  intros Hf Hparent Hpd [top Htop] Hnew s1.
  assert (Hs1 : s1 = set_change_queue
            (change_queue s ++
               [mk_change (sys_time os (syscalls s) + 2) (Some file) None])
            (tick s)).
  { subst s1. unfold ds_change_queue_file_add. rewrite Hf, Hparent, Hpd, Htop.
    cbn [Z.eqb]. unfold _ds_change_queue_add. wsimpl.
    by rewrite unqueued_file_not_found. }
  split; [by rewrite Hs1|].
  intros when2. rewrite Hs1. unfold ds_change_queue_file_add. wsimpl.
  rewrite Hf, Hparent, Hpd, Htop.
  assert (Hin : forall q0 : list ds_change_queue_s,
    existsb (already_queued (Some file) None)
      (q0 ++ [mk_change (sys_time os (syscalls s) + 2) (Some file) None]) = true).
  { intros q0. apply queued_file_found.
    exists (mk_change (sys_time os (syscalls s) + 2) (Some file) None).
    split; [|reflexivity]. apply elem_of_app. right. by constructor. }
  destruct (when2 =? 0); unfold _ds_change_queue_add; wsimpl;
    by rewrite Hin.
Qed.

(** The write index of the queue run never passes the read index. *)
Lemma process_loop_write_index fuel work_until :
  forall n readidx writeidx s w s',
  (writeidx <= readidx)%nat ->
  process_loop os max_directory_depth excludes fuel n work_until
    readidx writeidx s = Some (w, s') ->
  (w <= readidx + n)%nat.
Proof.
  induction n as [|n IH]; intros readidx writeidx s w s' Hle Hloop;
    cbn [process_loop] in Hloop.
  - injection Hloop as <- <-. lia.
  - destruct (change_queue s !! readidx) as [entry|];
      [|injection Hloop as <- <-; lia].
    assert (forall r w0 s0, (w0 <= S readidx)%nat ->
              process_loop os max_directory_depth excludes fuel n work_until
                (S readidx) w0 s0 = Some r -> r = (w, s') ->
              (w <= readidx + S n)%nat) as Hnext.
    { intros r w0 s0 Hw0 Hr ->. apply IH in Hr; lia. }
    destruct (cq_file entry) as [file|] eqn:Ef;
      [|destruct (cq_dir entry) as [dir|] eqn:Ed].
    + destruct ((when entry >? sys_time os (syscalls s))
                || (sys_time os (syscalls s) >=? work_until)).
      * case_bool_decide; (eapply Hnext; [|exact Hloop|reflexivity]); lia.
      * destruct (process_file_entry os file _); [|discriminate].
        eapply Hnext; [|exact Hloop|reflexivity]. lia.
    + destruct ((when entry >? sys_time os (syscalls s))
                || (sys_time os (syscalls s) >=? work_until)).
      * case_bool_decide; (eapply Hnext; [|exact Hloop|reflexivity]); lia.
      * cbv zeta in Hloop. destruct (dirs _ !! dir); [|discriminate].
        destruct (topdir_freed _ _); [discriminate|].
        eapply Hnext; [|exact Hloop|reflexivity]. lia.
    + eapply Hnext; [|exact Hloop|reflexivity]. lia.
Qed.

(** X11: a queue run that reads no freed memory never lengthens the
    queue: the write index stays at or below the read index, so the
    entries copied down and the final length stay within the entries
    already read. *)
Theorem queue_process_never_grows fuel work_until s s' :
  ds_change_queue_process os max_directory_depth excludes fuel work_until s
    = Some s' ->
  (length (change_queue s') <= length (change_queue s))%nat.
Proof.
  unfold ds_change_queue_process.
  destruct (change_queue s) as [|e q] eqn:Hq; [intros [= <-]; by rewrite Hq|].
  rewrite <- Hq.
  destruct (process_loop os max_directory_depth excludes fuel
              (length (change_queue s)) work_until 0 0 s)
    as [[writeidx s'']|] eqn:Hloop; [|discriminate].
  intros [= <-].
  apply process_loop_write_index in Hloop; [|lia].
  wsimpl. rewrite length_take. lia.
Qed.

Lemma changed_paths_mark path isdir s s' :
  changed_paths s' = changed_paths s ->
  changed_paths (mark_path_changed path isdir s')
  = changed_paths (mark_path_changed path isdir s).
Proof.
  intros H. unfold mark_path_changed. rewrite H.
  by destruct (existsb _ (changed_paths s)).
Qed.

Lemma changed_paths_file_remove file s :
  changed_paths (ds_file_remove file s) = changed_paths s.
Proof.
  unfold ds_file_remove, ds_change_queue_file_remove.
  repeat case_match; reflexivity.
Qed.

(** X12: a queue run on a due recheck of a file.  The entry leaves the
    queue.  When the file is regular with the stored time and size nothing
    is marked; when they differ they are stored and the file's own path is
    marked; when the file is gone or not regular its node is freed and the
    path of its directory is marked, with a trailing slash. *)
Theorem queue_run_rechecks_file fuel work_until s file f parent pd w :
  change_queue s = [mk_change w (Some file) None] ->
  files s !! file = Some f ->
  f_parent f = Some parent ->
  dirs s !! parent = Some pd ->
  is_Some (d_topdir pd) ->
  w <= sys_time os (syscalls s) < work_until ->
  exists s',
    ds_change_queue_process os max_directory_depth excludes fuel
      work_until s = Some s' /\
    change_queue s' = [] /\
    match sys_lstat os (S (syscalls s)) (f_absolute_path f) with
    | Some sb =>
        if S_ISREG (st_mode sb) then
          if (st_mtime sb =? f_mtime f) && (st_size sb =? f_size f)
          then files s' !! file = Some f /\
               changed_paths s' = changed_paths s
          else files s' !! file
                 = Some (file_set_stat (st_mtime sb) (st_size sb) f) /\
               changed_paths s'
                 = changed_paths (mark_path_changed (f_path f) false s)
        else files s' !! file = None /\
             changed_paths s'
               = changed_paths (mark_path_changed (d_path pd) true s)
    | None => files s' !! file = None /\
              changed_paths s'
                = changed_paths (mark_path_changed (d_path pd) true s)
    end.
Proof.
  intros Hq Hf Hparent Hpd [top Htop] Hdue.
  unfold ds_change_queue_process. rewrite Hq. cbn [length process_loop].
  rewrite Hq. cbn [lookup list_lookup cq_file cq_dir when].
  assert (Hdue' : (w >? sys_time os (syscalls s))
                  || (sys_time os (syscalls s) >=? work_until) = false).
  { apply orb_false_iff. split.
    - rewrite Z.gtb_ltb. apply Z.ltb_ge. lia.
    - rewrite Z.geb_leb. apply Z.leb_gt. lia. }
  rewrite Hdue'.
  set (sA := set_change_queue _ (tick s)).
  assert (HfA : files sA = files s) by reflexivity.
  assert (HdA : dirs sA = dirs s) by reflexivity.
  assert (HpA : changed_paths sA = changed_paths s) by reflexivity.
  assert (HtA : syscalls sA = S (syscalls s)) by reflexivity.
  destruct (process_file_entry_defined os file sA f parent) as [r Hr];
    [by rewrite HfA|done|by rewrite HdA, Hpd|].
  rewrite Hr. apply process_file_entry_spec in Hr.
  exists (set_change_queue (take 0 (change_queue r)) r).
  split; [reflexivity|]. split; [reflexivity|].
  change (
    match sys_lstat os (S (syscalls s)) (f_absolute_path f) with
    | Some sb =>
        if S_ISREG (st_mode sb) then
          if (st_mtime sb =? f_mtime f) && (st_size sb =? f_size f)
          then files r !! file = Some f /\ changed_paths r = changed_paths s
          else files r !! file
                 = Some (file_set_stat (st_mtime sb) (st_size sb) f) /\
               changed_paths r
                 = changed_paths (mark_path_changed (f_path f) false s)
        else files r !! file = None /\
             changed_paths r
               = changed_paths (mark_path_changed (d_path pd) true s)
    | None => files r !! file = None /\
              changed_paths r
                = changed_paths (mark_path_changed (d_path pd) true s)
    end).
  assert (Hgone :
    ds_file_checkchanged os file sA = (-1, tick sA) ->
    files r !! file = None /\
    changed_paths r = changed_paths (mark_path_changed (d_path pd) true s)).
  { intros Hc. subst r. rewrite Hc.
    cbn [Z.ltb Z.compare]. unfold parent_path. wsimpl.
    rewrite HfA, Hf, Hparent, HdA, Hpd, Htop. split.
    - unfold ds_file_remove.
      replace (files (mark_path_changed (d_path pd) true (tick sA)))
        with (files s).
      2:{ unfold mark_path_changed. by case_match. }
      rewrite Hf. wsimpl. apply lookup_delete_eq.
    - rewrite changed_paths_file_remove. by apply changed_paths_mark. }
  destruct (sys_lstat os (S (syscalls s)) (f_absolute_path f)) as [sb|] eqn:El.
  2:{ apply Hgone. apply (checkchanged_gone os sA file f); [by rewrite HfA|].
      by rewrite HtA, El. }
  destruct (S_ISREG (st_mode sb)) eqn:Ereg.
  2:{ apply Hgone. apply (checkchanged_gone os sA file f); [by rewrite HfA|].
      by rewrite HtA, El. }
  subst r. unfold ds_file_checkchanged.
  rewrite HfA, Hf, HtA, El, Ereg. cbn [negb].
  destruct ((st_mtime sb =? f_mtime f) && (st_size sb =? f_size f)).
  - cbn [Z.ltb Z.compare].
    split; [rewrite <- Hf; reflexivity | reflexivity].
  - cbn [Z.ltb Z.compare]. unfold own_path, parent_path.
    set (sB := upd_file file _ (tick sA)).
    assert (HfB : files sB !! file
                  = Some (file_set_stat (st_mtime sb) (st_size sb) f)).
    { subst sB. unfold upd_file. cbn [files set_files tick].
      by rewrite lookup_alter_eq, HfA, Hf. }
    assert (HdB : dirs sB = dirs s) by reflexivity.
    assert (HpB : changed_paths sB = changed_paths s) by reflexivity.
    rewrite HfB. cbn [f_parent file_set_stat f_path].
    rewrite Hparent, HdB, Hpd, Htop. split.
    + rewrite <- HfB. unfold mark_path_changed.
      by destruct (existsb _ (changed_paths sB)).
    + by apply changed_paths_mark.
Qed.

End Queue.

Lemma change_queue_file_add_coalesces_witness :
  change_queue (ds_change_queue_file_add os0 file_a 0 (watching [later_b] []))
    = [later_b] ++ [mk_change (1000 + 2) (Some file_a) None] /\
  forall when2,
    change_queue
      (ds_change_queue_file_add os0 file_a when2
         (ds_change_queue_file_add os0 file_a 0 (watching [later_b] [])))
    = change_queue (ds_change_queue_file_add os0 file_a 0 (watching [later_b] [])).
Proof.
  apply (change_queue_file_add_coalesces os0 file_a (watching [later_b] [])
           a_txt top (top_dir [file_a; file_b]));
    [reflexivity|reflexivity|reflexivity|by eexists|].
  intros e He. apply list_elem_of_singleton in He as ->. discriminate.
Defined.

Lemma queue_process_never_grows_witness :
  exists s',
    ds_change_queue_process os0 20 [] 4 1005
      (watching [due_a; rescan_top; later_b] []) = Some s' /\
    (length (change_queue s') <= 3)%nat.
Proof.
  destruct (ds_change_queue_process os0 20 [] 4 1005
              (watching [due_a; rescan_top; later_b] [])) as [s'|] eqn:Hrun.
  - exists s'. split; [reflexivity|].
    apply (queue_process_never_grows os0 20 [] 4 1005
             (watching [due_a; rescan_top; later_b] []) s' Hrun).
  - vm_compute in Hrun. discriminate.
Defined.

Lemma queue_run_rechecks_file_witness :
  exists s',
    ds_change_queue_process os0 20 [] 4 1005 (watching [due_a] []) = Some s' /\
    change_queue s' = [] /\
    files s' !! file_a = Some (file_set_stat 100 8 a_txt) /\
    changed_paths s'
      = changed_paths (mark_path_changed "a.txt" false (watching [due_a] [])).
Proof.
  apply (queue_run_rechecks_file os0 20 [] 4 1005 (watching [due_a] [])
           file_a a_txt top (top_dir [file_a; file_b]) 990);
    [reflexivity|reflexivity|reflexivity|reflexivity|by eexists|simpl; lia].
Defined.

End WatchQueue.

(** ** watch.c: inotify events and the changed paths *)

Module WatchEventProps.
Import Common Watch WatchEvents Examples WatchProps CommonProps WatchNodes
  WatchQueue.

Lemma mark_frame path isdir s :
  files (mark_path_changed path isdir s) = files s /\
  dirs (mark_path_changed path isdir s) = dirs s /\
  change_queue (mark_path_changed path isdir s) = change_queue s /\
  watch_index (mark_path_changed path isdir s) = watch_index s /\
  syscalls (mark_path_changed path isdir s) = syscalls s.
Proof. unfold mark_path_changed. by case_match. Qed.

Lemma existsb_streq (l : list string) (p : string) : existsb (fun q => streq q p) l = true <-> p ∈ l.
Proof.
  rewrite existsb_exists. split.
  - intros (q & Hq & Heq). apply streq_true in Heq as ->.
    by apply list_elem_of_In.
  - intros Hin. exists p. split; [by apply list_elem_of_In|].
    by apply streq_true.
Qed.

Lemma mark_listed path (isdir : bool) s :
  path +:+ (if isdir then "/" else "") ∈
    changed_paths (mark_path_changed path isdir s).
Proof.
  unfold mark_path_changed.
  destruct (existsb _ (changed_paths s)) eqn:E.
  - by apply existsb_streq.
  - wsimpl. apply elem_of_app. right. by constructor.
Qed.

Lemma mark_nodup path isdir s :
  NoDup (changed_paths s) ->
  NoDup (changed_paths (mark_path_changed path isdir s)).
Proof.
  intros Hnd. unfold mark_path_changed.
  destruct (existsb _ (changed_paths s)) eqn:E; [done|]. wsimpl.
  apply NoDup_app. split; [done|]. split; [|apply NoDup_singleton].
  intros p Hp Hq. apply list_elem_of_singleton in Hq as ->.
  apply existsb_streq in Hp. congruence.
Qed.

(** X13: [mark_path_changed] keeps the changed paths a set.  The path,
    with a slash appended for a directory, is in the list afterwards; the
    paths listed before keep their places; a list without duplicates stays
    without; and marking the same path again changes nothing. *)
Theorem mark_path_changed_set path (isdir : bool) s :
  let savepath := path +:+ (if isdir then "/" else "") in
  let s' := mark_path_changed path isdir s in
  savepath ∈ changed_paths s' /\
  (changed_paths s' = changed_paths s \/
   changed_paths s' = changed_paths s ++ [savepath]) /\
  (NoDup (changed_paths s) -> NoDup (changed_paths s')) /\
  mark_path_changed path isdir s' = s'.
Proof.
  intros savepath s'. split; [apply mark_listed|].
  split; [|split; [apply mark_nodup|]].
  - subst s'. unfold mark_path_changed.
    destruct (existsb _ (changed_paths s)); [by left|by right].
  - pose proof (mark_listed path isdir s) as Hin.
    apply existsb_streq in Hin. fold s' in Hin.
    unfold mark_path_changed at 1. by rewrite Hin.
Qed.

Lemma mark_path_changed_set_witness :
  "sub/" ∈ changed_paths (mark_path_changed "sub" true (Examples.watching_sub []))
  /\ NoDup (changed_paths
              (mark_path_changed "sub" true (Examples.watching_sub []))).
Proof.
  destruct (mark_path_changed_set "sub" true (Examples.watching_sub []))
    as (H1 & _ & H3 & _).
  split; [exact H1|]. apply H3. vm_compute. constructor.
Defined.

Section Events.

Variable os : system.
Variable max_directory_depth : Z.
Variable excludes : list (option string).

Lemma find_listed_file s dir kept file rest f :
  files_of s dir (kept ++ file :: rest) ->
  files s !! file = Some f ->
  List.find (file_leaf_is s (f_leaf f)) (kept ++ file :: rest) = Some file.
Proof.
  intros (Hnd & Hlive & Hdistinct) Hf.
  rewrite find_app_none.
  - cbn [List.find]. unfold file_leaf_is at 1. rewrite Hf.
    unfold streq. by rewrite String.eqb_refl.
  - destruct (List.find (file_leaf_is s (f_leaf f)) kept) as [g|] eqn:E; [|done].
    exfalso. apply find_some in E as [Hin Hleaf].
    apply list_elem_of_In in Hin. unfold file_leaf_is in Hleaf.
    destruct (files s !! g) as [fg|] eqn:Hg; [|done].
    apply streq_true in Hleaf.
    assert (g = file) as ->.
    { apply (Hdistinct g file fg f); try done.
      - apply elem_of_app. by left.
      - apply elem_of_app. right. by constructor. }
    apply NoDup_app in Hnd as (_ & Hnd & _).
    apply (Hnd file Hin). by constructor.
Qed.

Lemma choose_action_delete mask :
  Z.land mask (Z.lor IN_ATTRIB (Z.lor IN_CREATE (Z.lor IN_MODIFY IN_MOVED_TO)))
    = 0 ->
  Z.land mask (Z.lor IN_DELETE IN_MOVED_FROM) <> 0 ->
  choose_action mask true = IN_ACTION_DELETE.
Proof.
  intros H1 H2. unfold choose_action. rewrite H1. cbn [Z.eqb negb].
  apply Z.eqb_neq in H2. by rewrite H2.
Qed.

Lemma choose_action_create mask known :
  Z.land mask (Z.lor IN_ATTRIB (Z.lor IN_CREATE (Z.lor IN_MODIFY IN_MOVED_TO)))
    <> 0 ->
  choose_action mask known
  = if known then IN_ACTION_UPDATE else IN_ACTION_CREATE.
Proof.
  intros H1. unfold choose_action. apply Z.eqb_neq in H1. by rewrite H1.
Qed.

(** X14: a delete or moved-from event for a known file frees the node,
    takes it out of its directory's list, clears the queue entries that
    point to it, and marks the directory's path, with a trailing slash, as
    changed. *)
Theorem process_file_change_delete event dir s d kept file rest f :
  dirs s !! dir = Some d ->
  is_Some (d_topdir d) ->
  d_files d = kept ++ file :: rest ->
  files_of s dir (d_files d) ->
  files s !! file = Some f ->
  f_leaf f = ev_name event ->
  Z.land (ev_mask event)
    (Z.lor IN_ATTRIB (Z.lor IN_CREATE (Z.lor IN_MODIFY IN_MOVED_TO))) = 0 ->
  Z.land (ev_mask event) (Z.lor IN_DELETE IN_MOVED_FROM) <> 0 ->
  let s' := process_file_change os excludes event dir s in
  files s' !! file = None /\
  ~ listed s' dir file /\
  d_path d +:+ "/" ∈ changed_paths s' /\
  (forall e, e ∈ change_queue s' -> cq_file e <> Some file).
Proof.
  intros Hd Htop Hfiles Hof Hf Hleaf Hcreate Hdelete s'.
  rewrite Hfiles in Hof.
  assert (Hparent : f_parent f = Some dir).
  { destruct Hof as (_ & Hlive & _).
    destruct (Hlive file) as (f' & Hf' & Hp).
    - apply elem_of_app. right. by constructor.
    - congruence. }
  set (sm := mark_path_changed (d_path d) true s).
  destruct (mark_frame (d_path d) true s) as (Fm & Dm & Qm & _).
  fold sm in Fm, Dm, Qm.
  assert (Hs' : s' = ds_file_remove file sm).
  { subst s'. unfold process_file_change. rewrite Hd, Hfiles, <- Hleaf.
    rewrite (find_listed_file s dir kept file rest f Hof Hf).
    rewrite bool_decide_eq_true_2 by eauto.
    rewrite choose_action_delete by done.
    unfold parent_path. destruct Htop as [top Htop].
    by rewrite Hf, Hparent, Hd, Htop. }
  assert (Hof' : files_of sm dir (kept ++ file :: rest)).
  { unfold files_of. rewrite Fm. exact Hof. }
  destruct (ds_file_remove_listed sm dir d kept file rest f)
    as (Hd' & Hf' & _); [by rewrite Dm|done|done|by rewrite Fm|].
  rewrite Hs'. split; [|split; [|split]].
  - rewrite Hf'. apply lookup_delete_eq.
  - intros (d' & Hd'' & Hin). rewrite Hd' in Hd''. injection Hd'' as <-.
    cbn [d_files dir_set_files] in Hin.
    destruct Hof as (Hnd & _). apply NoDup_app in Hnd as (_ & Hnk & Hnr).
    apply NoDup_cons in Hnr as [Hnr _].
    apply elem_of_app in Hin as [Hin|Hin]; [|done].
    apply (Hnk file Hin). by constructor.
  - rewrite changed_paths_file_remove.
    apply (mark_listed (d_path d) true s).
  - intros e He.
    rewrite (ds_file_remove_queue file sm f dir d) in He;
      [|by rewrite Fm|done|by rewrite Dm|done].
    by eapply clear_file_cleared.
Qed.

Lemma queued_dir_found dir q :
  (exists e, e ∈ q /\ cq_dir e = Some dir) ->
  existsb (already_queued None (Some dir)) q = true.
Proof.
  intros (e & He & Hdir). apply existsb_exists. exists e.
  split; [by apply list_elem_of_In|].
  unfold already_queued. by rewrite bool_decide_eq_true_2.
Qed.

Lemma add_dir_is_queued w dir s :
  exists e, e ∈ change_queue (_ds_change_queue_add w None (Some dir) s)
            /\ cq_dir e = Some dir.
Proof.
  unfold _ds_change_queue_add.
  destruct (existsb _ (change_queue s)) eqn:E.
  - apply existsb_exists in E as (e & He & Hq).
    exists e. split; [by apply list_elem_of_In|].
    unfold already_queued in Hq. cbn [orb] in Hq.
    by apply bool_decide_eq_true_1 in Hq.
  - exists (mk_change w None (Some dir)). split; [|done].
    wsimpl. apply elem_of_app. right. by constructor.
Qed.

(** X15: a create event for a directory that is not yet known, in a
    directory above the depth limit, allocates the structure one level
    below, without a watch, queues a scan of it, and marks its path, with a
    trailing slash, as changed at once. *)
Theorem process_dir_change_create fuel event dir s d sb :
  dirs s !! dir = Some d ->
  is_Some (d_topdir d) ->
  d_depth d < max_directory_depth ->
  dirs s !! next_ptr s = None ->
  List.find (dir_leaf_is s (ev_name event)) (d_subdirs d) = None ->
  Z.land (ev_mask event)
    (Z.lor IN_ATTRIB (Z.lor IN_CREATE (Z.lor IN_MODIFY IN_MOVED_TO))) <> 0 ->
  ds_filename_valid os excludes (ev_name event) = true ->
  sys_lstat os (syscalls s) (d_absolute_path d +:+ "/" +:+ ev_name event)
    = Some sb ->
  S_ISDIR (st_mode sb) = true ->
  exists s' nd,
    process_dir_change os max_directory_depth excludes fuel event dir s = Some s' /\
    dirs s' !! next_ptr s = Some nd /\
    d_absolute_path nd = d_absolute_path d +:+ "/" +:+ ev_name event /\
    d_parent nd = Some dir /\ d_depth nd = d_depth d + 1 /\ d_wd nd = -1 /\
    listed_subdir s' dir (next_ptr s) /\
    (exists e, e ∈ change_queue s' /\ cq_dir e = Some (next_ptr s)) /\
    d_path nd +:+ "/" ∈ changed_paths s'.
Proof.
  intros Hd [top Htop] Hdepth Hfresh Hfind Hmask Hvalid Hlstat Hisdir.
  assert (Hne : next_ptr s <> dir) by (intros Heq; congruence).
  unfold process_dir_change. rewrite Hd, Hfind.
  rewrite choose_action_create by done.
  rewrite bool_decide_eq_false_2 by (intros [? ?]; done).
  rewrite Hvalid, Hlstat, Hisdir. cbn [negb].
  unfold ds_dir_add. wsimpl. rewrite Hd.
  destruct (d_depth d >=? max_directory_depth) eqn:E; [lia|].
  replace (List.find (dir_leaf_is (tick s) (ev_name event)) (d_subdirs d))
    with (List.find (dir_leaf_is s (ev_name event)) (d_subdirs d))
    by reflexivity.
  rewrite Hfind.
  set (sub := next_ptr s) in *.
  set (nd := mk_dir _ _ _ _ _ _ _ _ _ _ _ _).
  set (s1 := upd_dir dir _ _).
  assert (Hnd1 : dirs s1 !! sub = Some nd).
  { subst s1. wsimpl. by rewrite lookup_alter_ne, lookup_insert_eq. }
  assert (Hd1 : dirs s1 !! dir
                = Some (dir_set_subdirs (d_subdirs d ++ [sub]) d)).
  { subst s1. wsimpl. by rewrite lookup_alter_eq, lookup_insert_ne, Hd. }
  set (s2 := ds_change_queue_dir_add os sub 0 s1).
  assert (Hs2 : s2 = _ds_change_queue_add (sys_time os (syscalls s1)) None
                       (Some sub) (tick s1)).
  { subst s2. unfold ds_change_queue_dir_add. rewrite Hnd1.
    subst nd. cbn [d_topdir]. by rewrite Htop. }
  destruct (add_frame (sys_time os (syscalls s1)) None (Some sub) (tick s1))
    as (_ & Dq & _). rewrite <- Hs2 in Dq.
  assert (Hnd2 : dirs s2 !! sub = Some nd) by (by rewrite Dq).
  rewrite Hnd2, Htop.
  set (s3 := mark_path_changed (d_path nd) true s2).
  destruct (mark_frame (d_path nd) true s2) as (_ & D3 & Q3 & _).
  fold s3 in D3, Q3.
  exists s3, nd. split; [done|].
  split; [by rewrite D3|]. repeat (split; [done|]).
  split; [|split].
  - exists (dir_set_subdirs (d_subdirs d ++ [sub]) d).
    split; [by rewrite D3, Dq|]. cbn [d_subdirs dir_set_subdirs].
    apply elem_of_app. right. by constructor.
  - rewrite Q3, Hs2. apply add_dir_is_queued.
  - apply (mark_listed (d_path nd) true s2).
Qed.

(** X16: a create event for a directory that is not yet known, in a
    directory at the depth limit, makes [process_dir_change] read
    [newdir->path] through the NULL pointer that [ds_dir_add] returns. *)
Theorem process_dir_change_at_depth_limit fuel event dir s d sb :
  dirs s !! dir = Some d ->
  max_directory_depth <= d_depth d ->
  List.find (dir_leaf_is s (ev_name event)) (d_subdirs d) = None ->
  Z.land (ev_mask event)
    (Z.lor IN_ATTRIB (Z.lor IN_CREATE (Z.lor IN_MODIFY IN_MOVED_TO))) <> 0 ->
  ds_filename_valid os excludes (ev_name event) = true ->
  sys_lstat os (syscalls s) (d_absolute_path d +:+ "/" +:+ ev_name event)
    = Some sb ->
  S_ISDIR (st_mode sb) = true ->
  ds_dir_add max_directory_depth dir (ev_name event) (tick s) = (None, tick s) /\
  process_dir_change os max_directory_depth excludes fuel event dir s = None.
Proof.
  intros Hd Hdepth Hfind Hmask Hvalid Hlstat Hisdir.
  assert (Hadd : ds_dir_add max_directory_depth dir (ev_name event) (tick s)
                 = (None, tick s)).
  { unfold ds_dir_add. wsimpl. rewrite Hd.
    destruct (d_depth d >=? max_directory_depth) eqn:E; [done|]. lia. }
  split; [exact Hadd|].
  unfold process_dir_change. rewrite Hd, Hfind.
  rewrite choose_action_create by done.
  rewrite bool_decide_eq_false_2 by (intros [? ?]; done).
  rewrite Hvalid, Hlstat, Hisdir. cbn [negb]. by rewrite Hadd.
Qed.

(** X17: a delete or moved-from event for a known subdirectory frees its
    structure and, when the directory of the event is still there after
    the removal, marks that directory's path, with a trailing slash, as
    changed. *)
Theorem process_dir_change_delete fuel event dir s d sub :
  dirs s !! dir = Some d ->
  is_Some (d_topdir d) ->
  List.find (dir_leaf_is s (ev_name event)) (d_subdirs d) = Some sub ->
  Z.land (ev_mask event)
    (Z.lor IN_ATTRIB (Z.lor IN_CREATE (Z.lor IN_MODIFY IN_MOVED_TO))) = 0 ->
  Z.land (ev_mask event) (Z.lor IN_DELETE IN_MOVED_FROM) <> 0 ->
  is_Some (dirs (ds_dir_remove (S fuel) sub s) !! dir) ->
  exists s',
    process_dir_change os max_directory_depth excludes (S fuel) event dir s
      = Some s' /\
    dirs s' !! sub = None /\
    d_path d +:+ "/" ∈ changed_paths s'.
Proof.
  intros Hd [top Htop] Hfind Hcreate Hdelete [d1 Hd1].
  apply find_some in Hfind as Hsub. destruct Hsub as [_ Hsub].
  unfold dir_leaf_is in Hsub.
  destruct (dirs s !! sub) as [sd|] eqn:Hsd; [|done].
  destruct (ds_dir_remove_after (S fuel) sub s) as (_ & _ & _ & Hdirs).
  destruct (Hdirs dir d1 Hd1) as (d0 & Hd0 & Htop1 & Hpath1).
  rewrite Hd in Hd0. injection Hd0 as <-.
  unfold process_dir_change. rewrite Hd, Hfind.
  rewrite bool_decide_eq_true_2 by eauto.
  rewrite choose_action_delete by done.
  rewrite Hd1, Htop1, Htop, Hpath1.
  eexists. split; [reflexivity|]. split.
  - destruct (mark_frame (d_path d) true (ds_dir_remove (S fuel) sub s))
      as (_ & -> & _).
    by eapply ds_dir_remove_frees.
  - apply (mark_listed (d_path d) true).
Qed.

Section Dispatch.

Variable qsort : (ds_watch_index_s -> ds_watch_index_s -> Z) ->
                 list ds_watch_index_s -> list ds_watch_index_s.
Variable bsearch : (ds_watch_index_s -> ds_watch_index_s -> Z) ->
                   ds_watch_index_s -> list ds_watch_index_s ->
                   option ds_watch_index_s.
Variable sys_read : nat -> option (list inotify_event).

(** X18: how an event is dispatched.  The lookup of its descriptor leaves
    the nodes, the queue and the changed paths alone.  An event whose
    descriptor is not in the index is dropped.  An event whose descriptor
    is registered for one directory only is handled in that directory: the
    directory is removed on [IN_DELETE_SELF], an event without a name is
    dropped, and the others go to [process_dir_change] or
    [process_file_change] by [IN_ISDIR]. *)
Theorem process_event_dispatch fuel event s :
  libc_sorting qsort bsearch ->
  index_flag_ok s ->
  let s1 := snd (ds_watch_index_lookup qsort bsearch (ev_wd event) s) in
  (files s1 = files s /\ dirs s1 = dirs s /\
   change_queue s1 = change_queue s /\ changed_paths s1 = changed_paths s) /\
  ((forall e, e ∈ watch_index s -> wi_wd e <> ev_wd event) ->
   process_event os max_directory_depth excludes qsort bsearch fuel event s
     = Some s1) /\
  (forall dir,
     mk_watch (ev_wd event) dir ∈ watch_index s ->
     (forall e, e ∈ watch_index s -> wi_wd e = ev_wd event -> wi_dir e = dir) ->
     process_event os max_directory_depth excludes qsort bsearch fuel event s
     = if negb (Z.land (ev_mask event) IN_DELETE_SELF =? 0)
       then Some (ds_dir_remove fuel dir s1)
       else if Ascii.eqb (char_at (ev_name event) 0) Ascii.zero then Some s1
       else if negb (Z.land (ev_mask event) IN_ISDIR =? 0)
       then process_dir_change os max_directory_depth excludes fuel event dir s1
       else Some (process_file_change os excludes event dir s1)).
Proof.
  intros libc Hflag s1.
  destruct (ds_watch_index_lookup_spec qsort bsearch libc (ev_wd event) s Hflag)
    as (Hsome & Hnone & _ & _ & F & D & Q & P & _).
  fold s1 in F, D, Q, P. split; [done|].
  unfold process_event.
  destruct (ds_watch_index_lookup qsort bsearch (ev_wd event) s)
    as [found s1'] eqn:E.
  cbn [fst snd] in *. subst s1. split.
  - intros Hunknown. destruct found as [dir|]; [|done].
    exfalso. apply (Hunknown _ (Hsome dir eq_refl)). done.
  - intros dir Hin Honly. destruct found as [dir'|].
    + specialize (Hsome dir' eq_refl).
      apply Honly in Hsome; [|done]. cbn [wi_dir] in Hsome. by subst dir'.
    + exfalso. by apply (Hnone eq_refl _ Hin).
Qed.

Lemma nodup_file_remove file s :
  NoDup (changed_paths s) -> NoDup (changed_paths (ds_file_remove file s)).
Proof. by rewrite changed_paths_file_remove. Qed.

Lemma nodup_kept s s' :
  paths_kept s s' -> NoDup (changed_paths s) -> NoDup (changed_paths s').
Proof. intros [->| ->] H; [done|constructor]. Qed.

Lemma paths_kept_dir_remove fuel dir s :
  paths_kept s (ds_dir_remove fuel dir s).
Proof.
  apply R_dir_remove; unfold paths_kept.
  - auto.
  - intros s1 s2 s3 [H1|H1] [H2|H2]; rewrite ?H2, ?H1; auto.
  - auto.
  - auto.
  - auto.
  - auto.
Qed.

Lemma changed_paths_queue_add w file dir s :
  changed_paths (_ds_change_queue_add w file dir s) = changed_paths s.
Proof. apply add_frame. Qed.

Lemma changed_paths_file_queue_add file w s :
  changed_paths (ds_change_queue_file_add os file w s) = changed_paths s.
Proof.
  unfold ds_change_queue_file_add.
  repeat case_match; try done; by rewrite changed_paths_queue_add.
Qed.

Lemma changed_paths_dir_queue_add dir w s :
  changed_paths (ds_change_queue_dir_add os dir w s) = changed_paths s.
Proof.
  unfold ds_change_queue_dir_add.
  repeat case_match; try done; by rewrite changed_paths_queue_add.
Qed.

Lemma changed_paths_file_add dir name s :
  changed_paths (snd (ds_file_add dir name s)) = changed_paths s.
Proof. unfold ds_file_add. by repeat case_match. Qed.

Lemma changed_paths_dir_add dir name s :
  changed_paths (snd (ds_dir_add max_directory_depth dir name s))
  = changed_paths s.
Proof. unfold ds_dir_add. by repeat case_match. Qed.

Lemma changed_paths_checkchanged file s :
  changed_paths (snd (ds_file_checkchanged os file s)) = changed_paths s.
Proof. unfold ds_file_checkchanged. by repeat case_match. Qed.

Lemma nodup_process_file_change event dir s :
  NoDup (changed_paths s) ->
  NoDup (changed_paths (process_file_change os excludes event dir s)).
Proof.
  intros Hnd. unfold process_file_change.
  repeat case_match; try done.
  - match goal with E : ds_file_add ?a ?b ?c = _ |- _ =>
      pose proof (changed_paths_file_add a b c) as Hp; rewrite E in Hp end.
    cbn [snd] in Hp. by rewrite changed_paths_file_queue_add, Hp.
  - match goal with E : ds_file_add ?a ?b ?c = _ |- _ =>
      pose proof (changed_paths_file_add a b c) as Hp; rewrite E in Hp end.
    cbn [snd] in Hp. by rewrite Hp.
  - by rewrite changed_paths_file_queue_add.
  - by apply nodup_file_remove, mark_nodup.
  - by apply nodup_file_remove.
Qed.

Lemma nodup_process_dir_change fuel event dir s s' :
  NoDup (changed_paths s) ->
  process_dir_change os max_directory_depth excludes fuel event dir s = Some s' ->
  NoDup (changed_paths s').
Proof.
  intros Hnd. unfold process_dir_change.
  repeat case_match; intros [= <-]; try done.
  - apply mark_nodup. rewrite changed_paths_dir_queue_add.
    match goal with E : ds_dir_add _ ?a ?b ?c = _ |- _ =>
      pose proof (changed_paths_dir_add a b c) as Hp; rewrite E in Hp end.
    cbn [snd] in Hp. by rewrite Hp.
  - rewrite changed_paths_dir_queue_add.
    match goal with E : ds_dir_add _ ?a ?b ?c = _ |- _ =>
      pose proof (changed_paths_dir_add a b c) as Hp; rewrite E in Hp end.
    cbn [snd] in Hp. by rewrite Hp.
  - rewrite changed_paths_dir_queue_add.
    match goal with E : ds_dir_add _ ?a ?b ?c = _ |- _ =>
      pose proof (changed_paths_dir_add a b c) as Hp; rewrite E in Hp end.
    cbn [snd] in Hp. by rewrite Hp.
  - by rewrite changed_paths_dir_queue_add.
  - apply mark_nodup. eapply nodup_kept; [apply paths_kept_dir_remove|done].
  - eapply nodup_kept; [apply paths_kept_dir_remove|done].
  - eapply nodup_kept; [apply paths_kept_dir_remove|done].
Qed.

Lemma nodup_process_event fuel event s s' :
  NoDup (changed_paths s) ->
  process_event os max_directory_depth excludes qsort bsearch fuel event s
    = Some s' ->
  NoDup (changed_paths s').
Proof.
  intros Hnd. unfold process_event.
  destruct (ds_watch_index_lookup qsort bsearch (ev_wd event) s)
    as [found s1] eqn:E.
  assert (Hnd1 : NoDup (changed_paths s1)).
  { unfold ds_watch_index_lookup in E.
    destruct (watch_index s); [by injection E as _ <-|].
    injection E as _ <-. by destruct (watch_index_unsorted s). }
  destruct found as [dir|]; [|by intros [= <-]].
  repeat case_match.
  - intros [= <-]. eapply nodup_kept; [apply paths_kept_dir_remove|done].
  - by intros [= <-].
  - by apply nodup_process_dir_change.
  - intros [= <-]. by apply nodup_process_file_change.
Qed.

Lemma nodup_process_file_entry file s s' :
  process_file_entry os file s = Some s' ->
  NoDup (changed_paths s) ->
  NoDup (changed_paths s').
Proof.
  intros Hs' Hnd. apply process_file_entry_spec in Hs'. subst s'.
  pose proof (changed_paths_checkchanged file s) as Hc.
  destruct (ds_file_checkchanged os file s) as [changed s1]. cbn [snd] in Hc.
  rewrite <- Hc in Hnd.
  repeat case_match; try done.
  - by apply nodup_file_remove, mark_nodup.
  - by apply nodup_file_remove.
  - by apply mark_nodup.
Qed.

Lemma nodup_process_loop fuel work_until : forall n readidx writeidx s w s',
  NoDup (changed_paths s) ->
  process_loop os max_directory_depth excludes fuel n work_until readidx
    writeidx s = Some (w, s') ->
  NoDup (changed_paths s').
Proof.
  induction n as [|n IH]; intros readidx writeidx s w s' Hnd Hloop;
    cbn [process_loop] in Hloop; [by injection Hloop as _ <-|].
  destruct (change_queue s !! readidx) as [entry|];
    [|by injection Hloop as _ <-].
  assert (forall r, r = Some (w, s') ->
            forall readidx' writeidx' s0,
              r = process_loop os max_directory_depth excludes fuel n
                    work_until readidx' writeidx' s0 ->
              NoDup (changed_paths s0) -> NoDup (changed_paths s')) as Hnext.
  { intros r -> readidx' writeidx' s0 Hr Hs0. symmetry in Hr.
    by apply IH in Hr. }
  destruct (cq_file entry) as [file|] eqn:Ef;
    [|destruct (cq_dir entry) as [dir|] eqn:Ed].
  - destruct ((when entry >? sys_time os (syscalls s))
              || (sys_time os (syscalls s) >=? work_until)).
    + case_bool_decide; (eapply Hnext; [exact Hloop|reflexivity|done]).
    + destruct (process_file_entry os file _) as [s1|] eqn:E1; [|discriminate].
      eapply Hnext; [exact Hloop|reflexivity|].
      eapply nodup_process_file_entry; [exact E1|done].
  - destruct ((when entry >? sys_time os (syscalls s))
              || (sys_time os (syscalls s) >=? work_until)).
    + case_bool_decide; (eapply Hnext; [exact Hloop|reflexivity|done]).
    + cbv zeta in Hloop. destruct (dirs _ !! dir); [|discriminate].
      destruct (topdir_freed _ _); [discriminate|].
      eapply Hnext; [exact Hloop|reflexivity|].
      eapply nodup_kept; [apply paths_dir_scan|done].
  - eapply Hnext; [exact Hloop|reflexivity|done].
Qed.

Lemma dump_disk savedir s file lines :
  disk (dump_changed_paths os savedir s) !! file = Some lines ->
  disk s !! file = Some lines \/ lines = changed_paths s.
Proof.
  unfold dump_changed_paths, ds_tmpfile.
  destruct (changed_paths s) as [|p l] eqn:Hp; [by left|]. wsimpl.
  destruct (sys_mkstemp os _ _) as [tmp|]; wsimpl; [|by left].
  destruct (sys_fdopen os _); cbn [negb]; wsimpl.
  - destruct (sys_rename os _); cbn [negb]; wsimpl.
    + intros H. apply lookup_insert_Some in H as [[_ <-]|[_ H]]; [by right|].
      apply lookup_delete_Some in H as [Hne H].
      rewrite !lookup_insert_ne in H by done. by left.
    + intros H. apply lookup_delete_Some in H as [Hne H].
      rewrite !lookup_insert_ne in H by done. by left.
  - intros H. apply lookup_delete_Some in H as [Hne H].
    rewrite lookup_insert_ne in H by done. by left.
Qed.

(** X19: the changed paths stay free of duplicates.  When the list holds
    no path twice, it holds none twice after a queue run and after a batch
    of inotify events, where these read no freed memory and do not read
    through NULL, and every file that a dump writes holds no path twice. *)
Theorem changed_paths_stay_distinct fuel s :
  NoDup (changed_paths s) ->
  (forall work_until s',
     ds_change_queue_process os max_directory_depth excludes fuel
       work_until s = Some s' ->
     NoDup (changed_paths s')) /\
  (forall s',
     process_inotify_events os max_directory_depth excludes qsort bsearch
       sys_read fuel s = Some s' ->
     NoDup (changed_paths s')) /\
  (forall savedir file lines,
     disk (dump_changed_paths os savedir s) !! file = Some lines ->
     disk s !! file = Some lines \/ NoDup lines).
Proof.
  intros Hnd. split; [|split].
  - intros work_until s'. unfold ds_change_queue_process.
    destruct (change_queue s) as [|e q] eqn:Hq; [by intros [= <-]|].
    rewrite <- Hq.
    destruct (process_loop _ _ _ _ _ _ _ _ _) as [[w s'']|] eqn:Hloop;
      [|discriminate].
    intros [= <-]. by apply nodup_process_loop in Hloop.
  - intros s'. unfold process_inotify_events.
    destruct (fd_inotify s <? 0); [by intros [= <-]|].
    destruct (sys_read (syscalls s)) as [events|]; [|by intros [= <-]].
    assert (Hfold : forall acc : option watcher,
      (forall s0, acc = Some s0 -> NoDup (changed_paths s0)) ->
      forall s0,
        foldl (fun acc event =>
                 acc ≫= process_event os max_directory_depth excludes qsort
                          bsearch fuel event) acc events = Some s0 ->
        NoDup (changed_paths s0)).
    { induction events as [|event events IH]; intros acc Hacc s0; cbn [foldl].
      - apply Hacc.
      - apply IH. intros s2 H2. destruct acc as [s3|]; [|done].
        cbn in H2. eapply nodup_process_event; [|exact H2]. by apply Hacc. }
    apply Hfold. by intros s0 [= <-].
  - intros savedir file lines H. apply dump_disk in H as [H| ->]; auto.
Qed.

End Dispatch.

(** X20: a dump that fails loses nothing.  When the temporary file cannot
    be opened or cannot be renamed, the temporary file is removed, no
    batch file appears, and the changed paths stay listed for the next
    dump. *)
Theorem dump_failure_keeps_paths savedir s tmpfile :
  let savefile :=
    batch_name os savedir (sys_localtime os (sys_time os (syscalls s))) in
  changed_paths s <> [] ->
  sys_mkstemp os (S (syscalls s)) (tmpfile_template savefile) = Some tmpfile ->
  sys_fdopen os (S (S (syscalls s))) = false \/
  sys_rename os (S (S (S (syscalls s)))) = false ->
  let s' := dump_changed_paths os savedir s in
  changed_paths s' = changed_paths s /\
  disk s' = delete tmpfile (disk s) /\
  died s' = died s.
Proof.
  intros savefile Hpaths Hmk Hfail s'. subst s'.
  unfold dump_changed_paths, ds_tmpfile.
  destruct (changed_paths s) as [|p l] eqn:Hp; [done|]. wsimpl.
  fold savefile. rewrite Hmk. wsimpl.
  destruct (sys_fdopen os (S (S (syscalls s)))) eqn:Ef; cbn [negb]; wsimpl.
  - destruct Hfail as [Hfail|Hfail]; [done|]. rewrite Hfail. cbn [negb]. wsimpl.
    split; [done|]. split; [|done].
    by rewrite insert_insert_eq, delete_insert_eq.
  - split; [done|]. split; [|done]. by rewrite delete_insert_eq.
Qed.

End Events.

(** *** The theorems on the example trees *)

Lemma process_file_change_delete_witness :
  files (process_file_change os0 [] delete_a top watching_abc) !! file_a = None /\
  ~ listed (process_file_change os0 [] delete_a top watching_abc) top file_a /\
  "" +:+ "/" ∈ changed_paths (process_file_change os0 [] delete_a top watching_abc) /\
  (forall e,
     e ∈ change_queue (process_file_change os0 [] delete_a top watching_abc) ->
     cq_file e <> Some file_a).
Proof.
  apply (process_file_change_delete os0 [] delete_a top watching_abc
           (top_dir [file_a; file_b; file_c]) [] file_a [file_b; file_c] a_txt);
    [reflexivity|by eexists|reflexivity|exact watching_abc_files
    |reflexivity|reflexivity|reflexivity|discriminate].
Defined.

Lemma process_dir_change_create_witness :
  exists s' nd,
    process_dir_change os1 20 [] 1 create_new top watching_a = Some s' /\
    dirs s' !! 5%nat = Some nd /\
    d_absolute_path nd = "/top" +:+ "/" +:+ "new" /\
    d_parent nd = Some top /\ d_depth nd = 0 + 1 /\ d_wd nd = -1 /\
    listed_subdir s' top 5%nat /\
    (exists e, e ∈ change_queue s' /\ cq_dir e = Some 5%nat) /\
    d_path nd +:+ "/" ∈ changed_paths s'.
Proof.
  apply (process_dir_change_create os1 20 [] 1 create_new top watching_a
           (top_dir [file_a]) (mk_stat S_IFDIR 1 70 4096));
    [reflexivity|by eexists|simpl; lia|reflexivity|reflexivity|discriminate
    |reflexivity|reflexivity|reflexivity].
Defined.

Lemma process_dir_change_at_depth_limit_witness :
  ds_dir_add 0 top "new" (tick watching_a) = (None, tick watching_a) /\
  process_dir_change os1 0 [] 1 create_new top watching_a = None.
Proof.
  apply (process_dir_change_at_depth_limit os1 0 [] 1 create_new top watching_a
           (top_dir [file_a]) (mk_stat S_IFDIR 1 70 4096));
    [reflexivity|simpl; lia|reflexivity|discriminate
    |reflexivity|reflexivity|reflexivity].
Defined.

Lemma process_dir_change_delete_witness :
  exists s',
    process_dir_change os0 20 [] 2 delete_sub top (watching_sub [later_x])
      = Some s' /\
    dirs s' !! sub = None /\
    "" +:+ "/" ∈ changed_paths s'.
Proof.
  apply (process_dir_change_delete os0 20 [] 1 delete_sub top
           (watching_sub [later_x])
           (mk_dir "/top" "" "" 5 0 [file_a] [sub] None (Some top)
              false false false) sub);
    [reflexivity|by eexists|reflexivity|reflexivity|discriminate|].
  vm_compute. by eexists.
Defined.

Lemma index_sorted_singleton e : index_sorted [e].
Proof.
  intros i j a b _ Hi Hj.
  destruct i as [|i]; [|done]. destruct j as [|j]; [|done].
  injection Hi as <-. injection Hj as <-. lia.
Qed.

Lemma process_event_dispatch_witness :
  process_event os0 20 [] (@insertion_sort _) (@first_equal _) 1 create_b
    watching_a
  = Some (process_file_change os0 [] create_b top
            (snd (ds_watch_index_lookup (@insertion_sort _) (@first_equal _) 5
                    watching_a))).
Proof.
  destruct (process_event_dispatch os0 20 [] (@insertion_sort _) (@first_equal _)
              1 create_b watching_a insertion_sort_contract
              (fun _ => index_sorted_singleton _)) as (_ & _ & Hknown).
  apply (Hknown top).
  - by constructor.
  - intros e He _. apply list_elem_of_singleton in He as ->. reflexivity.
Defined.

Lemma changed_paths_stay_distinct_witness :
  exists s',
    ds_change_queue_process os0 20 [] 4 1005 (watching [due_a] ["a.txt"])
    = Some s' /\
    NoDup (changed_paths s').
Proof.
  destruct (changed_paths_stay_distinct os0 20 [] (@insertion_sort _)
              (@first_equal _) (fun _ => None) 4 (watching [due_a] ["a.txt"]))
    as (Hrun & _).
  - apply NoDup_singleton.
  - destruct (ds_change_queue_process os0 20 [] 4 1005
                (watching [due_a] ["a.txt"])) as [s'|] eqn:E.
    + exists s'. split; [reflexivity|]. by apply (Hrun 1005).
    + vm_compute in E. discriminate.
Defined.

Lemma dump_failure_keeps_paths_witness :
  changed_paths (dump_changed_paths os_norename "/out" (watching [] ["a.txt"]))
    = ["a.txt"] /\
  disk (dump_changed_paths os_norename "/out" (watching [] ["a.txt"]))
    = delete "/out/.20261030-120000.4242abc123" ∅ /\
  died (dump_changed_paths os_norename "/out" (watching [] ["a.txt"])) = false.
Proof.
  apply (dump_failure_keeps_paths os_norename "/out" (watching [] ["a.txt"])
           "/out/.20261030-120000.4242abc123");
    [discriminate|reflexivity|by right].
Defined.

End WatchEventProps.

(** ** watchdir.c: the outcome of [parse_options] *)

Module WatchdirOutcome.
Import Watchdir.

Section Parse.

Variable strtoul : string -> Z * bool.

Lemma set_numeric_frame c param o :
  excludes (set_numeric c param o) = excludes o /\
  parameters (set_numeric c param o) = parameters o.
Proof.
  unfold set_numeric.
  repeat match goal with |- context [if ?b then _ else _] => destruct b end;
    by split.
Qed.

(** The arguments of the exclude options, in the order given. *)
Lemma option_loop_outcome opts : forall o,
  match option_loop strtoul opts o with
  | (None, o') =>
      excludes o' =
        excludes o ++
        (snd <$> List.filter (fun opt => Ascii.eqb (fst opt) "e") opts) /\
      parameters o' = parameters o
  | (Some rc, o') => (rc = -1 \/ rc = 1) /\ parameters o' = None
  end.
Proof.
  induction opts as [|[c optarg] opts IH]; intros o; cbn [option_loop].
  - by rewrite app_nil_r.
  - cbn [List.filter fst].
    destruct (Ascii.eqb c "h") eqn:Eh; [split; [by left|done]|].
    destruct (Ascii.eqb c "V") eqn:EV; [split; [by left|done]|].
    destruct (Ascii.eqb c "d") eqn:Ed.
    { apply Ascii.eqb_eq in Ed as ->. cbn [Ascii.eqb Bool.eqb].
      specialize (IH (set_debugging o)).
      destruct (option_loop strtoul opts (set_debugging o)) as [[rc|] o'];
        exact IH. }
    destruct (Ascii.eqb c "e") eqn:Ee.
    { destruct (exclude_count o >=? MAX_EXCLUDES - 1);
        [split; [by right|done]|].
      specialize (IH (add_exclude optarg o)).
      destruct (option_loop strtoul opts (add_exclude optarg o)) as [[rc|] o'];
        [exact IH|].
      destruct IH as [IH1 IH2]. split; [|exact IH2].
      rewrite IH1. cbn [excludes add_exclude fmap list_fmap snd].
      by rewrite <- app_assoc. }
    destruct (is_numeric_option c); [|split; [by right|done]].
    destruct (strtoul optarg) as [param failed].
    destruct failed; [split; [by right|done]|].
    specialize (IH (set_numeric c param o)).
    destruct (set_numeric_frame c param o) as [He Hp].
    destruct (option_loop strtoul opts (set_numeric c param o)) as [[rc|] o'];
      [exact IH|].
    destruct IH as [IH1 IH2]. by rewrite IH1, IH2, He, Hp.
Qed.

(** X21: the outcome of [parse_options].  It returns -1, 0 or 1.  When it
    returns 0 exactly two parameters were left after the options and they
    are stored, and the exclude patterns are those already there followed
    by the arguments of the exclude options in command line order;
    otherwise the parameters are freed. *)
Theorem parse_options_outcome cl o :
  let r := parse_options strtoul cl o in
  (fst r = -1 \/ fst r = 0 \/ fst r = 1) /\
  (fst r = 0 ->
   length (cl_rest cl) = 2%nat /\
   parameters (snd r) = Some (cl_rest cl) /\
   excludes (snd r) =
     excludes o ++
     (snd <$> List.filter (fun opt => Ascii.eqb (fst opt) "e") (cl_options cl))) /\
  (fst r <> 0 -> parameters (snd r) = None).
Proof.
  intros r. subst r. unfold parse_options.
  pose proof (option_loop_outcome (cl_options cl) (set_parameters [] o)) as H.
  destruct (option_loop strtoul (cl_options cl) (set_parameters [] o))
    as [[rc|] o'].
  - destruct H as [[-> | ->] Hp]; cbn [fst snd];
      (split; [tauto|]); (split; [discriminate|done]).
  - destruct H as [He Hp]. case_bool_decide as Hlen; cbn [fst snd].
    + split; [tauto|]. split; [discriminate|done].
    + split; [tauto|]. split; [|done]. intros _.
      split; [|split; [done|exact He]].
      destruct (decide (length (cl_rest cl) = 2%nat)); [done|contradiction].
Qed.

End Parse.

Lemma parse_options_outcome_witness :
  length ["/srv/data"; "/var/spool/changes"] = 2%nat /\
  parameters
    (snd (parse_options (fun _ => (30, false))
            (mk_command_line
               [("e"%char, "*.log"); ("i"%char, "30"); ("e"%char, "*.bak")]
               ["/srv/data"; "/var/spool/changes"])
            initial_options))
    = Some ["/srv/data"; "/var/spool/changes"] /\
  excludes
    (snd (parse_options (fun _ => (30, false))
            (mk_command_line
               [("e"%char, "*.log"); ("i"%char, "30"); ("e"%char, "*.bak")]
               ["/srv/data"; "/var/spool/changes"])
            initial_options))
    = [] ++ ["*.log"; "*.bak"].
Proof.
  destruct (parse_options_outcome (fun _ => (30, false))
              (mk_command_line
                 [("e"%char, "*.log"); ("i"%char, "30"); ("e"%char, "*.bak")]
                 ["/srv/data"; "/var/spool/changes"])
              initial_options) as (_ & Hok & _).
  apply Hok. reflexivity.
Defined.

End WatchdirOutcome.

(** ** continual-sync.c: expansion and validation *)

Module ConfigExpansion.
Import Common Config CommonProps.

Lemma strcspn_absent c s :
  contains_char c s = false -> strcspn s c = String.length s.
Proof.
  induction s as [|c' s IH]; [done|]. cbn [contains_char strcspn].
  intros H. apply orb_false_iff in H as [-> H]. simpl. by rewrite IH.
Qed.

Lemma strcspn_first c pre rest :
  contains_char c pre = false ->
  strcspn (pre +:+ String c rest) c = String.length pre.
Proof.
  induction pre as [|c' pre IH].
  - intros _. change ("" +:+ String c rest) with (String c rest).
    cbn [strcspn]. by rewrite Ascii.eqb_refl.
  - cbn [contains_char]. intros H. apply orb_false_iff in H as [Hc H].
    change (String c' pre +:+ String c rest)
      with (String c' (pre +:+ String c rest)).
    cbn [strcspn]. rewrite Hc. simpl. by rewrite IH.
Qed.

Lemma str_take_all s : str_take (String.length s) s = s.
Proof. induction s as [|c s IH]; [done|]. simpl. by rewrite IH. Qed.

Lemma str_from_all s : str_from (String.length s) s = "".
Proof. induction s as [|c s IH]; [done|]. simpl. exact IH. Qed.

Lemma str_from_prefix pre rest :
  str_from (String.length pre) (pre +:+ rest) = rest.
Proof. induction pre as [|c pre IH]; [by destruct rest|]. simpl. exact IH. Qed.

(** One round of the loop: the text before the percent sign is appended,
    then what the sequence stands for. *)
Lemma expand_loop_step cf fuel pre c rest newstr e :
  contains_char "%" pre = false ->
  expansion cf c = Some e ->
  expand_loop cf (S fuel) (pre +:+ String "%" (String c rest)) newstr
  = expand_loop cf fuel rest (append_piece (append_piece newstr pre) e).
Proof.
  intros Hpre He. cbn [expand_loop].
  rewrite strcspn_first by done.
  rewrite str_take_join, str_from_prefix.
  change (char_at (String c rest) 0) with c. rewrite He. reflexivity.
Qed.


Lemma expand_loop_last cf fuel post newstr :
  contains_char "%" post = false ->
  expand_loop cf (S fuel) post newstr = Some (append_piece newstr post).
Proof.
  intros Hpost. cbn [expand_loop].
  rewrite strcspn_absent by done.
  by rewrite str_take_all, str_from_all.
Qed.

Lemma str_append_nil_r a : a +:+ "" = a.
Proof.
  induction a as [|x a IH]; [done|].
  change (String x (a +:+ "") = String x a). by rewrite IH.
Qed.

Lemma str_append_assoc a b c : (a +:+ b) +:+ c = a +:+ b +:+ c.
Proof.
  induction a as [|x a IH]; [done|].
  change (String x ((a +:+ b) +:+ c) = String x (a +:+ b +:+ c)).
  by rewrite IH.
Qed.

Lemma append_piece_value newstr piece :
  default "" (append_piece newstr piece) = default "" newstr +:+ piece.
Proof.
  destruct piece; [|done]. cbn [append_piece]. by rewrite str_append_nil_r.
Qed.

Lemma append_piece_none newstr piece :
  append_piece newstr piece = None -> newstr = None /\ piece = "".
Proof. by destruct piece. Qed.




Lemma after_last_absent ch s :
  contains_char ch s = false -> after_last s ch = None.
Proof.
  induction s as [|c s IH]; [done|]. cbn [contains_char after_last].
  intros H. apply orb_false_iff in H as [-> H]. by rewrite IH.
Qed.

Lemma after_last_join ch a b :
  contains_char ch b = false -> after_last (a +:+ String ch b) ch = Some b.
Proof.
  intros Hb. induction a as [|x a IH].
  - change ("" +:+ String ch b) with (String ch b). cbn [after_last].
    by rewrite after_last_absent, Ascii.eqb_refl.
  - change (String x a +:+ String ch b) with (String x (a +:+ String ch b)).
    cbn [after_last]. by rewrite IH.
Qed.

(** X23: the host and the path of a destination.  For a destination
    [host:path] with no other colon, [%h] is the host and [%d] the path, so
    that [%h:%d] expands to the destination itself; for a destination
    without a colon [%h] is [localhost] and [%d] the whole destination. *)
Theorem expand_host_and_path cf host path :
  contains_char ":" host = false ->
  contains_char ":" path = false ->
  (destination cf = Some (host +:+ ":" +:+ path) ->
   expand_config_sequences cf (Some "%h:%d")
   = (0, Some (host +:+ ":" +:+ path))) /\
  (destination cf = Some path ->
   expand_config_sequences cf (Some "%h:%d")
   = (0, Some ("localhost:" +:+ path))).
Proof.
  intros Hhost Hpath.
  assert (Hrun : forall h d,
    expansion cf "h" = Some h -> expansion cf "d" = Some d ->
    expand_config_sequences cf (Some "%h:%d") = (0, Some (h +:+ ":" +:+ d))).
  { intros h d Hh Hd. unfold expand_config_sequences.
    change (S (String.length "%h:%d")) with 6%nat.
    change "%h:%d" with ("" +:+ String "%" (String "h" (":" +:+ String "%" (String "d" "")))) at 1.
    rewrite (expand_loop_step cf 5 "" "h" _ None h eq_refl Hh).
    rewrite (expand_loop_step cf 4 ":" "d" "" _ d eq_refl Hd).
    rewrite expand_loop_last by done.
    destruct (append_piece _ "") as [newstr|] eqn:E.
    - assert (Hv : default "" (Some newstr) = h +:+ ":" +:+ d).
      { rewrite <- E, !append_piece_value. cbn [default].
        change ("" +:+ "") with "". rewrite str_append_nil_r.
        change ("" +:+ h) with h. by rewrite !str_append_assoc. }
      cbn [default] in Hv. unfold id in Hv. by rewrite Hv.
    - apply append_piece_none in E as [E _].
      apply append_piece_none in E as [E _].
      apply append_piece_none in E as [_ E]. discriminate E. }
  split; intros Hdst.
  - apply (Hrun host path); unfold expansion; rewrite Hdst;
      cbn [Ascii.eqb Bool.eqb default]; unfold id;
      change (host +:+ ":" +:+ path) with (host +:+ String ":" path).
    + rewrite strcspn_first by done. rewrite bool_decide_eq_false_2.
      * by rewrite str_take_join.
      * rewrite WatchProps.str_length_append. simpl. lia.
    + by rewrite after_last_join.
  - change ("localhost:" +:+ path) with ("localhost" +:+ ":" +:+ path).
    apply (Hrun "localhost" path); unfold expansion; rewrite Hdst;
      cbn [Ascii.eqb Bool.eqb default]; unfold id.
    + rewrite strcspn_absent by done. by rewrite bool_decide_eq_true_2.
    + by rewrite after_last_absent.
Qed.

Lemma expand_host_and_path_witness :
  expand_config_sequences Examples.backup_0 (Some "%h:%d")
  = (0, Some ("host" +:+ ":" +:+ "/backup")).
Proof.
  destruct (expand_host_and_path Examples.backup_0 "host" "/backup"
              eq_refl eq_refl) as (H & _).
  apply H. reflexivity.
Defined.

Section Validate.

Variable lstat_isdir : string -> option bool.

Lemma blank_if_none_not_none str : blank_if_none str <> Some "none".
Proof.
  unfold blank_if_none. destruct str as [v|]; [|done].
  destruct (streq v "none") eqn:E; [done|].
  intros [= ->]. done.
Qed.

Lemma directory_error_false path p :
  directory_error lstat_isdir path = false -> path = Some p ->
  lstat_isdir p = Some true.
Proof.
  intros H ->. cbn [directory_error] in H.
  destruct (lstat_isdir p) as [[]|]; done.
Qed.

(** X24: what a successful validation guarantees of a section other than
    the defaults: name, source and destination are as written and the
    latter two are set; the two sync intervals are not both zero; none of
    the parameters that [none] switches off is left as [none]; a change
    queue or temporary directory that is set names a directory; and the
    exclude list is the section's own, or the whole list of the defaults
    section when the section has none. *)
Theorem validated_section_is_usable c dflt :
  streq (name c) DEFAULTS_SECTION = false ->
  fst (validate_section lstat_isdir c dflt) = 0 ->
  let c' := snd (validate_section lstat_isdir c dflt) in
  (name c' = name c /\ source c' = source c /\ destination c' = destination c) /\
  (is_Some (source c') /\ is_Some (destination c')) /\
  (full_interval c' <> 0 \/ partial_interval c' <> 0) /\
  (forall parameter, parameter ∈ blanked_parameters ->
                     parameter c' <> Some "none") /\
  (forall p, change_queue c' = Some p \/ tempdir c' = Some p ->
             lstat_isdir p = Some true) /\
  excludes c' =
    match dflt, excludes c with
    | Some d, [] => excludes d
    | _, _ => excludes c
    end.
Proof.
  intros Hname. unfold validate_section. rewrite Hname.
  match goal with
  | |- context [if ?cond then 1 else 0] => destruct cond eqn:Hrc
  end; [done|]. intros _. cbn [fst snd].
  apply orb_false_iff in Hrc as [Hrc Hzero].
  apply orb_false_iff in Hrc as [Hrc Htemp].
  apply orb_false_iff in Hrc as [Hrc Hqueue].
  apply orb_false_iff in Hrc as [Hrc0 _].
  apply negb_false_iff, Z.eqb_eq in Hrc0.
  cbn [name source destination full_interval partial_interval excludes
       change_queue tempdir] in *.
  split; [|split; [|split; [|split; [|split]]]].
  - by destruct dflt.
  - destruct dflt; cbn [source destination fill_defaults];
      destruct (source c), (destination c); try done; split; eauto.
  - apply andb_false_iff in Hzero as [H|H]; apply Z.eqb_neq in H; auto.
  - intros parameter Hin. unfold blanked_parameters in Hin.
    repeat (apply elem_of_cons in Hin as [->|Hin];
            [apply blank_if_none_not_none|]).
    by apply elem_of_nil in Hin.
  - intros p [Hp|Hp].
    + unfold blank_if_none in Hp.
      match type of Hp with
      | match ?x with _ => _ end = _ => destruct x as [v|] eqn:Ev; [|done]
      end.
      destruct (streq v "none"); [done|]. injection Hp as ->.
      first [ exact (directory_error_false _ p Hqueue eq_refl)
            | exact (directory_error_false _ p Htemp eq_refl) ].
    + unfold blank_if_none in Hp.
      match type of Hp with
      | match ?x with _ => _ end = _ => destruct x as [v|] eqn:Ev; [|done]
      end.
      destruct (streq v "none"); [done|]. injection Hp as ->.
      first [ exact (directory_error_false _ p Hqueue eq_refl)
            | exact (directory_error_false _ p Htemp eq_refl) ].
  - destruct dflt as [d|]; [|by destruct (excludes c)].
    cbn [excludes fill_defaults]. by destruct (excludes c), (excludes d).
Qed.

(** X25: the value [none] switches a parameter off only after the
    directories are checked.  In a section that has a source and a
    destination (so that every percent sequence of its parameters can be
    expanded and the checks below are reached): a section that writes
    [none] for its log file has no log file, whatever the defaults section
    says; a section that writes [none] for its change queue fails
    validation unless a directory of that name exists. *)
Theorem none_is_checked_before_it_is_blanked c dflt :
  streq (name c) DEFAULTS_SECTION = false ->
  is_Some (source c) -> is_Some (destination c) ->
  (log_file c = Some "none" ->
   log_file (snd (validate_section lstat_isdir c dflt)) = None) /\
  (change_queue c = Some "none" ->
   lstat_isdir "none" <> Some true ->
   fst (validate_section lstat_isdir c dflt) = 1).
Proof.
  intros Hname _ _. unfold validate_section. rewrite Hname. cbn [fst snd].
  split.
  - intros Hlog. cbn [log_file].
    assert (Hfill : log_file (match dflt with
                              | Some d => fill_defaults c d
                              | None => c
                              end) = Some "none").
    { destruct dflt; cbn [log_file fill_defaults]; by rewrite Hlog. }
    rewrite Hfill. reflexivity.
  - intros Hqueue Hdir.
    assert (Hfill : change_queue (match dflt with
                                  | Some d => fill_defaults c d
                                  | None => c
                                  end) = Some "none").
    { destruct dflt; cbn [change_queue fill_defaults]; by rewrite Hqueue. }
    cbn [change_queue]. rewrite Hfill.
    change (snd (expand_config_sequences _ (Some "none"))) with (Some "none").
    assert (Herr : directory_error lstat_isdir (Some "none") = true).
    { cbn [directory_error]. destruct (lstat_isdir "none") as [[]|]; done. }
    rewrite Herr. by rewrite !orb_true_r.
Qed.

End Validate.

Lemma validated_section_is_usable_witness :
  (name (snd (validate_section (fun _ => Some true) Examples.backup_0
                (Some Examples.defaults_100))) = "backup" /\
   source (snd (validate_section (fun _ => Some true) Examples.backup_0
                  (Some Examples.defaults_100))) = Some "/srv/data" /\
   destination (snd (validate_section (fun _ => Some true) Examples.backup_0
                       (Some Examples.defaults_100))) = Some "host:/backup") /\
  (full_interval (snd (validate_section (fun _ => Some true) Examples.backup_0
                         (Some Examples.defaults_100))) <> 0 \/
   partial_interval (snd (validate_section (fun _ => Some true) Examples.backup_0
                            (Some Examples.defaults_100))) <> 0).
Proof.
  destruct (validated_section_is_usable (fun _ => Some true) Examples.backup_0
              (Some Examples.defaults_100) eq_refl eq_refl)
    as (H1 & _ & H3 & _).
  split; [exact H1|exact H3].
Defined.

Lemma none_is_checked_before_it_is_blanked_witness :
  fst (validate_section (fun _ => None) Examples.queue_none None) = 1.
Proof.
  destruct (none_is_checked_before_it_is_blanked (fun _ => None)
              Examples.queue_none None eq_refl
              (ex_intro _ _ eq_refl) (ex_intro _ _ eq_refl)) as (_ & H).
  apply H; [reflexivity|discriminate].
Defined.

End ConfigExpansion.

(** ** continual-sync.c: the sections [main] selects *)

Module ConfigMainProps.
Import Common Config ConfigMain.

Lemma find_from_found wanted : forall l idx r,
  find_from idx wanted l = r -> 0 <= r ->
  exists k c, r = Z.of_nat (idx + k) /\ l !! k = Some c /\ name c = wanted.
Proof.
  induction l as [|c l IH]; intros idx r H Hr; cbn [find_from] in H.
  - lia.
  - destruct (streq (name c) wanted) eqn:E.
    + exists 0%nat, c. split; [subst r; f_equal; lia|]. split; [done|].
      by apply WatchProps.streq_true.
    + destruct (IH (S idx) r H Hr) as (k & c' & Hk & Hl & Hn).
      exists (S k), c'. split; [rewrite Hk; f_equal; lia|]. done.
Qed.

Section Main.

Variable lstat_isdir : string -> option bool.

(** A validation that succeeds on a section other than the defaults leaves
    a usable section of the same name. *)
Lemma validate_section_usable c dflt :
  streq (name c) DEFAULTS_SECTION = false ->
  fst (validate_section lstat_isdir c dflt) = 0 ->
  usable (snd (validate_section lstat_isdir c dflt)) /\
  name (snd (validate_section lstat_isdir c dflt)) = name c.
Proof.
  intros Hname. unfold validate_section. rewrite Hname.
  match goal with
  | |- context [if ?cond then 1 else 0] => destruct cond eqn:Hrc
  end; [done|]. intros _. cbn [fst snd].
  apply orb_false_iff in Hrc as [Hrc Hzero].
  apply orb_false_iff in Hrc as [Hrc _].
  apply orb_false_iff in Hrc as [Hrc _].
  apply orb_false_iff in Hrc as [Hrc0 _].
  apply negb_false_iff, Z.eqb_eq in Hrc0.
  unfold usable.
  cbn [name source destination full_interval partial_interval].
  assert (Hn : name (match dflt with
                     | Some d => fill_defaults c d
                     | None => c
                     end) = name c) by (by destruct dflt).
  rewrite Hn. split; [|done]. split.
  { intros Heq. rewrite Heq in Hname. done. }
  split; [|split].
  - destruct dflt; cbn [source fill_defaults];
      destruct (source c), (destination c); try done; eauto.
  - destruct dflt; cbn [destination fill_defaults];
      destruct (source c), (destination c); try done; eauto.
  - apply andb_false_iff in Hzero as [H|H]; apply Z.eqb_neq in H; auto.
Qed.

Lemma validate_section_name c dflt :
  name (snd (validate_section lstat_isdir c dflt)) = name c.
Proof.
  unfold validate_section.
  destruct (streq (name c) DEFAULTS_SECTION); [done|]. cbn [snd name].
  by destruct dflt.
Qed.

(** One section validated and marked. *)
Lemma mark_validated idx defaults_idx sel c rc sections' :
  selection_ok sel ->
  config_sections sel !! idx = Some c ->
  streq (name c) DEFAULTS_SECTION = false ->
  validate_config_section lstat_isdir idx defaults_idx (config_sections sel)
    = (rc, sections') ->
  rc = 0 ->
  let sel1 := mk_selection sections' (<[idx := true]> (selected sel)) true in
  selection_ok sel1 /\
  name <$> config_sections sel1 = name <$> config_sections sel /\
  (forall i, selected sel !! i = Some true -> selected sel1 !! i = Some true) /\
  selected sel1 !! idx = Some true.
Proof.
  intros (Hlen & Hok & Hany) Hc Hname Hval Hrc sel1.
  unfold validate_config_section in Hval. rewrite Hc in Hval.
  set (dflt := if defaults_idx <? 0 then None else _) in Hval.
  pose proof (validate_section_usable c dflt Hname) as Hus.
  destruct (validate_section lstat_isdir c dflt) as [rc' c'] eqn:E.
  injection Hval as <- <-. cbn [fst snd] in Hus.
  destruct (Hus Hrc) as [Husable Hn].
  assert (Hidx : (idx < length (selected sel))%nat).
  { rewrite Hlen. by eapply lookup_lt_Some. }
  assert (Hmarked : selected sel1 !! idx = Some true).
  { subst sel1. cbn [selected]. by apply list_lookup_insert_eq. }
  split; [|split; [|split]]; subst sel1; unfold selection_ok;
    cbn [selected config_sections any_sections_chosen].
  - split; [by rewrite !length_insert|]. split; [|eauto].
    intros i ci Hi Hci. destruct (decide (i = idx)) as [->|Hne].
    + rewrite list_lookup_insert_eq in Hci
        by (apply (lookup_lt_Some _ _ _ Hc)).
      by injection Hci as <-.
    + assert (idx <> i) as Hne' by congruence.
      rewrite list_lookup_insert_ne in Hi by done.
      rewrite list_lookup_insert_ne in Hci by done. eauto.
  - rewrite list_fmap_insert, Hn. apply list_insert_id.
    by rewrite list_lookup_fmap, Hc.
  - intros i Hi. destruct (decide (i = idx)) as [->|Hne]; [done|].
    by rewrite list_lookup_insert_ne.
  - exact Hmarked.
Qed.

Lemma select_named_spec defaults_idx : forall names sel sel',
  selection_ok sel ->
  select_named lstat_isdir names defaults_idx sel = Some sel' ->
  selection_ok sel' /\
  name <$> config_sections sel' = name <$> config_sections sel /\
  (forall i, selected sel !! i = Some true -> selected sel' !! i = Some true) /\
  (forall wanted, wanted ∈ names ->
     exists i c, selected sel' !! i = Some true /\
                 config_sections sel' !! i = Some c /\ name c = wanted) /\
  (names <> [] -> any_sections_chosen sel' = true).
Proof.
  induction names as [|wanted names IH]; intros sel sel' Hok H;
    cbn [select_named] in H.
  - injection H as <-. split; [exact Hok|]. split; [done|]. split; [done|].
    split; [|done]. intros wanted Hin. by apply elem_of_nil in Hin.
  - destruct (find_config_section wanted (config_sections sel) <? 0) eqn:Ef;
      [done|].
    apply Z.ltb_ge in Ef.
    destruct (find_from_found wanted (config_sections sel) 0 _ eq_refl Ef)
      as (k & c0 & Hk & Hc0 & Hn0).
    fold (find_config_section wanted (config_sections sel)) in Hk.
    rewrite Hk in H. rewrite Nat2Z.id in H. cbn [Nat.add] in H.
    rewrite Hc0 in H.
    destruct (streq (name c0) DEFAULTS_SECTION) eqn:Ed; [done|].
    destruct (validate_config_section lstat_isdir k defaults_idx
                (config_sections sel)) as [rc sections'] eqn:Ev.
    destruct (rc =? 0) eqn:Erc; [|done]. cbn [negb] in H.
    apply Z.eqb_eq in Erc.
    destruct (mark_validated k defaults_idx sel c0 rc sections' Hok Hc0 Ed
                Ev Erc) as (Hok1 & Hnames1 & Hmono1 & Hmarked).
    destruct (IH _ _ Hok1 H) as (Hok' & Hnames' & Hmono' & Hall & _).
    cbn [config_sections selected] in *.
    split; [exact Hok'|]. split; [congruence|]. split; [auto|]. split.
    + intros w Hw. apply elem_of_cons in Hw as [->|Hw]; [|by apply Hall].
      assert (Hname_k : (name <$> config_sections sel') !! k = Some wanted).
      { rewrite Hnames', Hnames1, list_lookup_fmap, Hc0. cbn. by rewrite Hn0. }
      rewrite list_lookup_fmap in Hname_k.
      destruct (config_sections sel' !! k) as [c'|] eqn:Hc'; [|done].
      injection Hname_k as Hname_k. exists k, c'. auto.
    + intros _. destruct Hok' as (_ & _ & _).
      clear -H Hok1 IH. 
      assert (forall names sel sel',
                any_sections_chosen sel = true ->
                select_named lstat_isdir names defaults_idx sel = Some sel' ->
                any_sections_chosen sel' = true) as Hkeep.
      { clear. induction names as [|w names IHn]; intros sel sel' Ha Hs;
          cbn [select_named] in Hs.
        - by injection Hs as <-.
        - repeat case_match; try done. by eapply IHn; [|exact Hs]. }
      by eapply Hkeep; [|exact H].
Qed.

Lemma select_all_spec defaults_idx : forall n cf_idx sel sel',
  selection_ok sel ->
  (length (config_sections sel) <= cf_idx + n)%nat ->
  select_all lstat_isdir n cf_idx defaults_idx sel = Some sel' ->
  selection_ok sel' /\
  name <$> config_sections sel' = name <$> config_sections sel /\
  (forall i, selected sel !! i = Some true -> selected sel' !! i = Some true) /\
  (forall i c, (cf_idx <= i)%nat -> config_sections sel' !! i = Some c ->
               name c <> DEFAULTS_SECTION -> selected sel' !! i = Some true).
Proof.
  induction n as [|n IH]; intros cf_idx sel sel' Hok Hlen H;
    cbn [select_all] in H.
  - injection H as <-. split; [exact Hok|]. split; [done|]. split; [done|].
    intros i c Hi Hc _. apply lookup_lt_Some in Hc. lia.
  - destruct (config_sections sel !! cf_idx) as [c0|] eqn:Hc0.
    2:{ injection H as <-. split; [exact Hok|]. split; [done|].
        split; [done|].
        intros i c Hi Hc _. apply lookup_lt_Some in Hc.
        apply lookup_ge_None in Hc0. lia. }
    destruct (streq (name c0) DEFAULTS_SECTION) eqn:Ed.
    + destruct (IH (S cf_idx) sel sel' Hok ltac:(lia) H)
        as (Hok' & Hnames' & Hmono' & Hall).
      split; [exact Hok'|]. split; [exact Hnames'|]. split; [exact Hmono'|].
      intros i c Hi Hc Hnd. destruct (decide (i = cf_idx)) as [->|Hne].
      * exfalso. apply Hnd.
        assert (Hname_i : (name <$> config_sections sel') !! cf_idx
                          = Some (name c0)).
        { by rewrite Hnames', list_lookup_fmap, Hc0. }
        rewrite list_lookup_fmap, Hc in Hname_i. injection Hname_i as ->.
        by apply WatchProps.streq_true.
      * apply (Hall i c); [lia|done|done].
    + destruct (validate_config_section lstat_isdir cf_idx defaults_idx
                  (config_sections sel)) as [rc sections'] eqn:Ev.
      destruct (rc =? 0) eqn:Erc; [|done]. cbn [negb] in H.
      apply Z.eqb_eq in Erc.
      destruct (mark_validated cf_idx defaults_idx sel c0 rc sections' Hok
                  Hc0 Ed Ev Erc) as (Hok1 & Hnames1 & Hmono1 & Hmarked).
      assert (Hlen1 : (length sections' <= S cf_idx + n)%nat).
      { cbn [config_sections] in Hnames1.
        apply (f_equal length) in Hnames1. rewrite !length_fmap in Hnames1.
        lia. }
      destruct (IH (S cf_idx) _ sel' Hok1 Hlen1 H)
        as (Hok' & Hnames' & Hmono' & Hall).
      cbn [config_sections selected] in *.
      split; [exact Hok'|]. split; [congruence|]. split; [auto|].
      intros i c Hi Hc Hnd. destruct (decide (i = cf_idx)) as [->|Hne].
      * by apply Hmono'.
      * apply (Hall i c); [lia|done|done].
Qed.

(** X26: the sections [main] selects.  When [main] goes on to start the
    sync processes, at least one section is selected; every selected
    section has passed validation: it is not the defaults section, it has
    a source and a destination, and its intervals are not both zero; every
    section named on the command line is selected; and when none is named,
    every section but the defaults section is selected. *)
Theorem choose_sections_selects_usable names sections sel :
  choose_sections lstat_isdir names sections = Some sel ->
  name <$> config_sections sel = name <$> sections /\
  (exists i, selected sel !! i = Some true) /\
  (forall i c, selected sel !! i = Some true ->
               config_sections sel !! i = Some c -> usable c) /\
  (forall wanted, wanted ∈ names ->
     exists i c, selected sel !! i = Some true /\
                 config_sections sel !! i = Some c /\ name c = wanted) /\
  (names = [] ->
   forall i c, config_sections sel !! i = Some c ->
               name c <> DEFAULTS_SECTION -> selected sel !! i = Some true).
Proof.
  unfold choose_sections.
  destruct sections as [|c0 l0] eqn:Hsec; [done|]. rewrite <- Hsec. clear Hsec.
  set (defaults_idx := find_config_section DEFAULTS_SECTION sections).
  set (checked := if 0 <=? defaults_idx then _ else Some sections).
  assert (Hchecked : forall sections1, checked = Some sections1 ->
            name <$> sections1 = name <$> sections).
  { subst checked. intros sections1.
    destruct (0 <=? defaults_idx); [|by intros [= <-]].
    unfold validate_config_section.
    destruct (sections !! Z.to_nat defaults_idx) as [c|] eqn:Hc;
      [|cbn; by intros [= <-]].
    cbn [Z.ltb Z.compare].
    pose proof (validate_section_name c None) as Hn.
    destruct (validate_section lstat_isdir c None) as [rc c'].
    cbn [snd] in Hn. destruct (rc =? 0); cbn [negb]; [|done].
    intros [= <-]. rewrite list_fmap_insert, Hn. apply list_insert_id.
    by rewrite list_lookup_fmap, Hc. }
  destruct checked as [sections1|]; [|done].
  specialize (Hchecked sections1 eq_refl).
  set (sel0 := mk_selection sections1 (replicate (length sections1) false) false).
  assert (Hok0 : selection_ok sel0).
  { subst sel0. unfold selection_ok.
    cbn [selected config_sections any_sections_chosen].
    split; [by rewrite length_replicate|]. split; [|done].
    intros i c Hi _. apply lookup_replicate in Hi as [Hi _]. done. }
  destruct (select_named lstat_isdir names defaults_idx sel0) as [sel1|] eqn:E1;
    [|done].
  destruct (select_named_spec defaults_idx names sel0 sel1 Hok0 E1)
    as (Hok1 & Hnames1 & _ & Hall1 & _).
  cbn [config_sections] in Hnames1.
  destruct names as [|wanted names].
  - destruct (select_all lstat_isdir (length (config_sections sel1)) 0
                defaults_idx sel1) as [sel2|] eqn:E2; [|done].
    destruct (any_sections_chosen sel2) eqn:Eany; [|done].
    intros [= <-].
    destruct (select_all_spec defaults_idx (length (config_sections sel1))
                0%nat sel1 sel2 Hok1 (le_n _) E2)
      as (Hok2 & Hnames2 & _ & Hall2).
    destruct Hok2 as (_ & Hus2 & Hany2).
    split; [rewrite Hnames2, Hnames1; exact Hchecked|].
    split; [by apply Hany2|]. split; [exact Hus2|].
    split.
    + intros w Hw. by apply elem_of_nil in Hw.
    + intros _ i c Hc Hnd. apply (Hall2 i c); [lia|done|done].
  - destruct (any_sections_chosen sel1) eqn:Eany; [|done].
    intros [= <-]. destruct Hok1 as (_ & Hus1 & Hany1).
    split; [rewrite Hnames1; exact Hchecked|].
    split; [by apply Hany1|]. split; [exact Hus1|].
    split; [exact Hall1|done].
Qed.

End Main.

Lemma choose_sections_selects_usable_witness :
  exists i, selected
    (mk_selection
       [Examples.defaults_100;
        snd (validate_section (fun _ => Some true) Examples.backup_0
               (Some Examples.defaults_100))]
       [false; true] true) !! i = Some true.
Proof.
  destruct (choose_sections_selects_usable (fun _ => Some true) ["backup"]
              [Examples.defaults_100; Examples.backup_0]
              (mk_selection
                 [Examples.defaults_100;
                  snd (validate_section (fun _ => Some true) Examples.backup_0
                         (Some Examples.defaults_100))]
                 [false; true] true)) as (_ & H & _).
  - reflexivity.
  - exact H.
Defined.

End ConfigMainProps.

(** ** sync.c: rsync runs, the transfer list and the sync loop *)

Module SyncRunProps.
Import Common Sync Config SyncRun.

Ltac psimpl :=
  cbn [w st fs calls trace set_w set_st set_fs tick add_effect status_update
       signal_exit fst snd sync_exit_now action status_file_updates log
       watcher next_full_sync next_partial_sync last_full_sync
       last_partial_sync last_failed_full_sync last_failed_partial_sync
       last_full_sync_status last_partial_sync_status full_sync_failures
       partial_sync_failures excludes_file rsync_error_file] in *.

Lemma foldl_add_effect {A} (g : A -> effect) l : forall p,
  foldl (fun acc x => add_effect (g x) acc) p l
  = mk_process (w p) (st p) (fs p) (calls p) (trace p ++ (g <$> l)).
Proof.
  induction l as [|x l IH]; intros p; cbn [foldl].
  - cbn [fmap list_fmap]. rewrite app_nil_r. by destruct p.
  - rewrite IH. psimpl. rewrite fmap_cons. by rewrite <- app_assoc.
Qed.

(** The exit status byte of a wait status below 256 is 0: that is the
    wait status of a process that a signal ended. *)
Lemma WEXITSTATUS_signalled wait_status :
  0 <= wait_status < 256 -> WEXITSTATUS wait_status = 0.
Proof.
  intros H. unfold WEXITSTATUS.
  replace (Z.land wait_status 65280) with 0; [done|].
  symmetry. apply Z.bits_inj'. intros n Hn.
  rewrite Z.land_spec, Z.bits_0.
  destruct (decide (n < 8)) as [Hlt|Hge].
  - assert (Z.testbit 65280 n = false) as ->; [|by rewrite andb_false_r].
    assert (n = 0 \/ n = 1 \/ n = 2 \/ n = 3 \/ n = 4 \/ n = 5 \/ n = 6 \/ n = 7)
      as Hcases by lia.
    repeat (destruct Hcases as [->|Hcases]; [reflexivity|]). by subst n.
  - assert (Z.testbit wait_status n = false) as ->; [|done].
    destruct (decide (wait_status = 0)) as [->|Hnz]; [apply Z.bits_0|].
    apply Z.bits_above_log2; [lia|].
    assert (Z.log2 wait_status < 8); [|lia].
    apply Z.log2_lt_pow2; lia.
Qed.

Lemma rsync_argv_length words source destination excludes_file transfer_list :
  Z.of_nat (length (rsync_argv words source destination excludes_file
                      transfer_list))
  = rsync_argc words excludes_file transfer_list.
Proof.
  unfold rsync_argv, rsync_argc. rewrite !length_app.
  destruct transfer_list, excludes_file; cbn [length]; lia.
Qed.

(** Reading a file of lines shorter than the buffer gives the lines. *)
Lemma fgets_pieces_short fuel n line :
  (String.length line < n)%nat -> fgets_pieces fuel n line = [line].
Proof.
  intros H. destruct fuel; cbn [fgets_pieces]; [done|].
  by apply Nat.ltb_lt in H as ->.
Qed.

Lemma fgets_all_short n lines :
  Forall (fun line => (String.length line < n)%nat) lines ->
  fgets_all n lines = lines.
Proof.
  unfold fgets_all. induction 1 as [|line lines Hline _ IH]; [done|].
  rewrite fmap_cons. cbn [concat]. rewrite IH, fgets_pieces_short by done.
  done.
Qed.

Lemma first_occurrences_app l1 : forall seen l2,
  first_occurrences seen (l1 ++ l2)
  = first_occurrences seen l1
    ++ first_occurrences (rev (first_occurrences seen l1) ++ seen) l2.
Proof.
  induction l1 as [|x l1 IH]; intros seen l2; [done|].
  cbn [app first_occurrences]. case_bool_decide as Hx; [apply IH|].
  rewrite IH. cbn [app rev]. by rewrite <- app_assoc.
Qed.

Lemma first_occurrences_elem l : forall seen x,
  x ∈ first_occurrences seen l <-> x ∈ l /\ x ∉ seen.
Proof.
  induction l as [|y l IH]; intros seen x; cbn [first_occurrences].
  - split; [by intros ?%elem_of_nil|by intros [?%elem_of_nil _]].
  - case_bool_decide as Hy.
    + rewrite IH, elem_of_cons. split; [tauto|].
      intros [[->|Hin] Hout]; [done|tauto].
    + rewrite !elem_of_cons, IH, elem_of_cons. split.
      * intros [->|[Hin Hout]]; [tauto|]. split; [tauto|]. tauto.
      * intros [[->|Hin] Hout]; [tauto|].
        destruct (decide (x = y)) as [->|Hne]; [tauto|]. right.
        split; [done|]. intros [?|?]; done.
Qed.

Lemma first_occurrences_NoDup l : forall seen,
  NoDup (first_occurrences seen l).
Proof.
  induction l as [|y l IH]; intros seen; cbn [first_occurrences].
  - constructor.
  - case_bool_decide as Hy; [apply IH|]. constructor; [|apply IH].
    rewrite first_occurrences_elem, elem_of_cons. tauto.
Qed.

Lemma NoDup_List_filter {A} (f : A -> bool) (l : list A) :
  NoDup l -> NoDup (List.filter f l).
Proof.
  induction 1 as [|x l Hx _ IH]; cbn [List.filter]; [constructor|].
  destruct (f x); [|done]. constructor; [|done].
  rewrite list_elem_of_In, filter_In, <- list_elem_of_In. tauto.
Qed.

Section Run.

Variable os : system.

Lemma wait_loop_waited n p wait_status :
  sync_exit_now (w p) = false ->
  sys_waitpid os (calls p) = Waited wait_status ->
  wait_loop os (S n) p = (WEXITSTATUS wait_status, false, tick p).
Proof. intros Hexit Hwait. cbn [wait_loop]. by rewrite Hexit, Hwait. Qed.

(** The loop around [waitpid] touches neither the status nor the files. *)
Lemma wait_loop_frame : forall n p,
  st (snd (wait_loop os n p)) = st p /\
  fs (snd (wait_loop os n p)) = fs p.
Proof.
  induction n as [|n IH]; intros p; cbn [wait_loop]; [done|].
  destruct (sync_exit_now (w p)); [done|].
  destruct (sys_waitpid os (calls p)) as [wait_status|exit_signal|];
    [done| |done].
  by destruct (IH (signal_exit exit_signal (tick p))) as (H1 & H2).
Qed.

(** [run_rsync] leaves the status alone, and of the files it touches only
    the one that takes the error output of rsync. *)
Lemma run_rsync_frame fuel source destination excludes_file options
    transfer_list rsync_error_file p :
  st (snd (run_rsync os fuel source destination excludes_file options
             transfer_list rsync_error_file p)) = st p /\
  forall path, path <> rsync_error_file ->
    fs (snd (run_rsync os fuel source destination excludes_file options
               transfer_list rsync_error_file p)) !! path = fs p !! path.
Proof.
  unfold run_rsync.
  destruct (sys_wordexp os options) as [words|]; [|done]. cbv zeta.
  set (p1 := set_fs (delete rsync_error_file (fs p)) p).
  set (argv := rsync_argv _ _ _ _ _).
  set (started := if sys_fork os (calls p1) then _ else _).
  assert (Hstarted : st (snd started) = st p /\
    forall path, path <> rsync_error_file ->
      fs (snd started) !! path = fs p !! path).
  { subst started. destruct (sys_fork os (calls p1)).
    - set (p1' := add_effect _ _).
      destruct (wait_loop_frame fuel p1') as (H1 & H2).
      destruct (wait_loop os fuel p1') as [[rc running] p2].
      cbn [snd] in *. split.
      + by destruct running.
      + intros path Hne.
        assert (fs p2 !! path = fs p !! path) as Hp2.
        { rewrite H2. subst p1' p1. psimpl.
          by rewrite lookup_insert_ne, lookup_delete_ne. }
        by destruct running.
    - subst p1. psimpl. split; [done|]. intros path Hne.
      by rewrite lookup_delete_ne. }
  destruct started as [rc p2]. cbn [snd] in Hstarted.
  destruct (fs p2 !! rsync_error_file) as [[|line lines]|]; try done.
  destruct (sys_readable os rsync_error_file); cbn [negb snd]; [|done].
  rewrite foldl_add_effect. psimpl. done.
Qed.

(** When rsync starts and [waitpid] returns a wait status, [run_rsync]
    returns its exit status byte, and rsync was started with the argument
    vector. *)
Lemma run_rsync_waited fuel source destination excludes_file options
    transfer_list rsync_error_file p words wait_status :
  sync_exit_now (w p) = false ->
  sys_wordexp os options = Some words ->
  (forall t, sys_fork os t = true) ->
  (forall t, sys_waitpid os t = Waited wait_status) ->
  fst (run_rsync os (S fuel) source destination excludes_file options
         transfer_list rsync_error_file p) = WEXITSTATUS wait_status /\
  Exec (rsync_argv words source destination excludes_file transfer_list)
    ∈ trace (snd (run_rsync os (S fuel) source destination excludes_file
                    options transfer_list rsync_error_file p)).
Proof.
  intros Hexit Hwords Hfork Hwait. unfold run_rsync.
  rewrite Hwords, Hfork. cbv zeta.
  set (argv := rsync_argv _ _ _ _ _).
  set (p1' := add_effect (Exec argv) _).
  rewrite (wait_loop_waited fuel p1' wait_status); [|exact Hexit|apply Hwait].
  assert (Hin : Exec argv ∈ trace (tick p1')).
  { subst p1'. psimpl. apply elem_of_app. right. by constructor. }
  set (p3 := tick p1') in *.
  destruct (fs p3 !! rsync_error_file) as [[|line lines]|]; try done.
  destruct (sys_readable os rsync_error_file); cbn [negb fst snd]; [|done].
  split; [done|]. rewrite foldl_add_effect. psimpl.
  rewrite !elem_of_app. tauto.
Qed.

Lemma update_timestamp_file_frame file p :
  st (update_timestamp_file os file p) = st p /\
  fs (update_timestamp_file os file p) = fs p /\
  forall e, e ∈ trace p -> e ∈ trace (update_timestamp_file os file p).
Proof.
  unfold update_timestamp_file. destruct file; [|done].
  destruct (sys_fopen os (calls p)); cbv zeta;
    match goal with |- context [sys_utime os ?t] =>
      destruct (sys_utime os t) end;
    psimpl; repeat split; try done; intros e He; rewrite ?elem_of_app; tauto.
Qed.

Lemma acquire_lock_frame cf wait_action phase p :
  st (snd (acquire_lock os cf wait_action phase p)) = st p /\
  fs (snd (acquire_lock os cf wait_action phase p)) = fs p /\
  sync_exit_now (w (snd (acquire_lock os cf wait_action phase p)))
    = sync_exit_now (w p).
Proof.
  unfold acquire_lock. destruct (sync_lock cf); [|done]. cbv zeta.
  by destruct (sys_open os _).
Qed.

(** What [sync_full] does to the status: when it returns 0 the last full
    sync is now, it is recorded as OK and the failure count is reset;
    otherwise the status is left alone. *)
Lemma sync_full_status fuel cf p :
  (fst (sync_full os fuel cf p) = 0 ->
   exists t,
     st (snd (sync_full os fuel cf p)) =
       mk_status (watcher (st p)) (next_full_sync (st p))
         (next_partial_sync (st p)) (sys_time os t) (last_partial_sync (st p))
         (last_failed_full_sync (st p)) (last_failed_partial_sync (st p))
         "OK" (last_partial_sync_status (st p))
         0 (partial_sync_failures (st p))
         (excludes_file (st p)) (rsync_error_file (st p))) /\
  (fst (sync_full os fuel cf p) <> 0 ->
   st (snd (sync_full os fuel cf p)) = st p).
Proof.
  unfold sync_full.
  destruct (acquire_lock_frame cf ACTION_SYNC_FULL_WAIT "full sync" p)
    as (Hst1 & _).
  destruct (acquire_lock os cf ACTION_SYNC_FULL_WAIT "full sync" p)
    as [locked p1].
  cbn [snd] in Hst1. cbv zeta.
  set (p2 := add_effect _ (status_update ACTION_SYNC_FULL p1)).
  assert (Hst2 : st p2 = st p) by (subst p2; psimpl; done).
  match goal with
  | |- context [run_rsync os fuel ?a ?b ?c ?d ?e ?f p2] =>
      destruct (run_rsync_frame fuel a b c d e f p2) as (Hst3 & _);
      destruct (run_rsync os fuel a b c d e f p2) as [rc p3]
  end.
  cbn [snd] in Hst3.
  set (p5 := if locked then _ else _).
  assert (Hst5 : st p5 = st p).
  { subst p5. destruct locked; psimpl; congruence. }
  destruct (rc =? 0) eqn:Erc; cbn [fst snd].
  - split; [|intros H; apply Z.eqb_eq in Erc; done]. intros _.
    destruct (update_timestamp_file_frame (full_marker cf) p5) as (Hst6 & _).
    exists (calls (update_timestamp_file os (full_marker cf) p5)).
    psimpl. by rewrite Hst6, Hst5.
  - split; [intros H; apply Z.eqb_neq in Erc; done|]. intros _. exact Hst5.
Qed.

(** X27: [sync_full] takes the exit status byte of the wait status for the
    result of rsync, whether or not rsync exited.  When rsync is started
    and [waitpid] returns a wait status, rsync was given the options, the
    exclude file, the source and the destination, in an argument vector
    that fills the array allocated for it; the result is the exit status
    byte, which is 0 also for an rsync that a signal has ended; a result
    of 0 records the sync as OK and resets the failure count, any other
    leaves the status alone. *)
Theorem sync_full_counts_exit_status fuel cf p words wait_status :
  sync_exit_now (w p) = false ->
  sys_wordexp os (default "--delete -axH" (full_rsync_opts cf)) = Some words ->
  (forall t, sys_fork os t = true) ->
  (forall t, sys_waitpid os t = Waited wait_status) ->
  let argv :=
    rsync_argv words (default "" (source cf)) (default "" (destination cf))
      (excludes_file (st p)) None in
  let r := sync_full os (S fuel) cf p in
  fst r = WEXITSTATUS wait_status /\
  Z.of_nat (length argv) = rsync_argc words (excludes_file (st p)) None /\
  Exec argv ∈ trace (snd r) /\
  (0 <= wait_status < 256 -> fst r = 0) /\
  (fst r = 0 ->
   last_full_sync_status (st (snd r)) = "OK" /\
   full_sync_failures (st (snd r)) = 0) /\
  (fst r <> 0 -> st (snd r) = st p).
Proof.
  intros Hexit Hwords Hfork Hwait argv r.
  destruct (sync_full_status (S fuel) cf p) as [Hok Hfail].
  fold r in Hok, Hfail.
  assert (Hrc : fst r = WEXITSTATUS wait_status /\ Exec argv ∈ trace (snd r)).
  { subst r. unfold sync_full.
    destruct (acquire_lock_frame cf ACTION_SYNC_FULL_WAIT "full sync" p)
      as (Hst1 & _ & Hexit1).
    destruct (acquire_lock os cf ACTION_SYNC_FULL_WAIT "full sync" p)
      as [locked p1].
    cbn [snd] in Hst1, Hexit1. cbv zeta.
    set (p2 := add_effect _ (status_update ACTION_SYNC_FULL p1)).
    assert (Hst2 : st p2 = st p) by (subst p2; psimpl; done).
    assert (Hexit2 : sync_exit_now (w p2) = false).
    { subst p2. psimpl. congruence. }
    rewrite Hst2. fold argv.
    destruct (run_rsync_waited fuel (default "" (source cf))
                (default "" (destination cf)) (excludes_file (st p))
                (default "--delete -axH" (full_rsync_opts cf)) None
                (rsync_error_file (st p)) p2 words wait_status
                Hexit2 Hwords Hfork Hwait) as [Hrc Hexec].
    fold argv in Hexec.
    destruct (run_rsync os (S fuel) _ _ _ _ _ _ p2) as [rc p3].
    cbn [fst snd] in Hrc, Hexec.
    set (p5 := if locked then _ else _).
    assert (H5 : Exec argv ∈ trace p5).
    { subst p5. destruct locked; psimpl; rewrite ?elem_of_app; tauto. }
    destruct (rc =? 0); cbn [fst snd]; [|done]. split; [done|].
    psimpl. by apply update_timestamp_file_frame. }
  destruct Hrc as [Hrc Hexec].
  split; [exact Hrc|]. split; [apply rsync_argv_length|].
  split; [exact Hexec|]. split.
  { intros Hsig. rewrite Hrc. by apply WEXITSTATUS_signalled. }
  split; [|exact Hfail].
  intros H0. destruct (Hok H0) as [t ->]. done.
Qed.

(** [collate_line] over the strings of one change file. *)
Lemma collate_lines_spec source l : forall seen out,
  foldl (collate_line os source) (seen, out) l
  = (rev (first_occurrences seen l) ++ seen,
     out ++ List.filter (fun line => sys_exists os (source +:+ "/" +:+ line))
              (first_occurrences seen l)).
Proof.
  induction l as [|x l IH]; intros seen out;
    cbn [foldl first_occurrences collate_line].
  - cbn [rev app List.filter]. by rewrite app_nil_r.
  - case_bool_decide as Hx; [apply IH|]. rewrite IH.
    cbn [rev List.filter]. rewrite <- app_assoc. cbn [app].
    destruct (sys_exists os (source +:+ "/" +:+ x)); [|done].
    by rewrite <- app_assoc.
Qed.

Lemma batch_lines_delete files change_queue path d_name :
  batch_path change_queue d_name <> path ->
  batch_lines os (delete path files) change_queue d_name
  = batch_lines os files change_queue d_name.
Proof.
  intros Hne. unfold batch_lines. by rewrite lookup_delete_ne.
Qed.

Lemma batch_lines_insert files change_queue path content d_name :
  batch_path change_queue d_name <> path ->
  batch_lines os (<[path := content]> files) change_queue d_name
  = batch_lines os files change_queue d_name.
Proof.
  intros Hne. unfold batch_lines. by rewrite lookup_insert_ne.
Qed.

Lemma batch_lines_ext (f g : string -> list string) (names : list string) :
  (forall d_name, d_name ∈ names -> f d_name = g d_name) ->
  concat (f <$> names) = concat (g <$> names).
Proof.
  induction names as [|d_name names IH]; intros H; [done|].
  rewrite !fmap_cons. cbn [concat]. rewrite H by (by constructor).
  rewrite IH; [done|]. intros d Hd. apply H. by constructor.
Qed.

(** The lines [collate_transfer_list] has seen and written after the
    change files of [names]. *)
Lemma collate_files_lines source change_queue names : forall files seen out,
  NoDup (batch_path change_queue <$> names) ->
  snd (foldl (collate_file os source change_queue) (files, (seen, out)) names)
  = (rev (first_occurrences seen
            (concat ((batch_lines os files change_queue) <$> names))) ++ seen,
     out ++ List.filter (fun line => sys_exists os (source +:+ "/" +:+ line))
              (first_occurrences seen
                 (concat ((batch_lines os files change_queue) <$> names)))).
Proof.
  induction names as [|d_name names IH]; intros files seen out Hnodup.
  - cbn [foldl snd fmap list_fmap concat first_occurrences rev app
         List.filter]. by rewrite app_nil_r.
  - rewrite fmap_cons in Hnodup. apply NoDup_cons in Hnodup as [Hfresh Hnodup].
    rewrite fmap_cons. cbn [foldl concat].
    assert (Hrest : forall files' : gmap string (list string),
      files' = files \/
      files' = delete (batch_path change_queue d_name) files ->
      concat ((batch_lines os files' change_queue) <$> names)
      = concat ((batch_lines os files change_queue) <$> names)).
    { intros files' [->| ->]; [done|]. apply batch_lines_ext.
      intros d Hd. apply batch_lines_delete. intros Heq. apply Hfresh.
      rewrite <- Heq. by apply list_elem_of_fmap_2. }
    unfold collate_file at 2. unfold batch_lines at 1 3.
    destruct (Ascii.eqb (char_at d_name 0) ".").
    { rewrite IH by done. done. }
    cbv zeta.
    destruct (files !! batch_path change_queue d_name) as [content|].
    2: { rewrite IH by done. done. }
    destruct (sys_readable os (batch_path change_queue d_name)); cbn [negb].
    + rewrite collate_lines_spec, IH, Hrest by (done || by right).
      rewrite !first_occurrences_app, !rev_app_distr, List.filter_app.
      by rewrite <- !app_assoc.
    + rewrite IH, Hrest by (done || by right). done.
Qed.

(** The files after the change files of [names]: a file that was not
    there is not there, a file that is none of them is as it was, and
    each of them that is not hidden is gone. *)
Lemma collate_files_none source change_queue names path : forall files lines,
  files !! path = None ->
  fst (foldl (collate_file os source change_queue) (files, lines) names)
    !! path = None.
Proof.
  induction names as [|d_name names IH]; intros files lines Hnone; [done|].
  cbn [foldl]. unfold collate_file at 2.
  destruct (Ascii.eqb (char_at d_name 0) "."); [by apply IH|]. cbv zeta.
  destruct (files !! batch_path change_queue d_name); [|by apply IH].
  destruct (sys_readable os _); cbn [negb]; apply IH;
    by rewrite lookup_delete_None; right.
Qed.

Lemma collate_files_other source change_queue names path : forall files lines,
  path ∉ batch_path change_queue <$> names ->
  fst (foldl (collate_file os source change_queue) (files, lines) names)
    !! path = files !! path.
Proof.
  induction names as [|d_name names IH]; intros files lines Hother; [done|].
  rewrite fmap_cons, not_elem_of_cons in Hother. destruct Hother as [Hne Hother].
  cbn [foldl]. unfold collate_file at 2.
  destruct (Ascii.eqb (char_at d_name 0) "."); [by apply IH|]. cbv zeta.
  destruct (files !! batch_path change_queue d_name); [|by apply IH].
  destruct (sys_readable os _); cbn [negb]; rewrite IH by done;
    by rewrite lookup_delete_ne.
Qed.

Lemma collate_files_removed source change_queue names d_name :
  forall files lines,
  d_name ∈ names ->
  Ascii.eqb (char_at d_name 0) "." = false ->
  fst (foldl (collate_file os source change_queue) (files, lines) names)
    !! batch_path change_queue d_name = None.
Proof.
  induction names as [|d names IH]; intros files lines Hin Hshown.
  { by apply elem_of_nil in Hin. }
  cbn [foldl]. apply elem_of_cons in Hin as [<-|Hin].
  - unfold collate_file at 2. rewrite Hshown. cbv zeta.
    destruct (files !! batch_path change_queue d_name) eqn:Hfile.
    + destruct (sys_readable os _); cbn [negb]; apply collate_files_none;
        apply lookup_delete_eq.
    + by apply collate_files_none.
  - destruct (collate_file os source change_queue (files, lines) d)
      as [files' lines']. by apply IH.
Qed.

(** X28: a partial sync uses its transfer list up.  When [sync_partial]
    returns, the transfer list is removed or empty; when it returns
    nonzero, rsync has failed, the transfer list is removed all the same
    and the status is as it was: the paths of a failed partial sync are
    not kept for the next one. *)
Theorem sync_partial_uses_up_transfer_list fuel cf p :
  (fs (snd (sync_partial os fuel cf p)) !! default "" (Config.transfer_list cf)
     = None \/
   fs (snd (sync_partial os fuel cf p)) !! default "" (Config.transfer_list cf)
     = Some []) /\
  (fst (sync_partial os fuel cf p) <> 0 ->
   fs (snd (sync_partial os fuel cf p)) !! default "" (Config.transfer_list cf)
     = None /\
   st (snd (sync_partial os fuel cf p)) = st p).
Proof.
  unfold sync_partial. cbv zeta.
  set (list := default "" (Config.transfer_list cf)).
  assert (Hst0 : st (collate_transfer_list os cf p) = st p).
  { unfold collate_transfer_list. cbv zeta.
    destruct (negb (sys_fopen os (calls p))); [done|].
    destruct (sys_scandir os _); [|done].
    destruct (foldl _ _ _) as [files [seen out]].
    by destruct (files !! _). }
  set (p0 := collate_transfer_list os cf p) in *.
  destruct (fs p0 !! list) as [[|line lines]|] eqn:Hlist; cbn [fst snd].
  - split; [by right|done].
  - destruct (acquire_lock_frame cf ACTION_SYNC_PARTIAL_WAIT "partial sync" p0)
      as (Hst1 & _).
    destruct (acquire_lock os cf ACTION_SYNC_PARTIAL_WAIT "partial sync" p0)
      as [locked p1].
    cbn [snd] in Hst1.
    set (p2 := if sys_readable os list then _ else _).
    assert (Hst2 : st p2 = st p).
    { subst p2. destruct (sys_readable os list); [|psimpl; congruence].
      unfold log_transfer_list. cbv zeta. rewrite foldl_add_effect.
      destruct (_ <? _)%nat; psimpl; congruence. }
    match goal with
    | |- context [run_rsync os fuel ?a ?b ?c ?d ?e ?f p2] =>
        destruct (run_rsync_frame fuel a b c d e f p2) as (Hst3 & _);
        destruct (run_rsync os fuel a b c d e f p2) as [rc p3]
    end.
    cbn [snd] in Hst3.
    set (p5 := if locked then _ else _).
    assert (Hst5 : st p5 = st p).
    { subst p5. destruct locked; psimpl; congruence. }
    set (p6 := set_fs (delete list (fs p5)) p5).
    assert (Hgone : fs p6 !! list = None).
    { subst p6. psimpl. apply lookup_delete_eq. }
    destruct (rc =? 0) eqn:Erc; cbn [fst snd].
    + destruct (update_timestamp_file_frame (partial_marker cf) p6)
        as (_ & Hfs7 & _).
      psimpl. rewrite Hfs7. split; [by left|].
      intros H. by apply Z.eqb_eq in Erc.
    + split; [by left|]. intros _. split; [done|]. subst p6. by psimpl.
  - split; [by left|done].
Qed.

(** X29: what [collate_transfer_list] leaves.  When the transfer list can
    be opened and the change queue read, and the transfer list is none of
    the change files, the transfer list gets, after what it held, the
    lines of the change files in the order of the names, each line once,
    at its first place, and only the lines that name something that
    exists under the source; every change file whose name does not start
    with a dot is removed; no other file changes. *)
Theorem collate_transfer_list_result cf p names :
  let list := default "" (Config.transfer_list cf) in
  let queue := default "" (Config.change_queue cf) in
  let lines := concat ((batch_lines os (fs p) queue) <$> names) in
  let added :=
    List.filter
      (fun line => sys_exists os (default "" (source cf) +:+ "/" +:+ line))
      (first_occurrences [] lines) in
  let p' := collate_transfer_list os cf p in
  sys_fopen os (calls p) = true ->
  sys_scandir os queue = Some names ->
  NoDup (batch_path queue <$> names) ->
  list ∉ batch_path queue <$> names ->
  fs p' !! list = Some (default [] (fs p !! list) ++ added) /\
  NoDup added /\
  (forall line, line ∈ added <->
     line ∈ lines /\
     sys_exists os (default "" (source cf) +:+ "/" +:+ line) = true) /\
  (forall d_name, d_name ∈ names -> Ascii.eqb (char_at d_name 0) "." = false ->
     fs p' !! batch_path queue d_name = None) /\
  (forall path, path <> list -> path ∉ batch_path queue <$> names ->
     fs p' !! path = fs p !! path).
Proof.
  intros list queue lines added p' Hopen Hscan Hnodup Hlist.
  set (opened := <[list := default [] (fs p !! list)]> (fs p)).
  pose proof (collate_files_lines (default "" (source cf)) queue names
                opened [] [] Hnodup) as Hlines.
  pose proof (collate_files_other (default "" (source cf)) queue names list
                opened ([], []) Hlist) as Hkept.
  pose proof (collate_files_removed (default "" (source cf)) queue names)
    as Hremoved.
  pose proof (collate_files_other (default "" (source cf)) queue names)
    as Hother.
  assert (Hsame :
    concat ((batch_lines os opened queue) <$> names) = lines).
  { apply batch_lines_ext. intros d Hd. apply batch_lines_insert.
    intros Heq. apply Hlist. rewrite <- Heq. by apply list_elem_of_fmap_2. }
  rewrite Hsame in Hlines. fold added in Hlines. cbn [app] in Hlines.
  assert (Hfs : fs p' !! list = Some (default [] (fs p !! list) ++ added) /\
    (forall path, path <> list ->
       fs p' !! path
       = fst (foldl (collate_file os (default "" (source cf)) queue)
                (opened, ([], [])) names) !! path)).
  { subst p'. unfold collate_transfer_list. fold list queue. cbv zeta.
    rewrite Hopen, Hscan. cbn [negb]. fold opened.
    destruct (foldl _ _ _) as [files [seen out]].
    cbn [fst snd] in *. injection Hlines as _ ->.
    unfold opened in Hkept. rewrite lookup_insert_eq in Hkept.
    rewrite Hkept. psimpl. split; [apply lookup_insert_eq|].
    intros path Hne. by rewrite lookup_insert_ne. }
  destruct Hfs as [Hnew Hrest]. split; [exact Hnew|]. split.
  { apply NoDup_List_filter, first_occurrences_NoDup. }
  split.
  { intros line. unfold added.
    rewrite list_elem_of_In, filter_In, <- list_elem_of_In.
    rewrite first_occurrences_elem. split; [tauto|].
    intros [H1 H2]. split; [|done]. split; [done|]. apply not_elem_of_nil. }
  split.
  - intros d_name Hin Hshown.
    assert (batch_path queue d_name <> list) as Hne.
    { intros Heq. apply Hlist. rewrite <- Heq. by apply list_elem_of_fmap_2. }
    rewrite Hrest by done. by apply Hremoved.
  - intros path Hne Hnot. rewrite Hrest, Hother by done.
    unfold opened. by rewrite lookup_insert_ne.
Qed.





End Run.

Lemma sync_full_counts_exit_status_witness :
  fst (sync_full (Examples.sync_os 9) 1 Examples.backup_run Examples.process0)
    = WEXITSTATUS 9 /\
  (0 <= 9 < 256 ->
   fst (sync_full (Examples.sync_os 9) 1 Examples.backup_run Examples.process0)
     = 0) /\
  Exec ["rsync"; "--delete"; "-axH"; "--exclude-from"; "/tmp/sync1/excludes";
        "/srv/data"; "host:/backup"]
    ∈ trace (snd (sync_full (Examples.sync_os 9) 1 Examples.backup_run
                    Examples.process0)).
Proof.
  destruct (sync_full_counts_exit_status (Examples.sync_os 9) 0
              Examples.backup_run Examples.process0 ["--delete"; "-axH"] 9)
    as (H1 & _ & H3 & H4 & _).
  - reflexivity.
  - reflexivity.
  - intros t. reflexivity.
  - intros t. reflexivity.
  - split; [exact H1|]. split; [exact H4|exact H3].
Defined.

Lemma collate_transfer_list_result_witness :
  fs (collate_transfer_list (Examples.sync_os 0) Examples.backup_run
        Examples.process1) !! "/tmp/sync1/transfer"
  = Some ["a.txt"; "sub/"] /\
  fs (collate_transfer_list (Examples.sync_os 0) Examples.backup_run
        Examples.process1) !! "/tmp/sync1/changes/20261030-120030.4242"
  = None.
Proof.
  destruct (collate_transfer_list_result (Examples.sync_os 0)
              Examples.backup_run Examples.process1
              ["."; ".."; "20261030-120000.4242"; "20261030-120030.4242"])
    as (H1 & _ & _ & H4 & _).
  - reflexivity.
  - reflexivity.
  - refine (bool_decide_unpack _ _). vm_compute. exact I.
  - refine (bool_decide_unpack _ _). vm_compute. exact I.
  - split.
    + etrans; [exact H1|]. vm_compute. reflexivity.
    + apply (H4 "20261030-120030.4242"); [|reflexivity].
      refine (bool_decide_unpack _ _). vm_compute. exact I.
Defined.


End SyncRunProps.

